(** * ChildProcessWorker: the supervised child-process worker of jest-worker

    A shallow embedding of
    [packages/jest-worker/src/workers/ChildProcessWorker.ts].

    The worker object is a record; its methods are actions of a small
    state-and-exception monad over that record.  Everything the worker does
    to the outside (forking, signalling, sending on the channel, invoking the
    caller's callbacks, writing to the console) is appended to a
    chronological [trace].  Child handles, promises and timers are kept in
    tables and referred to by index, so that a closure holding an old handle
    (as [killChild] does) keeps pointing at that handle after a respawn.

    The file has three parts: the embedding, the vocabulary of the
    statements with a few sample workers, and the theorems. *)

From Stdlib Require Import ZArith List String Ascii Bool Lia QArith Qround.
From Stdlib Require Import DecimalString.
From Stdlib Require DecimalZ.
Import ListNotations.
Local Open Scope Z_scope.
Local Open Scope string_scope.
Local Open Scope list_scope.

(** ** Values travelling between the processes *)

#[local] Unset Elimination Schemes.
Inductive JSValue : Type :=
| JSUndefined
| JSNull
| JSBool (b : bool)
| JSNumber (z : Z)
| JSString (s : string)
| JSArray (items : list JSValue)
| JSObject (props : list (string * JSValue))
| JSErrorObject (ctor : string) (props : list (string * JSValue)).

#[local] Set Elimination Schemes.

(** A message on the channel is a JavaScript array; [response[i]] of an
    index past the end is [undefined]. *)
Definition Message : Type := list JSValue.

Definition at_index (m : Message) (i : nat) : JSValue := nth i m JSUndefined.

(** [v === n] for a numeric constant [n]. *)
Definition strict_eq_number (v : JSValue) (n : Z) : bool :=
  match v with
  | JSNumber z => Z.eqb z n
  | _ => false
  end.

(** [error != null && typeof error === 'object'] *)
Definition is_object (v : JSValue) : bool :=
  match v with
  | JSArray _ | JSObject _ | JSErrorObject _ _ => true
  | _ => false
  end.

Definition string_of_Z (z : Z) : string := NilZero.string_of_int (Z.to_int z).

Definition string_of_nat (n : nat) : string := string_of_Z (Z.of_nat n).

(** [String(v)], the conversion a template literal and a property key
    apply.  A number is an integer here and prints in decimal; an array
    prints its elements joined by commas, [null] and [undefined] as
    nothing; an error prints as [Error.prototype.toString] has it, from its
    [name] (its own, or the one of its class) and its own [message]; any
    other object as ["[object Object]"].  Objects are data: none has a
    [toString] of its own. *)
Fixpoint to_string (v : JSValue) : string :=
  match v with
  | JSUndefined => "undefined"
  | JSNull => "null"
  | JSBool true => "true"
  | JSBool false => "false"
  | JSNumber z => string_of_Z z
  | JSString s => s
  | JSArray items =>
      (fix join (l : list JSValue) : string :=
         match l with
         | [] => ""
         | x :: rest =>
             let first :=
               match x with
               | JSUndefined | JSNull => ""
               | _ => to_string x
               end in
             match rest with
             | [] => first
             | _ :: _ => (first ++ "," ++ join rest)%string
             end
         end) items
  | JSObject _ => "[object Object]"
  | JSErrorObject ctor props =>
      let text :=
        fix text (key inherited absent : string) (l : list (string * JSValue)) : string :=
          match l with
          | [] => inherited
          | (k, x) :: rest =>
              if String.eqb k key then
                match x with
                | JSUndefined => absent
                | _ => to_string x
                end
              else text key inherited absent rest
          end in
      let name := text "name" ctor "Error" props in
      let msg := text "message" "" "" props in
      if String.eqb name "" then msg
      else if String.eqb msg "" then name
      else (name ++ ": " ++ msg)%string
  end.

(** [obj[key] = v]: an existing property keeps its place, a new one is
    added last. *)
Fixpoint set_prop (key : string) (v : JSValue) (props : list (string * JSValue))
  : list (string * JSValue) :=
  match props with
  | [] => [(key, v)]
  | (k, old) :: rest =>
      if String.eqb k key then (k, v) :: rest else (k, old) :: set_prop key v rest
  end.

Fixpoint get_prop (key : string) (props : list (string * JSValue)) : JSValue :=
  match props with
  | [] => JSUndefined
  | (k, v) :: rest => if String.eqb k key then v else get_prop key rest
  end.

Fixpoint indexed (n : nat) (items : list JSValue) : list (string * JSValue) :=
  match items with
  | [] => []
  | x :: rest => (string_of_nat n, x) :: indexed (S n) rest
  end.

(** The properties visited by [for (const key in extra)], each with
    [extra[key]]: the own enumerable ones.  The list of an object is in
    enumeration order.  Of an error, [message], [stack] and [cause] are
    not enumerable. *)
Definition enumerable (extra : JSValue) : list (string * JSValue) :=
  match extra with
  | JSObject props => map (fun kv => (fst kv, get_prop (fst kv) props)) props
  | JSArray items => indexed 0 items
  | JSErrorObject _ props =>
      map (fun kv => (fst kv, get_prop (fst kv) props))
        (filter (fun kv => negb (existsb (String.eqb (fst kv)) ["message"; "stack"; "cause"]))
           props)
  | _ => []
  end.

(** The global [Error] is taken to be the standard one throughout.
    [new Error(message)]; of the stack only its first line is modelled. *)
Definition new_Error (message : string) : JSValue :=
  JSErrorObject "Error"
    [("message", JSString message);
     ("stack", JSString ("Error: " ++ message)%string)].

(** [error[key] = v] on an error the worker has made, as a change of its
    own properties.  Assigning [__proto__] replaces the prototype and makes
    no property. *)
Definition assign (key : string) (v : JSValue) (obj : JSValue) : JSValue :=
  match obj with
  | JSErrorObject ctor props =>
      if String.eqb key "__proto__" then obj
      else JSErrorObject ctor (set_prop key v props)
  | other => other
  end.

(** ** Constants *)

Definition SIGNAL_BASE_EXIT_CODE : Z := 128.
Definition SIGKILL_EXIT_CODE : Z := SIGNAL_BASE_EXIT_CODE + 9.
Definition SIGTERM_EXIT_CODE : Z := SIGNAL_BASE_EXIT_CODE + 15.

(** How long to wait after SIGTERM before sending SIGKILL *)
Definition SIGKILL_DELAY : nat := 500.

(** Modelled from the spec: the numeric values of the message tags are
    declared in [../types], which is not among the sources; the spec names
    three outbound and five inbound tags, and any pairwise distinct values
    serve. *)
Definition CHILD_MESSAGE_INITIALIZE : Z := 0.
Definition CHILD_MESSAGE_MEM_USAGE : Z := 3.
Definition PARENT_MESSAGE_OK : Z := 0.
Definition PARENT_MESSAGE_CLIENT_ERROR : Z := 1.
Definition PARENT_MESSAGE_SETUP_ERROR : Z := 2.
Definition PARENT_MESSAGE_CUSTOM : Z := 3.
Definition PARENT_MESSAGE_MEM_USAGE : Z := 4.

Inductive WorkerStates : Type :=
| STARTING
| OK
| OUT_OF_MEMORY
| RESTARTING
| SHUTTING_DOWN
| SHUT_DOWN.

Definition WorkerStates_eqb (a b : WorkerStates) : bool :=
  match a, b with
  | STARTING, STARTING | OK, OK | OUT_OF_MEMORY, OUT_OF_MEMORY
  | RESTARTING, RESTARTING | SHUTTING_DOWN, SHUTTING_DOWN
  | SHUT_DOWN, SHUT_DOWN => true
  | _, _ => false
  end.

Inductive Signal : Type := SIGTERM | SIGKILL.

(** ** The host: child handles, promises, timers, trace *)

Record ChildProcess : Type := { connected : bool }.

Inductive PromiseState : Type :=
| Pending
| Resolved (v : JSValue)
| Rejected (e : JSValue).

(** A timer created by [killChild]; its callback is
    [() => childToKill.kill('SIGKILL')], so the handle it captured is all
    there is to remember.  When the callback runs, the trace receives
    [TimerFired t c]: timer [t] called [kill('SIGKILL')] on handle [c]. *)
Record Timer : Type := { timer_id : nat; due : nat; childToKill : nat }.

(** [_exitPromise], which [waitForExit()] returns. *)
Inductive ExitPromise : Type := ExitPending | ExitResolved.

Inductive Effect : Type :=
| Fork (c : nat)
| Kill (c : nat) (s : Signal)
| TimerFired (t : nat) (c : nat)
| Send (c : nat) (m : Message)
| OnStart (cb : nat)
| OnEnd (cb : nat) (pending : option Message) (error result : JSValue)
| OnCustom (cb : nat) (payload : JSValue)
| WorkerReady
| ConsoleWarn (text : string)
| Shutdown.

(** What a handler throws: a [TypeError] of the worker or of the language,
    or whatever a function of the host throws. *)
Inductive Exception : Type :=
| TypeError (message : string)
| Raised (thrown : JSValue).

(** The global functions of the host.  For a function [F] that
    [globalThis] binds to a name, what [new F(message)] followed by the
    assignment of the properties [props], in that order, comes to: the
    object, or what was thrown on the way.  The functions are the host's,
    and so are the objects they make. *)
Inductive Construction : Type :=
| Built (object : JSValue)
| Threw (e : Exception).

Definition GlobalFunction : Type := JSValue -> list (string * JSValue) -> Construction.

Definition Globals : Type := list (string * GlobalFunction).

(** ** The worker object

    The fields of the class, then the two it inherits from
    [WorkerAbstract] and uses ([_resolveWorkerReady], here whether a
    resolver is installed, and [_exitPromise] with the reactions registered
    on it), then the host: handles, promises, timers, clock, total memory,
    the global functions, and the trace. *)

Record WorkerOptions : Type := {
  idleMemoryLimit : option Q;
  maxRetries : Z;
  silent : option bool;
  workerPath : string;
  setupArgs : list JSValue
}.

Record Worker : Type := {
  _options : WorkerOptions;
  state : WorkerStates;
  _child : option nat;
  _request : option Message;
  _retries : option Z;
  _onProcessEnd : option nat;
  _onCustomMessage : option nat;
  _stderrBuffer : list string;
  _memoryUsagePromise : option nat;
  _resolveMemoryUsage : option nat;
  _childIdleMemoryUsage : JSValue;
  _childIdleMemoryUsageLimit : option Q;
  _memoryUsageCheck : bool;
  _resolveWorkerReady : bool;
  _exitPromise : ExitPromise;
  exitReactions : list nat;
  procs : list ChildProcess;
  promises : list PromiseState;
  timers : list Timer;
  nextTimer : nat;
  clock : nat;
  totalmem : Z;
  globalFunctions : Globals;
  trace : list Effect
}.

(** Field assignment [this.f = v], one function per assignable field. *)

Definition set_state (v : WorkerStates) (w : Worker) : Worker :=
  let (f1, f2, f3, f4, f5, f6, f7, f8, f9, f10, f11, f12, f13, f14, f15, f16,
       f17, f18, f19, f20, f21, f22, f23, f24) := w in
  Build_Worker f1 v f3 f4 f5 f6 f7 f8 f9 f10 f11 f12 f13 f14 f15 f16 f17 f18
    f19 f20 f21 f22 f23 f24.

Definition set_child (v : option nat) (w : Worker) : Worker :=
  let (f1, f2, f3, f4, f5, f6, f7, f8, f9, f10, f11, f12, f13, f14, f15, f16,
       f17, f18, f19, f20, f21, f22, f23, f24) := w in
  Build_Worker f1 f2 v f4 f5 f6 f7 f8 f9 f10 f11 f12 f13 f14 f15 f16 f17 f18
    f19 f20 f21 f22 f23 f24.

Definition set_request (v : option Message) (w : Worker) : Worker :=
  let (f1, f2, f3, f4, f5, f6, f7, f8, f9, f10, f11, f12, f13, f14, f15, f16,
       f17, f18, f19, f20, f21, f22, f23, f24) := w in
  Build_Worker f1 f2 f3 v f5 f6 f7 f8 f9 f10 f11 f12 f13 f14 f15 f16 f17 f18
    f19 f20 f21 f22 f23 f24.

Definition set_retries (v : option Z) (w : Worker) : Worker :=
  let (f1, f2, f3, f4, f5, f6, f7, f8, f9, f10, f11, f12, f13, f14, f15, f16,
       f17, f18, f19, f20, f21, f22, f23, f24) := w in
  Build_Worker f1 f2 f3 f4 v f6 f7 f8 f9 f10 f11 f12 f13 f14 f15 f16 f17 f18
    f19 f20 f21 f22 f23 f24.

Definition set_onProcessEnd (v : option nat) (w : Worker) : Worker :=
  let (f1, f2, f3, f4, f5, f6, f7, f8, f9, f10, f11, f12, f13, f14, f15, f16,
       f17, f18, f19, f20, f21, f22, f23, f24) := w in
  Build_Worker f1 f2 f3 f4 f5 v f7 f8 f9 f10 f11 f12 f13 f14 f15 f16 f17 f18
    f19 f20 f21 f22 f23 f24.

Definition set_onCustomMessage (v : option nat) (w : Worker) : Worker :=
  let (f1, f2, f3, f4, f5, f6, f7, f8, f9, f10, f11, f12, f13, f14, f15, f16,
       f17, f18, f19, f20, f21, f22, f23, f24) := w in
  Build_Worker f1 f2 f3 f4 f5 f6 v f8 f9 f10 f11 f12 f13 f14 f15 f16 f17 f18
    f19 f20 f21 f22 f23 f24.

Definition set_stderrBuffer (v : list string) (w : Worker) : Worker :=
  let (f1, f2, f3, f4, f5, f6, f7, f8, f9, f10, f11, f12, f13, f14, f15, f16,
       f17, f18, f19, f20, f21, f22, f23, f24) := w in
  Build_Worker f1 f2 f3 f4 f5 f6 f7 v f9 f10 f11 f12 f13 f14 f15 f16 f17 f18
    f19 f20 f21 f22 f23 f24.

Definition set_memoryUsagePromise (v : option nat) (w : Worker) : Worker :=
  let (f1, f2, f3, f4, f5, f6, f7, f8, f9, f10, f11, f12, f13, f14, f15, f16,
       f17, f18, f19, f20, f21, f22, f23, f24) := w in
  Build_Worker f1 f2 f3 f4 f5 f6 f7 f8 v f10 f11 f12 f13 f14 f15 f16 f17 f18
    f19 f20 f21 f22 f23 f24.

Definition set_resolveMemoryUsage (v : option nat) (w : Worker) : Worker :=
  let (f1, f2, f3, f4, f5, f6, f7, f8, f9, f10, f11, f12, f13, f14, f15, f16,
       f17, f18, f19, f20, f21, f22, f23, f24) := w in
  Build_Worker f1 f2 f3 f4 f5 f6 f7 f8 f9 v f11 f12 f13 f14 f15 f16 f17 f18
    f19 f20 f21 f22 f23 f24.

Definition set_childIdleMemoryUsage (v : JSValue) (w : Worker) : Worker :=
  let (f1, f2, f3, f4, f5, f6, f7, f8, f9, f10, f11, f12, f13, f14, f15, f16,
       f17, f18, f19, f20, f21, f22, f23, f24) := w in
  Build_Worker f1 f2 f3 f4 f5 f6 f7 f8 f9 f10 v f12 f13 f14 f15 f16 f17 f18
    f19 f20 f21 f22 f23 f24.

Definition set_memoryUsageCheck (v : bool) (w : Worker) : Worker :=
  let (f1, f2, f3, f4, f5, f6, f7, f8, f9, f10, f11, f12, f13, f14, f15, f16,
       f17, f18, f19, f20, f21, f22, f23, f24) := w in
  Build_Worker f1 f2 f3 f4 f5 f6 f7 f8 f9 f10 f11 f12 v f14 f15 f16 f17 f18
    f19 f20 f21 f22 f23 f24.

Definition set_resolveWorkerReady (v : bool) (w : Worker) : Worker :=
  let (f1, f2, f3, f4, f5, f6, f7, f8, f9, f10, f11, f12, f13, f14, f15, f16,
       f17, f18, f19, f20, f21, f22, f23, f24) := w in
  Build_Worker f1 f2 f3 f4 f5 f6 f7 f8 f9 f10 f11 f12 f13 v f15 f16 f17 f18
    f19 f20 f21 f22 f23 f24.

Definition set_exitPromise (v : ExitPromise) (w : Worker) : Worker :=
  let (f1, f2, f3, f4, f5, f6, f7, f8, f9, f10, f11, f12, f13, f14, f15, f16,
       f17, f18, f19, f20, f21, f22, f23, f24) := w in
  Build_Worker f1 f2 f3 f4 f5 f6 f7 f8 f9 f10 f11 f12 f13 f14 v f16 f17 f18
    f19 f20 f21 f22 f23 f24.

Definition set_exitReactions (v : list nat) (w : Worker) : Worker :=
  let (f1, f2, f3, f4, f5, f6, f7, f8, f9, f10, f11, f12, f13, f14, f15, f16,
       f17, f18, f19, f20, f21, f22, f23, f24) := w in
  Build_Worker f1 f2 f3 f4 f5 f6 f7 f8 f9 f10 f11 f12 f13 f14 f15 v f17 f18
    f19 f20 f21 f22 f23 f24.

Definition set_procs (v : list ChildProcess) (w : Worker) : Worker :=
  let (f1, f2, f3, f4, f5, f6, f7, f8, f9, f10, f11, f12, f13, f14, f15, f16,
       f17, f18, f19, f20, f21, f22, f23, f24) := w in
  Build_Worker f1 f2 f3 f4 f5 f6 f7 f8 f9 f10 f11 f12 f13 f14 f15 f16 v f18
    f19 f20 f21 f22 f23 f24.

Definition set_promises (v : list PromiseState) (w : Worker) : Worker :=
  let (f1, f2, f3, f4, f5, f6, f7, f8, f9, f10, f11, f12, f13, f14, f15, f16,
       f17, f18, f19, f20, f21, f22, f23, f24) := w in
  Build_Worker f1 f2 f3 f4 f5 f6 f7 f8 f9 f10 f11 f12 f13 f14 f15 f16 f17 v
    f19 f20 f21 f22 f23 f24.

Definition set_timers (v : list Timer) (w : Worker) : Worker :=
  let (f1, f2, f3, f4, f5, f6, f7, f8, f9, f10, f11, f12, f13, f14, f15, f16,
       f17, f18, f19, f20, f21, f22, f23, f24) := w in
  Build_Worker f1 f2 f3 f4 f5 f6 f7 f8 f9 f10 f11 f12 f13 f14 f15 f16 f17 f18
    v f20 f21 f22 f23 f24.

Definition set_nextTimer (v : nat) (w : Worker) : Worker :=
  let (f1, f2, f3, f4, f5, f6, f7, f8, f9, f10, f11, f12, f13, f14, f15, f16,
       f17, f18, f19, f20, f21, f22, f23, f24) := w in
  Build_Worker f1 f2 f3 f4 f5 f6 f7 f8 f9 f10 f11 f12 f13 f14 f15 f16 f17 f18
    f19 v f21 f22 f23 f24.

Definition set_clock (v : nat) (w : Worker) : Worker :=
  let (f1, f2, f3, f4, f5, f6, f7, f8, f9, f10, f11, f12, f13, f14, f15, f16,
       f17, f18, f19, f20, f21, f22, f23, f24) := w in
  Build_Worker f1 f2 f3 f4 f5 f6 f7 f8 f9 f10 f11 f12 f13 f14 f15 f16 f17 f18
    f19 f20 v f22 f23 f24.

Definition set_trace (v : list Effect) (w : Worker) : Worker :=
  let (f1, f2, f3, f4, f5, f6, f7, f8, f9, f10, f11, f12, f13, f14, f15, f16,
       f17, f18, f19, f20, f21, f22, f23, f24) := w in
  Build_Worker f1 f2 f3 f4 f5 f6 f7 f8 f9 f10 f11 f12 f13 f14 f15 f16 f17 f18
    f19 f20 f21 f22 f23 v.

(** ** Actions: state threaded through, exceptions propagated *)

Inductive Outcome (A : Type) : Type :=
| Returned (a : A)
| Thrown (e : Exception).

Arguments Returned {A} a.
Arguments Thrown {A} e.

Definition Action (A : Type) : Type := Worker -> Outcome A * Worker.

Definition ret {A : Type} (a : A) : Action A := fun w => (Returned a, w).

Definition throw {A : Type} (e : Exception) : Action A := fun w => (Thrown e, w).

Definition bind {A B : Type} (c : Action A) (k : A -> Action B) : Action B :=
  fun w =>
    match c w with
    | (Returned a, w') => k a w'
    | (Thrown e, w') => (Thrown e, w')
    end.

Declare Scope action_scope.
Delimit Scope action_scope with action.
Notation "x <- c ;; k" := (bind c (fun x => k))
  (at level 61, c at next level, right associativity) : action_scope.
Notation "c ;; k" := (bind c (fun _ => k))
  (at level 61, right associativity) : action_scope.
Local Open Scope action_scope.

Definition read {A : Type} (f : Worker -> A) : Action A := fun w => (Returned (f w), w).

Definition write (f : Worker -> Worker) : Action unit := fun w => (Returned tt, f w).

Definition when (b : bool) (c : Action unit) : Action unit := if b then c else ret tt.

Definition log (e : Effect) : Action unit :=
  write (fun w => set_trace (trace w ++ [e]) w).

(** ** Host primitives *)

Definition connected_at (ps : list ChildProcess) (c : nat) : bool :=
  match nth_error ps c with
  | Some p => connected p
  | None => false
  end.

(** [c.connected] for a handle [c] *)
Definition child_connected (w : Worker) (c : nat) : bool := connected_at (procs w) c.

(** [this._child.m(...)]: a [TypeError] when no handle was stored yet. *)
Definition this_child (member : string) : Action nat :=
  fun w =>
    match _child w with
    | Some c => (Returned c, w)
    | None =>
        (Thrown (TypeError ("Cannot read properties of undefined (reading '"
                            ++ member ++ "')")%string), w)
    end.

(** [this._child = fork(this._childWorkerPath, [], options)]: a new handle,
    connected, becomes the current child. *)
Definition fork : Action nat :=
  fun w =>
    let c := List.length (procs w) in
    (Returned c,
     set_child (Some c)
       (set_trace (trace w ++ [Fork c])
          (set_procs (procs w ++ [{| connected := true |}]) w))).

Definition kill (c : nat) (s : Signal) : Action unit := log (Kill c s).

Definition send_message (c : nat) (m : Message) : Action unit := log (Send c m).

(** [setTimeout(() => c.kill('SIGKILL'), delay)] *)
Definition setTimeout (c : nat) (delay : nat) : Action nat :=
  fun w =>
    let t := nextTimer w in
    (Returned t,
     set_nextTimer (S t)
       (set_timers (timers w ++ [{| timer_id := t; due := clock w + delay; childToKill := c |}]) w)).

Definition clearTimeout (t : nat) (w : Worker) : Worker :=
  set_timers (filter (fun tm => negb (Nat.eqb (timer_id tm) t)) (timers w)) w.

Fixpoint settle_promise (p : nat) (s : PromiseState) (ps : list PromiseState)
  : list PromiseState :=
  match ps, p with
  | [], _ => []
  | Pending :: rest, O => s :: rest
  | settled :: rest, O => settled :: rest
  | x :: rest, S p' => x :: settle_promise p' s rest
  end.

Definition promise_state (w : Worker) (p : nat) : option PromiseState :=
  nth_error (promises w) p.

(** [bufferStr.includes(needle)] *)
Fixpoint includes (needle hay : string) : bool :=
  if String.prefix needle hay then true
  else match hay with
       | EmptyString => false
       | String _ rest => includes needle rest
       end.

(** *** Numbers

    A number of JavaScript is a double.  A finite one is held as the
    rational it is: the limit, a rational [Q]; the total memory, the exit
    codes, the tags and the usage, which are integers, in [Z]. *)

Inductive Number : Type :=
| Finite (q : Q)
| PlusInfinity
| MinusInfinity
| NaN.

(** [x * 2^k] for [0 <= k], [x] otherwise. *)
Definition scaled (x k : Z) : Z := if Z.leb 0 k then x * 2 ^ k else x.

(** Rounding to the doubles: to 53 significant bits, below [2^-1022] to a
    multiple of [2^-1074]; to the nearest, a tie to the even one.  The
    range of the doubles ends below [2^1024]; see [nearest_double]. *)
Definition round53 (q : Q) : Q :=
  let n := Qnum q in
  let d := Zpos (Qden q) in
  if Z.eqb n 0 then 0
  else
    let a := Z.abs n in
    let e0 := Z.log2 a - Z.log2 d in
    let e := if Z.leb (scaled d e0) (scaled a (- e0)) then e0 else e0 - 1 in
    let s := Z.max (e - 52) (-1074) in
    let num := scaled a (- s) in
    let den := scaled d s in
    let m0 := num / den in
    let r := num mod den in
    let m :=
      if Z.ltb (2 * r) den then m0
      else if Z.ltb den (2 * r) then m0 + 1
      else if Z.even m0 then m0 else m0 + 1 in
    let m := if Z.ltb n 0 then - m else m in
    if Z.leb 0 s then inject_Z (m * 2 ^ s) else Qmake m (Z.to_pos (2 ^ (- s))).

(** The double nearest to a rational; past the largest one, an infinity. *)
Definition nearest_double (q : Q) : Number :=
  let r := round53 q in
  if Qle_bool (inject_Z (2 ^ 1024)) r then PlusInfinity
  else if Qle_bool r (inject_Z (- 2 ^ 1024)) then MinusInfinity
  else Finite r.

(** Whether a rational is a double. *)
Definition is_double (q : Q) : bool :=
  match nearest_double q with
  | Finite r => Qeq_bool r q
  | _ => false
  end.

(** The characters of a string are code units below 256; these are the
    white space and line terminators among them. *)
Definition is_white_space (c : ascii) : bool :=
  existsb (Nat.eqb (nat_of_ascii c)) [9; 10; 11; 12; 13; 32; 160]%nat.

Fixpoint trim_start (s : string) : string :=
  match s with
  | String c rest => if is_white_space c then trim_start rest else s
  | EmptyString => s
  end.

Definition reversed (s : string) : string :=
  string_of_list_ascii (rev (list_ascii_of_string s)).

Definition trim (s : string) : string :=
  reversed (trim_start (reversed (trim_start s))).

Definition digit_value (c : ascii) : option Z :=
  let n := Z.of_nat (nat_of_ascii c) in
  if Z.leb 48 n && Z.leb n 57 then Some (n - 48)
  else if Z.leb 97 n && Z.leb n 102 then Some (n - 87)
  else if Z.leb 65 n && Z.leb n 70 then Some (n - 55)
  else None.

(** The digits in [base] at the start of [s]: their value after [value],
    how many they are after [count], and what follows them. *)
Fixpoint read_digits (base : Z) (s : string) (value : Z) (count : nat)
  : Z * nat * string :=
  match s with
  | String c rest =>
      match digit_value c with
      | Some v =>
          if Z.ltb v base then read_digits base rest (value * base + v) (S count)
          else (value, count, s)
      | None => (value, count, s)
      end
  | EmptyString => (value, count, s)
  end.

Definition integer_literal (base : Z) (s : string) : Number :=
  match read_digits base s 0 0 with
  | (v, S _, EmptyString) => nearest_double (inject_Z v)
  | _ => NaN
  end.

Definition signed (s : string) : bool * string :=
  match s with
  | String "-" rest => (true, rest)
  | String "+" rest => (false, rest)
  | _ => (false, s)
  end.

(** A decimal literal with its sign: digits, a point, digits, an exponent,
    of which the digits before or after the point may be missing, not
    both; or [Infinity]. *)
Definition decimal_literal (s : string) : Number :=
  let (negative, s1) := signed s in
  if String.eqb s1 "Infinity" then (if negative then MinusInfinity else PlusInfinity)
  else
    let '(i, ni, s2) := read_digits 10 s1 0 0 in
    let '(f, nf, s3) :=
      match s2 with
      | String "." rest => read_digits 10 rest 0 0
      | _ => (0, 0%nat, s2)
      end in
    let exponent :=
      match s3 with
      | EmptyString => Some 0
      | String c rest =>
          if Ascii.eqb c "e" || Ascii.eqb c "E" then
            let (down, digits) := signed rest in
            match read_digits 10 digits 0 0 with
            | (x, S _, EmptyString) => Some (if down then - x else x)
            | _ => None
            end
          else None
      end in
    match (ni + nf)%nat, exponent with
    | O, _ | _, None => NaN
    | _, Some x =>
        let mantissa := i * 10 ^ Z.of_nat nf + f in
        let k := x - Z.of_nat nf in
        let q :=
          if Z.leb 0 k then inject_Z (mantissa * 10 ^ k)
          else Qmake mantissa (Z.to_pos (10 ^ (- k))) in
        nearest_double (if negative then - q else q)
    end.

(** [Number(s)] for a string: white space trimmed, then nothing (zero), a
    hexadecimal, octal or binary integer, or a decimal literal; anything
    else is not a number. *)
Definition string_to_number (s : string) : Number :=
  match trim s with
  | EmptyString => Finite 0
  | String "0" (String c rest) as t =>
      if Ascii.eqb c "x" || Ascii.eqb c "X" then integer_literal 16 rest
      else if Ascii.eqb c "o" || Ascii.eqb c "O" then integer_literal 8 rest
      else if Ascii.eqb c "b" || Ascii.eqb c "B" then integer_literal 2 rest
      else decimal_literal t
  | t => decimal_literal t
  end.

(** [Number(v)]: an object is converted by way of its string. *)
Definition to_number (v : JSValue) : Number :=
  match v with
  | JSUndefined => NaN
  | JSNull => Finite 0
  | JSBool true => Finite 1
  | JSBool false => Finite 0
  | JSNumber z => Finite (inject_Z z)
  | JSString s => string_to_number s
  | JSArray _ | JSObject _ | JSErrorObject _ _ => string_to_number (to_string v)
  end.

(** Truthiness of a [number | null] field. *)
Definition truthyQ (l : option Q) : bool :=
  match l with
  | Some q => negb (Qeq_bool q 0)
  | None => false
  end.

Definition truthyZ (l : option Z) : bool :=
  match l with
  | Some z => negb (Z.eqb z 0)
  | None => false
  end.

Definition truthy (v : JSValue) : bool :=
  match v with
  | JSUndefined | JSNull => false
  | JSBool b => b
  | JSNumber z => negb (Z.eqb z 0)
  | JSString s => negb (String.eqb s "")
  | JSArray _ | JSObject _ | JSErrorObject _ _ => true
  end.

(** [usage > limit] for a limit that is a number: the usage is converted
    to a number, and nothing that is not a number is greater. *)
Definition greater_than (usage : JSValue) (limit : Z) : bool :=
  match to_number usage with
  | Finite u => negb (Qle_bool u (inject_Z limit))
  | PlusInfinity => true
  | MinusInfinity | NaN => false
  end.

(** ** The methods of [ChildProcessWorker] *)

(** Modelled from the spec: [_shutdown] is inherited from [WorkerAbstract],
    which is not among the sources.  The spec calls it the final shutdown,
    the point from which [waitForExit()] completes and [forceExit()] sees
    the exit confirmed: it resolves [_exitPromise].  The spec does not say
    that it assigns [state], and none is assigned here. *)
Definition _shutdown : Action unit :=
  log Shutdown ;;
  write (set_exitPromise ExitResolved).

(** The reactions that [forceExit] registered on [_exitPromise],
    [() => clearTimeout(sigkillTimeout)], run once the promise is resolved
    and the handler in progress has returned. *)
Definition run_reactions (w : Worker) : Worker :=
  match _exitPromise w with
  | ExitPending => w
  | ExitResolved =>
      set_exitReactions []
        (fold_left (fun acc t => clearTimeout t acc) (exitReactions w) w)
  end.

Definition killChild : Action nat :=
  childToKill <- this_child "kill" ;;
  kill childToKill SIGTERM ;;
  setTimeout childToKill SIGKILL_DELAY.

Definition forceExit : Action unit :=
  write (set_state SHUTTING_DOWN) ;;
  sigkillTimeout <- killChild ;;
  write (fun w => set_exitReactions (exitReactions w ++ [sigkillTimeout]) w).

Definition checkMemoryUsage : Action unit :=
  limit <- read _childIdleMemoryUsageLimit ;;
  if truthyQ limit then
    write (set_memoryUsageCheck true) ;;
    c <- this_child "send" ;;
    send_message c [JSNumber CHILD_MESSAGE_MEM_USAGE]
  else
    log (ConsoleWarn "Memory usage of workers can only be checked if a limit is set").

(** [!!this._request] *)
Definition is_pending (request : option Message) : bool :=
  match request with
  | Some _ => true
  | None => false
  end.

(** The closure that [send] stores in [_onProcessEnd], around the caller's
    [onProcessEnd] (callback [cb]).  The [OnEnd] effect records the value of
    [_request] the caller's callback finds when it runs. *)
Definition processEnd (cb : nat) (error result : JSValue) : Action unit :=
  hasRequest <- read (fun w => is_pending (_request w)) ;;
  write (set_request None) ;;
  limit <- read _childIdleMemoryUsageLimit ;;
  (if truthyQ limit then
     c <- this_child "connected" ;;
     isConnected <- read (fun w => child_connected w c) ;;
     when (isConnected && hasRequest) checkMemoryUsage
   else ret tt) ;;
  pending <- read _request ;;
  log (OnEnd cb pending error result).

(** [this._onProcessEnd(error, result)] *)
Definition call_onProcessEnd (error result : JSValue) : Action unit :=
  callee <- read _onProcessEnd ;;
  match callee with
  | Some cb => processEnd cb error result
  | None => throw (TypeError "this._onProcessEnd is not a function")
  end.

(** [limit] after the two branches that resolve it: a fraction of the total
    memory for a value in (0,1], the value itself otherwise, both floored.
    The product is a product of doubles: the exact product, rounded to the
    nearest double, is what [Math.floor] receives.  The comparisons with 0
    and 1 and the floor of a double are exact. *)
Definition resolved_limit (total : Z) (limit : option Q) : option Z :=
  match limit with
  | None => None
  | Some l =>
      if truthyQ (Some l) && negb (Qle_bool l 0) && Qle_bool l 1 then
        Some (Qfloor (round53 (inject_Z total * l)))
      else if truthyQ (Some l) then Some (Qfloor l)
      else Some 0
  end.

Definition _performRestartIfRequired : Action unit :=
  check <- read _memoryUsageCheck ;;
  if check then
    write (set_memoryUsageCheck false) ;;
    limit <- read (fun w => resolved_limit (totalmem w) (_childIdleMemoryUsageLimit w)) ;;
    usage <- read _childIdleMemoryUsage ;;
    match limit with
    | Some l =>
        if truthyZ limit && truthy usage && greater_than usage l then
          write (set_state RESTARTING) ;;
          _ <- killChild ;;
          ret tt
        else ret tt
    | None => ret tt
    end
  else ret tt.

(** The function that [globalThis] binds to [name], when it binds one. *)
Fixpoint global_function (name : string) (globals : Globals) : option GlobalFunction :=
  match globals with
  | [] => None
  | (n, F) :: rest => if String.eqb n name then Some F else global_function name rest
  end.

(** [new Error(message)]: an error with [message] converted to a string as
    its own property, unless [message] is [undefined]. *)
Definition standard_error (message : JSValue) : JSValue :=
  JSErrorObject "Error"
    match message with
    | JSUndefined => []
    | _ => [("message", JSString (to_string message))]
    end.

(** The client-error branch up to the call of the completion callback.  A
    fifth element that is not an object is the error as it is.  Otherwise
    the constructor is the global function the second element names, or
    [Error] when it names none; [new Ctor(message)] is followed by the
    assignments of [type], of [stack] and of the enumerable properties of
    the fifth element.  For [Error] the outcome is known; for any other
    global function it is the host's. *)
Definition construction (globals : Globals) (response : Message) : Construction :=
  let extra := at_index response 4 in
  if is_object extra then
    let name := to_string (at_index response 1) in
    let props :=
      ("type", at_index response 1) :: ("stack", at_index response 3)
        :: enumerable extra in
    match (if String.eqb name "Error" then None else global_function name globals) with
    | Some NativeCtor => NativeCtor (at_index response 2) props
    | None =>
        Built (fold_left (fun e kv => assign (fst kv) (snd kv) e) props
                 (standard_error (at_index response 2)))
    end
  else Built extra.

(** Two kinds of global functions of the host.  A class of errors that
    extends the standard one, such as [TypeError]: it constructs as [Error]
    does, under its own name.  A function that is not a constructor, such
    as [Symbol]: [new] throws. *)
Definition error_class (name : string) : GlobalFunction :=
  fun message props =>
    Built (fold_left (fun e kv => assign (fst kv) (snd kv) e) props
             match standard_error message with
             | JSErrorObject _ own => JSErrorObject name own
             | other => other
             end).

Definition not_a_constructor (name : string) : GlobalFunction :=
  fun _ _ => Threw (TypeError (name ++ " is not a constructor")%string).

(** The error the completion callback receives when nothing is thrown. *)
Definition rebuilt_error (globals : Globals) (response : Message) : JSValue :=
  match construction globals response with
  | Built error => error
  | Threw _ => JSUndefined
  end.

Definition setup_error (response : Message) : JSValue :=
  let error :=
    new_Error ("Error when calling setup: " ++ to_string (at_index response 2))%string in
  let error := assign "type" (at_index response 1) error in
  assign "stack" (at_index response 3) error.

Definition _onMessage (response : Message) : Action unit :=
  let tag := at_index response 0 in
  if strict_eq_number tag PARENT_MESSAGE_OK then
    call_onProcessEnd JSNull (at_index response 1)
  else if strict_eq_number tag PARENT_MESSAGE_CLIENT_ERROR then
    globals <- read globalFunctions ;;
    match construction globals response with
    | Built error => call_onProcessEnd error JSNull
    | Threw e => throw e
    end
  else if strict_eq_number tag PARENT_MESSAGE_SETUP_ERROR then
    call_onProcessEnd (setup_error response) JSNull
  else if strict_eq_number tag PARENT_MESSAGE_CUSTOM then
    callee <- read _onCustomMessage ;;
    match callee with
    | Some cb => log (OnCustom cb (at_index response 1))
    | None => throw (TypeError "this._onCustomMessage is not a function")
    end
  else if strict_eq_number tag PARENT_MESSAGE_MEM_USAGE then
    write (set_childIdleMemoryUsage (at_index response 1)) ;;
    resolve <- read _resolveMemoryUsage ;;
    match resolve with
    | Some p =>
        write (fun w => set_promises (settle_promise p (Resolved (at_index response 1)) (promises w)) w) ;;
        write (set_resolveMemoryUsage None) ;;
        write (set_memoryUsagePromise None)
    | None => ret tt
    end ;;
    _performRestartIfRequired
  else
    throw (TypeError ("Unexpected response from worker: " ++ to_string tag)%string).

Definition is_terminal (s : WorkerStates) : bool :=
  match s with
  | OUT_OF_MEMORY | SHUTTING_DOWN | SHUT_DOWN => true
  | _ => false
  end.

Definition retry_limit_message (retries : option Z) : string :=
  ("Jest worker encountered "
     ++ match retries with Some r => string_of_Z r | None => "NaN" end
     ++ " child process exceptions, exceeding retry limit")%string.

(** [this._retries > this._options.maxRetries]; [None] is the [NaN] that
    [undefined++] leaves, and compares false. *)
Definition exceeds (retries : option Z) (limit : Z) : bool :=
  match retries with
  | Some r => Z.gtb r limit
  | None => false
  end.

(** The message [initialize] sends to a new child. *)
Definition initialize_message (opts : WorkerOptions) : Message :=
  [JSNumber CHILD_MESSAGE_INITIALIZE; JSBool false;
   JSString (workerPath opts); JSArray (setupArgs opts)].

(** [this._options.silent ?? true] *)
Definition is_silent (opts : WorkerOptions) : bool :=
  match silent opts with
  | Some b => b
  | None => true
  end.

(** [this._retries++]; [undefined] and [NaN] stay not-a-number. *)
Definition increment (retries : option Z) : option Z :=
  match retries with
  | Some r => Some (r + 1)
  | None => None
  end.

(** The client-error reply [initialize] makes up once the retries exceed
    the limit: the name, message and stack of a new [Error], and
    [{type: 'WorkerError'}]. *)
Definition retry_limit_response (retries : option Z) : Message :=
  let message := retry_limit_message retries in
  [JSNumber PARENT_MESSAGE_CLIENT_ERROR; JSString "Error"; JSString message;
   JSString ("Error: " ++ message)%string;
   JSObject [("type", JSString "WorkerError")]].

(** The output streams merged in [initialize] carry no decision of the
    worker and are left out; so are the environment and the fork options. *)
Definition initialize : Action unit :=
  s <- read state ;;
  if is_terminal s then ret tt
  else
    old <- read _child ;;
    match old with
    | Some c =>
        isConnected <- read (fun w => child_connected w c) ;;
        when isConnected (kill c SIGKILL)
    | None => ret tt
    end ;;
    write (set_state STARTING) ;;
    opts <- read _options ;;
    when (negb (is_silent opts))
      (log (ConsoleWarn "Unable to detect out of memory event if silent === false")) ;;
    write (set_stderrBuffer []) ;;
    c <- fork ;;
    send_message c (initialize_message opts) ;;
    write (fun w => set_retries (increment (_retries w)) w) ;;
    retries <- read _retries ;;
    (if exceeds retries (maxRetries opts) then
       _onMessage (retry_limit_response retries) ;;
       write (set_request None)
     else ret tt) ;;
    write (set_state OK) ;;
    ready <- read _resolveWorkerReady ;;
    when ready (log WorkerReady).

(** The three signatures looked for in the buffered error output.  Chunks
    are held as text; [Buffer.concat] and the decoding do not throw on
    text, so the [catch] branch is never taken. *)
Definition has_oom_signature (buffer : list string) : bool :=
  let bufferStr := String.concat "" buffer in
  includes "heap out of memory" bufferStr
  || includes "allocation failure;" bufferStr
  || includes "Last few GCs" bufferStr.

Definition _detectOutOfMemoryCrash : Action unit :=
  buffer <- read _stderrBuffer ;;
  s <- read state ;;
  when (has_oom_signature buffer)
    (when (WorkerStates_eqb s OK || WorkerStates_eqb s STARTING)
       (write (set_state OUT_OF_MEMORY))).

Definition stderrDataHandler (chunk : string) : Action unit :=
  when (negb (String.eqb chunk ""))
    (write (fun w => set_stderrBuffer (_stderrBuffer w ++ [chunk]) w)) ;;
  _detectOutOfMemoryCrash ;;
  s <- read state ;;
  if WorkerStates_eqb s OUT_OF_MEMORY then
    write (set_resolveWorkerReady false) ;;
    _ <- killChild ;;
    _shutdown
  else ret tt.

Definition _onDisconnect : Action unit :=
  write (set_resolveWorkerReady false) ;;
  _detectOutOfMemoryCrash ;;
  s <- read state ;;
  if WorkerStates_eqb s OUT_OF_MEMORY then
    _ <- killChild ;;
    _shutdown
  else ret tt.

(** [exitCode !== n] for [exitCode : number | null] *)
Definition code_is (exitCode : option Z) (n : Z) : bool :=
  match exitCode with
  | Some z => Z.eqb z n
  | None => false
  end.

Definition is_null (exitCode : option Z) : bool :=
  match exitCode with
  | Some _ => false
  | None => true
  end.

Definition _onExit (exitCode : option Z) : Action unit :=
  write (set_resolveWorkerReady false) ;;
  _detectOutOfMemoryCrash ;;
  s <- read state ;;
  if negb (code_is exitCode 0) && WorkerStates_eqb s OUT_OF_MEMORY then
    call_onProcessEnd (new_Error "Jest worker ran out of memory and crashed") JSNull ;;
    _shutdown
  else if (negb (code_is exitCode 0)
           && negb (is_null exitCode)
           && negb (code_is exitCode SIGTERM_EXIT_CODE)
           && negb (code_is exitCode SIGKILL_EXIT_CODE)
           && negb (WorkerStates_eqb s SHUTTING_DOWN))
          || WorkerStates_eqb s RESTARTING then
    write (set_state RESTARTING) ;;
    initialize ;;
    request <- read _request ;;
    match request with
    | Some r =>
        c <- this_child "send" ;;
        send_message c r
    | None => ret tt
    end
  else _shutdown.

Definition send (request : Message) (onProcessStart onProcessEnd onCustomMessage : nat)
  : Action unit :=
  write (set_stderrBuffer []) ;;
  log (OnStart onProcessStart) ;;
  write (set_onProcessEnd (Some onProcessEnd)) ;;
  write (set_onCustomMessage (Some onCustomMessage)) ;;
  write (set_request (Some request)) ;;
  write (set_retries (Some 0)) ;;
  c <- this_child "send" ;;
  send_message c request.

Definition new_promise : Action nat :=
  fun w => (Returned (List.length (promises w)), set_promises (promises w ++ [Pending]) w).

Definition reject (p : nat) (e : JSValue) : Action unit :=
  write (fun w => set_promises (settle_promise p (Rejected e) (promises w)) w).

Definition getMemoryUsage : Action nat :=
  existing <- read _memoryUsagePromise ;;
  match existing with
  | None =>
      promise <- new_promise ;;
      write (set_resolveMemoryUsage (Some promise)) ;;
      write (set_memoryUsagePromise (Some promise)) ;;
      c <- this_child "connected" ;;
      isConnected <- read (fun w => child_connected w c) ;;
      if negb isConnected then
        reject promise (new_Error "Child process is not running.") ;;
        write (set_memoryUsagePromise None) ;;
        write (set_resolveMemoryUsage None) ;;
        ret promise
      else
        send_message c [JSNumber CHILD_MESSAGE_MEM_USAGE] ;;
        ret promise
  | Some promise => ret promise
  end.

(** The callback [getMemoryUsage] hands to [send], run with a send error. *)
Definition memoryUsageSendFailed (promise : nat) (err : JSValue) : Action unit :=
  when (truthy err)
    (write (set_memoryUsagePromise None) ;;
     write (set_resolveMemoryUsage None) ;;
     reject promise err).

(** [options.idleMemoryLimit || null] *)
Definition or_null (limit : option Q) : option Q :=
  if truthyQ limit then limit else None.

(** [new ChildProcessWorker(options)] on a host with the given total memory
    and global functions. *)
Definition constructor (options : WorkerOptions) (total : Z) (globals : Globals)
  : Outcome unit * Worker :=
  initialize
    {| _options := options; state := STARTING; _child := None; _request := None;
       _retries := None; _onProcessEnd := None; _onCustomMessage := None;
       _stderrBuffer := []; _memoryUsagePromise := None; _resolveMemoryUsage := None;
       _childIdleMemoryUsage := JSNull;
       _childIdleMemoryUsageLimit := or_null (idleMemoryLimit options);
       _memoryUsageCheck := false; _resolveWorkerReady := false;
       _exitPromise := ExitPending; exitReactions := [];
       procs := []; promises := []; timers := []; nextTimer := 0%nat; clock := 0%nat;
       totalmem := total; globalFunctions := globals; trace := [] |}.

(** ** The event loop *)

(** One unit of time passes; the timers that fall due run their callback,
    oldest first, and are gone. *)
Definition tick (w : Worker) : Worker :=
  let now := S (clock w) in
  let fired := filter (fun tm => Nat.leb (due tm) now) (timers w) in
  let waiting := filter (fun tm => negb (Nat.leb (due tm) now)) (timers w) in
  set_trace (trace w ++ map (fun tm => TimerFired (timer_id tm) (childToKill tm)) fired)
    (set_timers waiting (set_clock now w)).

Definition disconnect (c : nat) (w : Worker) : Worker :=
  set_procs
    (firstn c (procs w)
       ++ match nth_error (procs w) c with
          | Some _ => [{| connected := false |}]
          | None => []
          end
       ++ skipn (S c) (procs w)) w.

Inductive Event : Type :=
| CallSend (request : Message) (onProcessStart onProcessEnd onCustomMessage : nat)
| CallInitialize
| CallKillChild
| CallForceExit
| CallGetMemoryUsage
| CallCheckMemoryUsage
| ChildMessage (response : Message)
| ChildStderr (chunk : string)
| ChildDisconnect (c : nat)
| ChildExit (exitCode : option Z)
| SendFailed (promise : nat) (err : JSValue)
| Tick.

Definition handle (ev : Event) : Action unit :=
  match ev with
  | CallSend request onProcessStart onProcessEnd onCustomMessage =>
      send request onProcessStart onProcessEnd onCustomMessage
  | CallInitialize => initialize
  | CallKillChild => _ <- killChild ;; ret tt
  | CallForceExit => forceExit
  | CallGetMemoryUsage => _ <- getMemoryUsage ;; ret tt
  | CallCheckMemoryUsage => checkMemoryUsage
  | ChildMessage response => _onMessage response
  | ChildStderr chunk => stderrDataHandler chunk
  | ChildDisconnect c => write (disconnect c) ;; _onDisconnect
  | ChildExit exitCode => _onExit exitCode
  | SendFailed promise err => memoryUsageSendFailed promise err
  | Tick => write tick
  end.

(** One turn of the loop: the handler, then the queued reactions.  An
    exception leaves the handler where it was thrown. *)
Definition step (ev : Event) : Action unit :=
  fun w =>
    match handle ev w with
    | (Returned tt, w') => (Returned tt, run_reactions w')
    | (Thrown e, w') => (Thrown e, w')
    end.

(** Nothing in the worker catches: the first exception ends the run. *)
Fixpoint run (evs : list Event) : Action unit :=
  match evs with
  | [] => ret tt
  | ev :: rest => step ev ;; run rest
  end.

Definition worker_of (r : Outcome unit * Worker) : Worker := snd r.

(** ** Observations on a trace *)

Definition is_fork (e : Effect) : bool :=
  match e with Fork _ => true | _ => false end.

Definition is_sigterm (c : nat) (e : Effect) : bool :=
  match e with Kill c' SIGTERM => Nat.eqb c' c | _ => false end.

Definition is_timer_fired (t : nat) (e : Effect) : bool :=
  match e with TimerFired t' _ => Nat.eqb t' t | _ => false end.

Definition is_on_end (e : Effect) : bool :=
  match e with OnEnd _ _ _ _ => true | _ => false end.

Definition is_success (e : Effect) : bool :=
  match e with OnEnd _ _ JSNull _ => true | _ => false end.

Definition count (p : Effect -> bool) (t : list Effect) : nat :=
  List.length (filter p t).

(** ** Sample workers *)

Module Examples.

(** A host with one more class of errors and a function that is not a
    constructor. *)
Definition globals : Globals :=
  [("TypeError", error_class "TypeError"); ("Symbol", not_a_constructor "Symbol")].

Definition options : WorkerOptions :=
  {| idleMemoryLimit := Some (1 # 2); maxRetries := 3; silent := None;
     workerPath := "task.js"; setupArgs := [] |}.

(** A worker as the constructor leaves it: one child, nothing pending. *)
Definition idle : Worker :=
  worker_of (constructor options 1000000000 globals).

Definition request_x : Message := [JSObject [("op", JSString "x")]].

(** The same worker with the request sent and not yet answered. *)
Definition busy : Worker := worker_of (run [CallSend request_x 1 2 3] idle).

(** The request answered; the memory check that follows is under way. *)
Definition answered : Worker :=
  worker_of (run [ChildMessage [JSNumber PARENT_MESSAGE_OK; JSString "done"]] busy).

(** The child wrote an out-of-memory diagnostic while the request was
    pending. *)
Definition out_of_memory : Worker :=
  worker_of
    (run [ChildStderr "FATAL ERROR: Reached heap limit Allocation failed - JavaScript heap out of memory"]
       busy).

(** A memory restart is under way (report above the limit, SIGTERM sent)
    when the child writes an out-of-memory diagnostic. *)
Definition restarting_with_diagnostic : Worker :=
  worker_of
    (run [ChildMessage [JSNumber PARENT_MESSAGE_MEM_USAGE; JSNumber 600000000];
          ChildStderr "<--- Last few GCs --->"]
       answered).


(** The request has been failed by the fourth crash in a row. *)
Definition exhausted : Worker :=
  worker_of (run (repeat (ChildExit (Some 1)) 4) busy).

(** A worker configured without an idle-memory limit, its request
    answered. *)
Definition unlimited_options : WorkerOptions :=
  {| idleMemoryLimit := Some (0 # 1); maxRetries := 3; silent := Some false;
     workerPath := "task.js"; setupArgs := [] |}.

Definition unlimited : Worker :=
  worker_of
    (run [CallSend request_x 1 2 3;
          ChildMessage [JSNumber PARENT_MESSAGE_OK; JSString "done"]]
       (worker_of (constructor unlimited_options 1000000000 globals))).

(** The number 0.7: the double nearest to 7/10, which is below it. *)
Definition seven_tenths : Q := 3152519739159347 # 4503599627370496.

Definition seven_tenths_options : WorkerOptions :=
  {| idleMemoryLimit := Some seven_tenths; maxRetries := 3; silent := None;
     workerPath := "task.js"; setupArgs := [] |}.

Definition seven_tenths_answered : Worker :=
  worker_of
    (run [CallSend request_x 1 2 3;
          ChildMessage [JSNumber PARENT_MESSAGE_OK; JSString "done"]]
       (worker_of (constructor seven_tenths_options 1000000000 globals))).

(** A limit so small that its share of the total memory floors to zero. *)
Definition tiny_options : WorkerOptions :=
  {| idleMemoryLimit := Some (1 # 10000000000); maxRetries := 3; silent := None;
     workerPath := "task.js"; setupArgs := [] |}.

Definition tiny_answered : Worker :=
  worker_of
    (run [CallSend request_x 1 2 3;
          ChildMessage [JSNumber PARENT_MESSAGE_OK; JSString "done"]]
       (worker_of (constructor tiny_options 1000000000 globals))).

End Examples.

(** ** Vocabulary of the statements *)

(** The five tags the message handler knows. *)
Definition recognized_tags : list Z :=
  [PARENT_MESSAGE_OK; PARENT_MESSAGE_CLIENT_ERROR; PARENT_MESSAGE_SETUP_ERROR;
   PARENT_MESSAGE_CUSTOM; PARENT_MESSAGE_MEM_USAGE].

Definition recognized (tag : JSValue) : bool :=
  existsb (strict_eq_number tag) recognized_tags.

(** An exit code that is a number, not zero, and not the code of one of
    the two signals the worker sends itself. *)
Definition abnormal (exitCode : option Z) : Prop :=
  exists code,
    exitCode = Some code
    /\ code <> 0 /\ code <> SIGTERM_EXIT_CODE /\ code <> SIGKILL_EXIT_CODE.

(** Whether the detector, run on this worker, leaves it in OUT_OF_MEMORY. *)
Definition oom_flagged (w : Worker) : bool :=
  WorkerStates_eqb (state (snd (_detectOutOfMemoryCrash w))) OUT_OF_MEMORY.

(** [n] exits in a row, each with the same code. *)
Definition crashes (n : nat) (exitCode : option Z) : list Event :=
  repeat (ChildExit exitCode) n.



(** ** Invariants *)

(** [c] keeps [P]: whatever the outcome, also an exception. *)
Definition preserves {A : Type} (P : Worker -> Prop) (c : Action A) : Prop :=
  forall w, P w -> P (snd (c w)).

(** Every pending timer was handed out by [setTimeout]. *)
Definition timers_fresh (w : Worker) : Prop :=
  Forall (fun tm => (timer_id tm < nextTimer w)%nat) (timers w).

(** Every cancellation registered on the exit promise is that of a timer
    [setTimeout] handed out. *)
Definition reactions_fresh (w : Worker) : Prop :=
  Forall (fun r => (r < nextTimer w)%nat) (exitReactions w).

(** What holds of every worker the constructor and the events can produce:
    pending timers carry ids that [setTimeout] handed out, the current child
    is a forked handle, and a pending request has its completion callback
    and a numeric Retry Counter. *)
Definition well_formed (w : Worker) : Prop :=
  timers_fresh w
  /\ (forall c, _child w = Some c -> (c < List.length (procs w))%nat)
  /\ (_request w <> None -> _onProcessEnd w <> None /\ _retries w <> None).

(** What stays true of timer [t], created for handle [c] when the trace was
    [base]: while it is pending it still aims at [c]; whenever it has fired
    since, it called [kill] on [c]; and no handle forked since is [c]. *)
Definition bound_to (t c : nat) (base : list Effect) (w : Worker) : Prop :=
  (t < nextTimer w)%nat
  /\ (c < List.length (procs w))%nat
  /\ Forall (fun tm => (timer_id tm < nextTimer w)%nat
                       /\ (timer_id tm = t -> childToKill tm = c)) (timers w)
  /\ exists added,
       trace w = base ++ added
       /\ (forall c', In (TimerFired t c') added -> c' = c)
       /\ (forall c', In (Fork c') added -> c' <> c).

(** A worker no request was ever sent to: nothing pending, the Retry
    Counter still not a number, ready, nothing buffered, not shut down. *)
Definition unsent (w : Worker) : Prop :=
  _request w = None
  /\ _retries w = None
  /\ state w = OK
  /\ _stderrBuffer w = []
  /\ _exitPromise w = ExitPending
  /\ exists c, _child w = Some c.

(** A ready worker with request [R] pending after [r] respawns, its
    completion callback [cb], and the maximum of retries [m]. *)
Definition retrying (R : Message) (cb : nat) (m r : Z) (w : Worker) : Prop :=
  _request w = Some R
  /\ _retries w = Some r
  /\ _onProcessEnd w = Some cb
  /\ maxRetries (_options w) = m
  /\ state w = OK
  /\ _stderrBuffer w = []
  /\ _exitPromise w = ExitPending
  /\ exists c, _child w = Some c.

(** An exit code that never makes a ready worker respawn: 0, [null], or
    the code of one of the two signals the worker sends. *)
Definition clean_or_self_inflicted (exitCode : option Z) : Prop :=
  exitCode = Some 0 \/ exitCode = None
  \/ exitCode = Some SIGTERM_EXIT_CODE \/ exitCode = Some SIGKILL_EXIT_CODE.


(** The events whose handler may fork a child. *)
Definition may_fork (ev : Event) : bool :=
  match ev with
  | CallInitialize | ChildExit _ => true
  | _ => false
  end.

(** The events whose handler may call the completion callback. *)
Definition may_complete (ev : Event) : bool :=
  match ev with
  | CallInitialize | ChildExit _ | ChildMessage _ => true
  | _ => false
  end.

(** [w] has the children of [w0]: as many forks, as many handles, the same
    current child. *)
Definition same_children (w0 w : Worker) : Prop :=
  count is_fork (trace w) = count is_fork (trace w0)
  /\ List.length (procs w) = List.length (procs w0)
  /\ _child w = _child w0.

(** The completion callback was called as often in [w] as in [w0]. *)
Definition same_completions (w0 w : Worker) : Prop :=
  count is_on_end (trace w) = count is_on_end (trace w0).

(** A worker with no idle-memory limit, and no check of the usage asked
    for. *)
Definition without_limit (w : Worker) : Prop :=
  _childIdleMemoryUsageLimit w = None /\ _memoryUsageCheck w = false.

(** What the calls rely on: a child handle is stored, and once the Retry
    Counter is a number the completion callback is installed. *)
Definition installed (w : Worker) : Prop :=
  (exists c, _child w = Some c)
  /\ (_retries w <> None -> _onProcessEnd w <> None).

(** The events whose handler can throw on a worker the constructor made. *)
Definition may_throw (ev : Event) : bool :=
  match ev with
  | ChildMessage _ | ChildExit _ => true
  | _ => false
  end.

(** How many of the timers [l] carry the id [t]. *)
Definition pending (t : nat) (l : list Timer) : nat :=
  List.length (filter (fun tm => Nat.eqb (timer_id tm) t) l).

(** Timer [t], due at [d], keeps its course from [n0] firings on: nothing
    is registered to cancel it, and it is pending until the clock reaches
    [d] and has fired once from then on. *)
Definition on_course (t d n0 : nat) (w : Worker) : Prop :=
  (t < nextTimer w)%nat
  /\ ~ In t (exitReactions w)
  /\ Forall (fun tm => timer_id tm = t -> due tm = d) (timers w)
  /\ (count (is_timer_fired t) (trace w) + pending t (timers w) = S n0)%nat
  /\ pending t (timers w) = if Nat.leb d (clock w) then 0%nat else 1%nat.

(** The stages of the timer [t] that [forceExit] has created, due at [d],
    counted from [n0] firings.  Registered: pending, its cancellation on
    the exit promise, its time not come.  Fired: gone, its callback run
    once, its time past.  Cancelled: gone without firing, the exit promise
    resolved. *)
Definition registered (t d n0 : nat) (w : Worker) : Prop :=
  In t (exitReactions w)
  /\ pending t (timers w) = 1%nat
  /\ (clock w < d)%nat
  /\ count (is_timer_fired t) (trace w) = n0.

Definition fired_once (t d n0 : nat) (w : Worker) : Prop :=
  pending t (timers w) = 0%nat
  /\ count (is_timer_fired t) (trace w) = S n0
  /\ (d <= clock w)%nat.

Definition cancelled (t n0 : nat) (w : Worker) : Prop :=
  pending t (timers w) = 0%nat
  /\ count (is_timer_fired t) (trace w) = n0
  /\ _exitPromise w = ExitResolved.

Definition escalating (t d n0 : nat) (w : Worker) : Prop :=
  (t < nextTimer w)%nat
  /\ Forall (fun tm => timer_id tm = t -> due tm = d) (timers w)
  /\ (registered t d n0 w \/ fired_once t d n0 w \/ cancelled t n0 w).

(** Timer [t] is gone for good: none is pending under its id, no new one
    will get it, and it has fired [n] times. *)
Definition spent (t n : nat) (w : Worker) : Prop :=
  (t < nextTimer w)%nat
  /\ pending t (timers w) = 0%nat
  /\ count (is_timer_fired t) (trace w) = n.

(** ** Proof tools *)

(** Splits a worker into its fields and replaces the fields the hypotheses
    fix, so that the methods compute. *)
Ltac expose w :=
  destruct w; cbn [_options state _child _request _retries _onProcessEnd
                   _onCustomMessage _stderrBuffer _memoryUsagePromise
                   _resolveMemoryUsage _childIdleMemoryUsage
                   _childIdleMemoryUsageLimit _memoryUsageCheck
                   _resolveWorkerReady _exitPromise exitReactions procs promises
                   timers nextTimer clock totalmem globalFunctions trace] in *;
  subst.

(** Splits a worker into its fields and leaves the hypotheses as they
    are. *)
Ltac unfold_worker w :=
  destruct w;
  cbn [_exitPromise exitReactions timers nextTimer clock trace] in *.

Lemma nth_error_snoc {A : Type} (l : list A) (x : A) :
  nth_error (l ++ [x]) (List.length l) = Some x.
Proof.
  induction l as [|y l IH]; [reflexivity | exact IH].
Qed.

Lemma connected_at_snoc (ps : list ChildProcess) (p : ChildProcess) :
  connected_at (ps ++ [p]) (List.length ps) = connected p.
Proof.
  unfold connected_at. rewrite nth_error_snoc. reflexivity.
Qed.

(** The reply [initialize] makes up names [Error]: its error is built
    whatever the host. *)
Lemma construction_retry_limit (globals : Globals) (retries : option Z) :
  construction globals (retry_limit_response retries)
  = Built (rebuilt_error globals (retry_limit_response retries)).
Proof.
  reflexivity.
Qed.

(** *** Symbolic execution of a method

    [run_in E] works on [E : method w = (o, w')]: it reduces the left-hand
    side at its head, looking through the methods and the monad but not
    into the tests on values, normalises the worker records, and splits on
    the test the execution is stuck on, until the outcome is reached. *)

Ltac head_in E :=
  match type of E with
  | ?t = ?r =>
      let t' :=
        eval lazy head beta iota zeta delta
          [bind ret throw read write when log this_child fork kill send_message
           setTimeout new_promise reject _shutdown killChild forceExit
           checkMemoryUsage processEnd call_onProcessEnd
           _performRestartIfRequired _onMessage initialize
           _detectOutOfMemoryCrash stderrDataHandler _onDisconnect _onExit send
           getMemoryUsage memoryUsageSendFailed
           set_state set_child set_request set_retries set_onProcessEnd
           set_onCustomMessage set_stderrBuffer set_memoryUsagePromise
           set_resolveMemoryUsage set_childIdleMemoryUsage set_memoryUsageCheck
           set_resolveWorkerReady set_exitPromise set_exitReactions set_procs
           set_promises set_timers set_nextTimer set_clock set_trace
           _options state _child _request _retries _onProcessEnd
           _onCustomMessage _stderrBuffer _memoryUsagePromise
           _resolveMemoryUsage _childIdleMemoryUsage _childIdleMemoryUsageLimit
           _memoryUsageCheck _resolveWorkerReady _exitPromise exitReactions
           procs promises timers nextTimer clock totalmem globalFunctions trace
           child_connected promise_state] in t in
      change (t' = r) in E
  end.

Ltac data_at H :=
  unfold child_connected, promise_state in H;
  rewrite ?connected_at_snoc in H;
  cbn
    [set_state set_child set_request set_retries set_onProcessEnd
     set_onCustomMessage set_stderrBuffer set_memoryUsagePromise
     set_resolveMemoryUsage set_childIdleMemoryUsage set_memoryUsageCheck
     set_resolveWorkerReady set_exitPromise set_exitReactions set_procs
     set_promises set_timers set_nextTimer set_clock set_trace
     _options state _child _request _retries _onProcessEnd _onCustomMessage
     _stderrBuffer _memoryUsagePromise _resolveMemoryUsage
     _childIdleMemoryUsage _childIdleMemoryUsageLimit _memoryUsageCheck
     _resolveWorkerReady _exitPromise exitReactions procs promises timers
     nextTimer clock totalmem globalFunctions trace option_map
     andb orb negb WorkerStates_eqb is_terminal is_pending increment
     at_index nth connected] in H;
  rewrite ?andb_false_r, ?andb_true_r, ?orb_false_r, ?orb_true_r in H.

Ltac data :=
  unfold child_connected, promise_state;
  rewrite ?connected_at_snoc;
  cbn
    [set_state set_child set_request set_retries set_onProcessEnd
     set_onCustomMessage set_stderrBuffer set_memoryUsagePromise
     set_resolveMemoryUsage set_childIdleMemoryUsage set_memoryUsageCheck
     set_resolveWorkerReady set_exitPromise set_exitReactions set_procs
     set_promises set_timers set_nextTimer set_clock set_trace
     _options state _child _request _retries _onProcessEnd _onCustomMessage
     _stderrBuffer _memoryUsagePromise _resolveMemoryUsage
     _childIdleMemoryUsage _childIdleMemoryUsageLimit _memoryUsageCheck
     _resolveWorkerReady _exitPromise exitReactions procs promises timers
     nextTimer clock totalmem globalFunctions trace option_map
     andb orb negb WorkerStates_eqb is_terminal is_pending increment
     at_index nth connected];
  rewrite ?andb_false_r, ?andb_true_r, ?orb_false_r, ?orb_true_r.

(** Decides the comparisons of a known tag with the tag constants. *)
Ltac compute_tags E :=
  repeat match type of E with
         | context [strict_eq_number ?v ?n] =>
             let r := eval vm_compute in (strict_eq_number v n) in
             lazymatch r with
             | true => change (strict_eq_number v n) with true in E
             | false => change (strict_eq_number v n) with false in E
             end
         end.

Ltac rewrite_known E :=
  repeat match goal with
         | H : ?l = _ |- _ =>
             lazymatch H with
             | E => fail
             | _ => rewrite H in E
             end
         end.

Ltac split_test b :=
  lazymatch b with
  | negb ?x => split_test x
  | ?x && _ => split_test x
  | ?x || _ => split_test x
  | WorkerStates_eqb ?s _ => is_var s; destruct s
  | is_terminal ?s => is_var s; destruct s
  | _ => destruct b eqn:?
  end.

Ltac run_in E :=
  repeat (progress (head_in E; data_at E; compute_tags E;
                    rewrite ?construction_retry_limit in E; rewrite_known E));
  lazymatch type of E with
  | (_, _) = _ => idtac
  | _ =>
      first
        [ match type of E with
          | context [if ?b then _ else _] => split_test b
          | context [match ?x with Some _ => _ | None => _ end] => destruct x eqn:?
          | context [match ?x with Built _ => _ | Threw _ => _ end] => destruct x eqn:?
          end;
          run_in E
        | idtac ]
  end.

(** Brings [trace0 ++ ... ] to the form [trace0 ++ added]. *)
Ltac close_trace :=
  rewrite <- ?app_assoc; cbn [app]; try reflexivity.

(** ** initialize in a terminal state *)

Lemma initialize_returns_at_once (w : Worker) :
  is_terminal (state w) = true -> initialize w = (Returned tt, w).
Proof.
  intros H. unfold initialize, bind, read. rewrite H. reflexivity.
Qed.

(** C8: when the state is OUT_OF_MEMORY, SHUTTING_DOWN or SHUT_DOWN,
    [initialize()] returns at once and leaves the whole worker as it was:
    no child is forked, the state stays, no field and no table changes. *)
Theorem initialize_terminal_noop (w : Worker) :
  state w = OUT_OF_MEMORY \/ state w = SHUTTING_DOWN \/ state w = SHUT_DOWN ->
  initialize w = (Returned tt, w).
Proof.
  intros H. apply initialize_returns_at_once.
  destruct H as [H | [H | H]]; rewrite H; reflexivity.
Qed.

Lemma initialize_terminal_noop_witness :
  initialize Examples.out_of_memory = (Returned tt, Examples.out_of_memory).
Proof.
  apply initialize_terminal_noop. left. vm_compute. reflexivity.
Defined.

(** ** Unknown message tags *)

(** C9: a message whose tag is none of the five recognized ones makes the
    message handler throw a [TypeError] before it touches the worker, and
    the exception is fatal: no later event is handled, whatever follows. *)
Theorem unknown_tag_is_fatal (w : Worker) (response : Message) (later : list Event) :
  recognized (at_index response 0) = false ->
  let fatal :=
    TypeError ("Unexpected response from worker: " ++ to_string (at_index response 0))%string in
  _onMessage response w = (Thrown fatal, w)
  /\ run (ChildMessage response :: later) w = (Thrown fatal, w).
Proof.
  intros H fatal.
  assert (E : _onMessage response w = (Thrown fatal, w)).
  { unfold recognized, recognized_tags in H. cbn [existsb] in H.
    repeat (apply orb_false_elim in H; destruct H as [? H]).
    unfold _onMessage.
    repeat match goal with
           | E : strict_eq_number _ _ = false |- _ => rewrite E; clear E
           end.
    reflexivity. }
  split; [exact E|].
  cbn [run]. unfold bind, step. cbn [handle]. rewrite E. reflexivity.
Qed.

Lemma unknown_tag_is_fatal_witness :
  _onMessage [JSNumber 7; JSString "?"] Examples.busy
  = (Thrown (TypeError "Unexpected response from worker: 7"), Examples.busy)
  /\ run [ChildMessage [JSNumber 7; JSString "?"]; ChildExit (Some 1); CallInitialize]
       Examples.busy
     = (Thrown (TypeError "Unexpected response from worker: 7"), Examples.busy).
Proof.
  apply (unknown_tag_is_fatal Examples.busy [JSNumber 7; JSString "?"]
           [ChildExit (Some 1); CallInitialize]).
  reflexivity.
Defined.

(** ** Memory usage reports *)

Lemma settle_promise_snoc (l : list PromiseState) (s : PromiseState) :
  settle_promise (List.length l) s (l ++ [Pending]) = l ++ [s].
Proof.
  induction l as [|y l IH]; [reflexivity|].
  cbn. rewrite IH. destruct y; reflexivity.
Qed.




(** ** Terminal responses *)






(** ** The idle-memory limit *)

Lemma truthyQ_configured (L : Q) : ~ L == 0 -> truthyQ (Some L) = true.
Proof.
  intros H. unfold truthyQ. destruct (Qeq_bool L 0) eqn:E; [|reflexivity].
  apply Qeq_bool_iff in E. contradiction.
Qed.

Lemma in_unit_interval_test (L : Q) :
  negb (Qle_bool L 0) && Qle_bool L 1 = true <-> (0 < L /\ L <= 1)%Q.
Proof.
  rewrite andb_true_iff, negb_true_iff, Qle_bool_iff.
  split; intros [H1 H2]; split; try assumption.
  - apply Qnot_le_lt. intros H. apply Qle_bool_iff in H. congruence.
  - destruct (Qle_bool L 0) eqn:E; [|reflexivity].
    apply Qle_bool_iff in E. exfalso. exact (Qlt_not_le _ _ H1 E).
Qed.

Lemma resolved_limit_configured (total : Z) (L : Q) :
  ~ L == 0 ->
  exists limit,
    resolved_limit total (Some L) = Some limit
    /\ ((0 < L /\ L <= 1)%Q -> limit = Qfloor (round53 (inject_Z total * L)))
    /\ (~ (0 < L /\ L <= 1)%Q -> limit = Qfloor L).
Proof.
  intros H. unfold resolved_limit. rewrite (truthyQ_configured L H). cbn [andb].
  destruct (negb (Qle_bool L 0) && Qle_bool L 1) eqn:E.
  - apply in_unit_interval_test in E. eexists; repeat apply conj; [reflexivity | reflexivity | tauto].
  - eexists; repeat apply conj; [reflexivity | | reflexivity].
    intros HI. apply in_unit_interval_test in HI. congruence.
Qed.

Lemma greater_than_number (u limit : Z) :
  greater_than (JSNumber u) limit = Z.ltb limit u.
Proof.
  unfold greater_than, to_number, Qle_bool. cbn [inject_Z Qnum Qden].
  rewrite !Z.mul_1_r. rewrite Z.ltb_antisym. reflexivity.
Qed.

Lemma exceeding_test (limit U : Z) :
  truthyZ (Some limit) && truthy (JSNumber U) && greater_than (JSNumber U) limit = true
  <-> (limit <> 0 /\ U <> 0 /\ limit < U).
Proof.
  rewrite greater_than_number. unfold truthyZ, truthy.
  rewrite !andb_true_iff, !negb_true_iff, !Z.eqb_neq, Z.ltb_lt. tauto.
Qed.

Lemma trace_grew {A : Type} (l : list A) (x : A) : l <> l ++ [x].
Proof.
  intros H. apply (f_equal (@List.length A)) in H.
  rewrite length_app in H. cbn in H. lia.
Qed.

(** C4, as the code has it: for a configured limit [L], a total memory and
    a usage [U] that are numbers of the language, the report arriving
    while a check was requested.  The limit resolves to the floor of the
    product of the total memory by [L], a product of doubles and so the
    nearest double to the exact one, when [L] is in (0,1], and to floor(L)
    otherwise; the check is consumed; the worker enters RESTARTING and
    sends SIGTERM to its child if and only if the resolved limit is not
    zero, U is not zero and U is strictly greater than the resolved limit;
    otherwise state, trace and timers are as before. *)
Theorem restart_decision (w : Worker) (c : nat) (L : Q) (U : Z) :
  is_double L = true ->
  is_double (inject_Z (totalmem w)) = true ->
  is_double (inject_Z U) = true ->
  _memoryUsageCheck w = true ->
  _childIdleMemoryUsageLimit w = Some L ->
  ~ L == 0 ->
  _child w = Some c ->
  exists limit w',
    resolved_limit (totalmem w) (Some L) = Some limit
    /\ ((0 < L /\ L <= 1)%Q -> limit = Qfloor (round53 (inject_Z (totalmem w) * L)))
    /\ (~ (0 < L /\ L <= 1)%Q -> limit = Qfloor L)
    /\ _onMessage [JSNumber PARENT_MESSAGE_MEM_USAGE; JSNumber U] w = (Returned tt, w')
    /\ _memoryUsageCheck w' = false
    /\ ((state w' = RESTARTING /\ trace w' = trace w ++ [Kill c SIGTERM])
        <-> (limit <> 0 /\ U <> 0 /\ limit < U))
    /\ (~ (limit <> 0 /\ U <> 0 /\ limit < U) ->
        state w' = state w /\ trace w' = trace w /\ timers w' = timers w).
Proof.
  intros _ _ _ Hcheck HL Hnz Hc.
  destruct (resolved_limit_configured (totalmem w) L Hnz) as [limit [Hl [Hin Hout]]].
  exists limit.
  destruct (_onMessage [JSNumber PARENT_MESSAGE_MEM_USAGE; JSNumber U] w)
    as [o w'] eqn:E.
  pose proof (exceeding_test limit U) as Hex.
  destruct (truthyZ (Some limit) && truthy (JSNumber U) && greater_than (JSNumber U) limit)
    eqn:Htest.
  - assert (Hyes : limit <> 0 /\ U <> 0 /\ limit < U) by (apply Hex; reflexivity).
    clear Hex. expose w. data.
    run_in E; injection E as <- <-;
      (eexists; repeat apply conj;
       [ exact Hl | exact Hin | exact Hout | reflexivity | reflexivity
       | intros _; exact Hyes
       | intros _; split; reflexivity
       | intros Hno; contradiction ]).
  - assert (Hno : ~ (limit <> 0 /\ U <> 0 /\ limit < U)).
    { intros H. apply Hex in H. discriminate H. }
    clear Hex. expose w. data.
    run_in E; injection E as <- <-;
      (eexists; repeat apply conj;
       [ exact Hl | exact Hin | exact Hout | reflexivity | reflexivity
       | intros [_ Htr]; exfalso; exact (trace_grew _ _ Htr)
       | intros Hyes; contradiction
       | intros _; repeat apply conj; reflexivity ]).
Qed.

(** The scenario of the specification: limit 0.5, a total memory of
    1,000,000,000 bytes; a usage of 600,000,000 restarts, one of
    400,000,000 does not.  And a limit where the rounding of the product
    shows: with 0.7, the double nearest to 7/10 and below it, the product
    with 1,000,000,000 is below 700,000,000 and rounds to it, so the limit
    is 700,000,000 and a usage of 700,000,000 does not restart. *)
Lemma restart_decision_witness :
  (exists w',
      _onMessage [JSNumber PARENT_MESSAGE_MEM_USAGE; JSNumber 600000000] Examples.answered
      = (Returned tt, w')
      /\ state w' = RESTARTING
      /\ trace w' = trace Examples.answered ++ [Kill 0 SIGTERM])
  /\ (exists w',
         _onMessage [JSNumber PARENT_MESSAGE_MEM_USAGE; JSNumber 400000000] Examples.answered
         = (Returned tt, w')
         /\ state w' = state Examples.answered
         /\ trace w' = trace Examples.answered)
  /\ (Qfloor (1000000000 * Examples.seven_tenths) = 699999999
      /\ resolved_limit 1000000000 (Some Examples.seven_tenths) = Some 700000000
      /\ exists w',
           _onMessage [JSNumber PARENT_MESSAGE_MEM_USAGE; JSNumber 700000000]
             Examples.seven_tenths_answered = (Returned tt, w')
           /\ state w' = state Examples.seven_tenths_answered
           /\ trace w' = trace Examples.seven_tenths_answered).
Proof.
  assert (Hnz : ~ (1 # 2) == 0) by (intros H; discriminate H).
  assert (Hnz7 : ~ Examples.seven_tenths == 0) by (intros H; discriminate H).
  assert (Hhalf : is_double (1 # 2) = true) by (vm_compute; reflexivity).
  assert (Hseven : is_double Examples.seven_tenths = true) by (vm_compute; reflexivity).
  assert (Htotal : is_double (inject_Z (totalmem Examples.answered)) = true)
    by (vm_compute; reflexivity).
  assert (Htotal7 : is_double (inject_Z (totalmem Examples.seven_tenths_answered)) = true)
    by (vm_compute; reflexivity).
  assert (H6 : is_double (inject_Z 600000000) = true) by (vm_compute; reflexivity).
  assert (H4 : is_double (inject_Z 400000000) = true) by (vm_compute; reflexivity).
  assert (H7 : is_double (inject_Z 700000000) = true) by (vm_compute; reflexivity).
  repeat apply conj.
  - destruct (restart_decision Examples.answered 0 (1 # 2) 600000000
                Hhalf Htotal H6 eq_refl eq_refl Hnz eq_refl)
      as [limit [w' [Hl [_ [_ [Hm [_ [[_ Hyes] _]]]]]]]].
    vm_compute in Hl. injection Hl as <-.
    exists w'. split; [exact Hm|]. apply Hyes. repeat split; try discriminate.
  - destruct (restart_decision Examples.answered 0 (1 # 2) 400000000
                Hhalf Htotal H4 eq_refl eq_refl Hnz eq_refl)
      as [limit [w' [Hl [_ [_ [Hm [_ [_ Hno]]]]]]]].
    vm_compute in Hl. injection Hl as <-.
    exists w'. split; [exact Hm|].
    destruct Hno as [H1 [H2 _]]; [|split; assumption].
    intros [_ [_ H]]. discriminate H.
  - vm_compute. reflexivity.
  - vm_compute. reflexivity.
  - destruct (restart_decision Examples.seven_tenths_answered 0 Examples.seven_tenths
                700000000 Hseven Htotal7 H7 eq_refl eq_refl Hnz7 eq_refl)
      as [limit [w' [Hl [_ [_ [Hm [_ [_ Hno]]]]]]]].
    vm_compute in Hl. injection Hl as <-.
    exists w'. split; [exact Hm|].
    destruct Hno as [H1 [H2 _]]; [|split; assumption].
    intros [_ [_ H]]. discriminate H.
Defined.

(** C4 as the specification words it does not hold: a limit of 1e-10 of a
    total memory of 1,000,000,000 bytes resolves to 0; a usage of
    600,000,000 is strictly greater and a check was requested, yet the
    worker neither changes state nor signals its child. *)
Lemma tiny_limit_never_restarts :
  _memoryUsageCheck Examples.tiny_answered = true
  /\ _childIdleMemoryUsageLimit Examples.tiny_answered = Some (1 # 10000000000)
  /\ resolved_limit (totalmem Examples.tiny_answered)
       (_childIdleMemoryUsageLimit Examples.tiny_answered) = Some 0
  /\ 0 < 600000000
  /\ exists w',
       _onMessage [JSNumber PARENT_MESSAGE_MEM_USAGE; JSNumber 600000000]
         Examples.tiny_answered = (Returned tt, w')
       /\ state w' = OK
       /\ state w' <> RESTARTING
       /\ trace w' = trace Examples.tiny_answered
       /\ timers w' = [].
Proof.
  repeat apply conj; try (vm_compute; reflexivity).
  eexists. repeat apply conj; try (vm_compute; reflexivity).
  vm_compute. discriminate.
Qed.

(** ** Restart on exceeding the idle-memory limit *)

Ltac count_trace :=
  unfold count; rewrite <- ?app_assoc; rewrite ?filter_app, ?length_app;
  cbn [filter is_fork is_sigterm is_timer_fired is_on_end is_success List.length app];
  rewrite ?Nat.eqb_refl; cbn [List.length]; try lia.




(** ** Out-of-memory crashes *)

Lemma code_is_not_zero (exitCode : option Z) :
  exitCode <> Some 0 -> code_is exitCode 0 = false.
Proof.
  intros H. destruct exitCode as [z|]; [|reflexivity].
  cbn. apply Z.eqb_neq. intros ->. contradiction.
Qed.

Lemma state_clearTimeouts (ts : list nat) (w : Worker) :
  state (fold_left (fun acc t => clearTimeout t acc) ts w) = state w.
Proof.
  revert w. induction ts as [|t ts IH]; intros w; [reflexivity|].
  cbn [fold_left]. rewrite IH. destruct w; reflexivity.
Qed.

Lemma state_run_reactions (w : Worker) : state (run_reactions w) = state w.
Proof.
  unfold run_reactions. destruct (_exitPromise w); [reflexivity|].
  rewrite <- (state_clearTimeouts (exitReactions w) w).
  destruct (fold_left _ _ w); reflexivity.
Qed.

(** C3, as the code has it: when the exit handler runs with an
    out-of-memory signature in the buffered error output, in state OK,
    STARTING or OUT_OF_MEMORY, with an exit code other than 0 and a
    completion callback installed, the worker is in OUT_OF_MEMORY afterwards,
    the completion callback has received the out-of-memory error with the
    request slot already empty, the final shutdown has run, no child was
    forked, and [initialize()] leaves the worker untouched, also after the
    reactions to the exit promise have run. *)
Theorem out_of_memory_exit (w : Worker) (exitCode : option Z) (cb c : nat) :
  has_oom_signature (_stderrBuffer w) = true ->
  state w = OK \/ state w = STARTING \/ state w = OUT_OF_MEMORY ->
  exitCode <> Some 0 ->
  _onProcessEnd w = Some cb ->
  _child w = Some c ->
  exists w',
    _onExit exitCode w = (Returned tt, w')
    /\ state w' = OUT_OF_MEMORY
    /\ _request w' = None
    /\ trace w'
       = trace w
           ++ (if truthyQ (_childIdleMemoryUsageLimit w) && child_connected w c
                  && is_pending (_request w)
               then [Send c [JSNumber CHILD_MESSAGE_MEM_USAGE]] else [])
           ++ [OnEnd cb None (new_Error "Jest worker ran out of memory and crashed") JSNull;
               Shutdown]
    /\ _exitPromise w' = ExitResolved
    /\ procs w' = procs w
    /\ _child w' = Some c
    /\ initialize w' = (Returned tt, w')
    /\ initialize (run_reactions w') = (Returned tt, run_reactions w').
Proof.
  intros Hsig Hstate Hcode Hcb Hc.
  apply code_is_not_zero in Hcode.
  destruct (_onExit exitCode w) as [o w'] eqn:E. expose w. data.
  destruct Hstate as [-> | [-> | ->]];
    (run_in E; injection E as <- <-;
     (eexists; repeat apply conj;
      [ reflexivity | reflexivity | reflexivity
      | data; close_trace
      | reflexivity | reflexivity | reflexivity
      | apply initialize_returns_at_once; reflexivity
      | apply initialize_returns_at_once; rewrite state_run_reactions; reflexivity ])).
Qed.

Lemma out_of_memory_exit_witness :
  exists w',
    _onExit (Some 134) Examples.out_of_memory = (Returned tt, w')
    /\ state w' = OUT_OF_MEMORY
    /\ _request w' = None
    /\ initialize w' = (Returned tt, w').
Proof.
  assert (Hcode : Some 134 <> Some 0) by discriminate.
  destruct (out_of_memory_exit Examples.out_of_memory (Some 134) 2 0
              eq_refl (or_intror (or_intror eq_refl)) Hcode eq_refl eq_refl)
    as [w' [H1 [H2 [H3 [_ [_ [_ [_ [H4 _]]]]]]]]].
  exists w'. auto.
Defined.

(** C3 as the specification words it does not hold.  With the signature in
    the buffer and the state RESTARTING, the exit handler respawns: the
    worker ends in OK with one more child and no shutdown.  With the
    signature in the buffer and exit code 0, the worker shuts down without
    failing the pending request: the slot stays full and the completion
    callback is not called. *)
Lemma signature_does_not_always_retire :
  (has_oom_signature (_stderrBuffer Examples.restarting_with_diagnostic) = true
   /\ state Examples.restarting_with_diagnostic = RESTARTING
   /\ exists w',
        _onExit (Some 134) Examples.restarting_with_diagnostic = (Returned tt, w')
        /\ state w' = OK
        /\ state w' <> OUT_OF_MEMORY
        /\ count is_fork (trace w')
           = S (count is_fork (trace Examples.restarting_with_diagnostic))
        /\ ~ In Shutdown (trace w'))
  /\ (has_oom_signature (_stderrBuffer Examples.out_of_memory) = true
      /\ _request Examples.out_of_memory = Some Examples.request_x
      /\ exists w',
           _onExit (Some 0) Examples.out_of_memory = (Returned tt, w')
           /\ _request w' = Some Examples.request_x
           /\ count is_on_end (trace w') = 0%nat).
Proof.
  split.
  - repeat apply conj; try reflexivity.
    eexists. repeat apply conj; try (vm_compute; reflexivity).
    + vm_compute. discriminate.
    + vm_compute. intuition discriminate.
  - repeat apply conj; try reflexivity.
    eexists. repeat apply conj; vm_compute; reflexivity.
Qed.

(** ** Crashes while a request is pending *)

Lemma abnormal_codes (exitCode : option Z) :
  abnormal exitCode ->
  code_is exitCode 0 = false /\ is_null exitCode = false
  /\ code_is exitCode SIGTERM_EXIT_CODE = false
  /\ code_is exitCode SIGKILL_EXIT_CODE = false.
Proof.
  intros [code [-> [H0 [H1 H2]]]]. unfold code_is, is_null.
  repeat apply conj; try reflexivity; apply Z.eqb_neq; assumption.
Qed.

(** The error the completion callback receives when the retries run out
    is an [Error] whose [type] is ['WorkerError']. *)
Lemma retry_limit_error_type (globals : Globals) (retries : option Z) :
  exists props,
    rebuilt_error globals (retry_limit_response retries) = JSErrorObject "Error" props
    /\ get_prop "type" props = JSString "WorkerError".
Proof.
  eexists. split; reflexivity.
Qed.

(** C1, as the code has it.  An abnormal exit (a code that is a number,
    not 0, not that of SIGTERM or SIGKILL) while request [R] is pending, the
    state is not SHUTTING_DOWN and the detector flags no out-of-memory
    crash, makes the worker fork exactly one new child and increment the
    Retry Counter by one.  While the counter stays within the maximum, [R]
    is sent once to the new child and stays pending.  Once it exceeds the
    maximum, the completion callback receives a client error, the slot is
    emptied and [R] is not sent.  With a limit of 3, the fourth crash in a
    row is the one that delivers the error: four forks, one completion, no
    success. *)
Theorem crash_respawns_and_resends :
  (forall (w : Worker) (R : Message) (exitCode : option Z) (c cb : nat) (r : Z),
      abnormal exitCode ->
      _request w = Some R ->
      state w <> SHUTTING_DOWN ->
      oom_flagged w = false ->
      _child w = Some c ->
      _retries w = Some r ->
      _onProcessEnd w = Some cb ->
      let c' := List.length (procs w) in
      let respawn :=
        (if child_connected w c then [Kill c SIGKILL] else [])
          ++ (if is_silent (_options w) then []
              else [ConsoleWarn "Unable to detect out of memory event if silent === false"])
          ++ [Fork c'; Send c' (initialize_message (_options w))] in
      exists w',
        _onExit exitCode w = (Returned tt, w')
        /\ _retries w' = Some (r + 1)
        /\ _child w' = Some c'
        /\ procs w' = procs w ++ [{| connected := true |}]
        /\ state w' = OK
        /\ _onProcessEnd w' = Some cb
        /\ oom_flagged w' = false
        /\ if exceeds (Some (r + 1)) (maxRetries (_options w)) then
             _request w' = None
             /\ trace w'
                = trace w ++ respawn
                    ++ (if truthyQ (_childIdleMemoryUsageLimit w)
                        then [Send c' [JSNumber CHILD_MESSAGE_MEM_USAGE]] else [])
                    ++ [OnEnd cb None
                          (rebuilt_error (globalFunctions w)
                             (retry_limit_response (Some (r + 1))))
                          JSNull]
           else
             _request w' = Some R
             /\ trace w' = trace w ++ respawn ++ [Send c' R])
  /\ (maxRetries (_options Examples.busy) = 3
      /\ _request Examples.busy = Some Examples.request_x
      /\ (let w3 := worker_of (run (crashes 3 (Some 1)) Examples.busy) in
          _request w3 = Some Examples.request_x
          /\ count is_fork (trace w3) = (count is_fork (trace Examples.busy) + 3)%nat
          /\ count is_on_end (trace w3) = 0%nat)
      /\ (let w4 := worker_of (run (crashes 4 (Some 1)) Examples.busy) in
          _request w4 = None
          /\ _retries w4 = Some 4
          /\ count is_fork (trace w4) = (count is_fork (trace Examples.busy) + 4)%nat
          /\ count is_on_end (trace w4) = 1%nat
          /\ count is_success (trace w4) = 0%nat
          /\ exists props,
               last (trace w4) Shutdown
               = OnEnd 2 None (JSErrorObject "Error" props) JSNull
               /\ get_prop "type" props = JSString "WorkerError")).
Proof.
  split.
  - intros w R exitCode c cb r Hab HR Hstate Hoom Hc Hr Hcb c' respawn.
    subst c' respawn.
    destruct (abnormal_codes exitCode Hab) as [H0 [Hn [Ht Hk]]]. clear Hab.
    destruct (_onExit exitCode w) as [o w'] eqn:E.
    unfold oom_flagged, _detectOutOfMemoryCrash, bind, read, when, write in Hoom.
    expose w. data. data_at Hoom.
    destruct (has_oom_signature _stderrBuffer0) eqn:Hsig;
      destruct state0; try discriminate Hoom; try congruence;
      (run_in E; injection E as <- <-;
       (eexists; repeat apply conj; try reflexivity; data; close_trace)).
  - repeat apply conj; try (vm_compute; reflexivity).
    eexists. split; vm_compute; reflexivity.
Qed.

Lemma crash_respawns_and_resends_witness :
  exists w',
    _onExit (Some 1) Examples.busy = (Returned tt, w')
    /\ _retries w' = Some 1
    /\ _request w' = Some Examples.request_x
    /\ trace w'
       = trace Examples.busy
           ++ [Kill 0 SIGKILL; Fork 1; Send 1 (initialize_message Examples.options);
               Send 1 Examples.request_x].
Proof.
  assert (Hab : abnormal (Some 1)).
  { exists 1. repeat apply conj; [reflexivity | discriminate | discriminate | discriminate]. }
  assert (Hst : state Examples.busy <> SHUTTING_DOWN) by discriminate.
  destruct crash_respawns_and_resends as [H _].
  destruct (H Examples.busy Examples.request_x (Some 1) 0%nat 2%nat 0
              Hab eq_refl Hst eq_refl eq_refl eq_refl eq_refl)
    as [w' [H1 [H2 [_ [_ [_ [_ [_ H3]]]]]]]].
  change (exceeds (Some (0 + 1)) (maxRetries (_options Examples.busy))) with false in H3.
  destruct H3 as [H3 H4].
  exists w'. repeat apply conj; assumption.
Defined.

(** C1 as the specification words it does not hold.  The request is pending
    and the child has written an out-of-memory diagnostic, so the state is
    OUT_OF_MEMORY, not SHUTTING_DOWN; the child exits with code 134.  The
    worker forks no child and does not send the request again: it fails the
    request with the out-of-memory error and shuts down. *)
Lemma out_of_memory_crash_is_not_retried :
  _request Examples.out_of_memory = Some Examples.request_x
  /\ state Examples.out_of_memory = OUT_OF_MEMORY
  /\ state Examples.out_of_memory <> SHUTTING_DOWN
  /\ abnormal (Some 134)
  /\ exists w',
       _onExit (Some 134) Examples.out_of_memory = (Returned tt, w')
       /\ procs w' = procs Examples.out_of_memory
       /\ count is_fork (trace w') = count is_fork (trace Examples.out_of_memory)
       /\ _retries w' = _retries Examples.out_of_memory
       /\ trace w'
          = trace Examples.out_of_memory
              ++ [Send 0 [JSNumber CHILD_MESSAGE_MEM_USAGE];
                  OnEnd 2 None (new_Error "Jest worker ran out of memory and crashed")
                    JSNull;
                  Shutdown].
Proof.
  repeat apply conj; try reflexivity.
  - discriminate.
  - exists 134. repeat apply conj; [reflexivity | discriminate | discriminate | discriminate].
  - eexists. repeat apply conj; vm_compute; reflexivity.
Qed.

(** ** Keeping an invariant through the methods *)

Section Frame.

Context (P : Worker -> Prop).

Lemma preserves_ret {A : Type} (a : A) : preserves P (ret a).
Proof. intros w H. exact H. Qed.

Lemma preserves_throw {A : Type} (e : Exception) : preserves P (@throw A e).
Proof. intros w H. exact H. Qed.

Lemma preserves_read {A : Type} (f : Worker -> A) : preserves P (read f).
Proof. intros w H. exact H. Qed.

Lemma preserves_write (f : Worker -> Worker) :
  (forall w, P w -> P (f w)) -> preserves P (write f).
Proof. intros Hf w H. apply Hf. exact H. Qed.

Lemma preserves_bind {A B : Type} (c : Action A) (k : A -> Action B) :
  preserves P c -> (forall a, preserves P (k a)) -> preserves P (bind c k).
Proof.
  intros Hc Hk w H. unfold bind.
  specialize (Hc w H). destruct (c w) as [[a|e] w']; cbn in Hc.
  - apply Hk. exact Hc.
  - exact Hc.
Qed.

Lemma preserves_this_child (member : string) : preserves P (this_child member).
Proof. intros w H. unfold this_child. destruct (_child w); exact H. Qed.

Lemma preserves_step (ev : Event) :
  preserves P (handle ev) -> (forall w, P w -> P (run_reactions w)) ->
  preserves P (step ev).
Proof.
  intros Hh Hr w H. unfold step.
  specialize (Hh w H). destruct (handle ev w) as [[[]|e] w']; cbn in *; auto.
Qed.

Lemma preserves_run (evs : list Event) :
  (forall ev, preserves P (step ev)) -> preserves P (run evs).
Proof.
  intros Hs. induction evs as [|ev evs IH].
  - apply preserves_ret.
  - cbn [run]. apply preserves_bind; [apply Hs | intros _; exact IH].
Qed.

End Frame.

Create HintDb methods discriminated.

#[local] Hint Unfold when log kill send_message _shutdown killChild forceExit
  checkMemoryUsage processEnd call_onProcessEnd _performRestartIfRequired
  _onMessage initialize _detectOutOfMemoryCrash stderrDataHandler
  _onDisconnect _onExit send getMemoryUsage memoryUsageSendFailed reject
  handle : methods.

(** Walks through a method, leaving the assignments and the host
    primitives to [atom]. *)
Ltac frame_with atom :=
  repeat match goal with
         | |- preserves _ (bind _ _) => apply preserves_bind; [| intros ?]
         | |- preserves _ (ret _) => apply preserves_ret
         | |- preserves _ (throw _) => apply preserves_throw
         | |- preserves _ (read _) => apply preserves_read
         | |- preserves _ (this_child _) => apply preserves_this_child
         | |- preserves _ (if ?b then _ else _) => destruct b
         | |- preserves _ (match ?x with Some _ => _ | None => _ end) => destruct x
         | |- preserves _ (match ?x with Built _ => _ | Threw _ => _ end) => destruct x
         | |- preserves _ _ => atom
         | |- preserves _ _ => progress autounfold with methods
         end.

(** ** The handle a timer is bound to *)

Lemma Forall_filter_keeps {A : Type} (Q : A -> Prop) (f : A -> bool) (l : list A) :
  Forall Q l -> Forall Q (filter f l).
Proof.
  rewrite !Forall_forall. intros H x Hx. apply filter_In in Hx. apply H, Hx.
Qed.

Lemma replaced_length {A : Type} (l : list A) (i : nat) (x : A) :
  List.length
    (firstn i l ++ match nth_error l i with Some _ => [x] | None => [] end
       ++ skipn (S i) l)
  = List.length l.
Proof.
  rewrite !length_app, length_firstn, length_skipn.
  destruct (nth_error l i) eqn:E; cbn [List.length].
  - assert (i < List.length l)%nat by (apply nth_error_Some; congruence). lia.
  - apply nth_error_None in E. lia.
Qed.

Section BoundTo.

Variables (t c : nat) (base : list Effect).

Lemma bound_log (e : Effect) :
  (forall c', e <> TimerFired t c') -> (forall c', e <> Fork c') ->
  preserves (bound_to t c base) (log e).
Proof.
  intros Ht Hf w H. destruct w. unfold bound_to in *. cbn in *.
  destruct H as [H1 [H2 [H3 [added [H4 [H5 H6]]]]]].
  repeat apply conj; try assumption.
  exists (added ++ [e]). subst. rewrite app_assoc.
  repeat apply conj; [reflexivity | |];
    intros c' Hin; apply in_app_or in Hin; destruct Hin as [Hin | [Hin | []]];
    solve [ auto | subst e; exfalso; eapply Ht; reflexivity
          | subst e; exfalso; eapply Hf; reflexivity ].
Qed.

Lemma bound_fork : preserves (bound_to t c base) fork.
Proof.
  intros w H. destruct w. unfold bound_to in *. cbn in *.
  destruct H as [H1 [H2 [H3 [added [H4 [H5 H6]]]]]].
  rewrite length_app. cbn.
  repeat apply conj; try assumption; try lia.
  exists (added ++ [Fork (List.length procs0)]). subst. rewrite app_assoc.
  repeat apply conj; [reflexivity | |];
    intros c' Hin; apply in_app_or in Hin; destruct Hin as [Hin | [Hin | []]];
    auto; try discriminate Hin.
  injection Hin as <-. lia.
Qed.

Lemma bound_setTimeout (c' delay : nat) : preserves (bound_to t c base) (setTimeout c' delay).
Proof.
  intros w H. destruct w. unfold bound_to in *. cbn in *.
  destruct H as [H1 [H2 [H3 H4]]].
  repeat apply conj; try assumption; try lia.
  apply Forall_app. split.
  - eapply Forall_impl; [|exact H3]. cbn. intros tm [Ha Hb]. split; [lia | exact Hb].
  - constructor; [|constructor]. cbn. split; lia.
Qed.

Lemma bound_new_promise : preserves (bound_to t c base) new_promise.
Proof. intros w H. destruct w. exact H. Qed.

Lemma bound_clearTimeout (t' : nat) (w : Worker) : bound_to t c base w -> bound_to t c base (clearTimeout t' w).
Proof.
  intros H. destruct w. unfold bound_to, clearTimeout in *. cbn in *.
  destruct H as [H1 [H2 [H3 H4]]].
  repeat apply conj; try assumption. apply Forall_filter_keeps. exact H3.
Qed.

Lemma bound_run_reactions (w : Worker) : bound_to t c base w -> bound_to t c base (run_reactions w).
Proof.
  intros H. unfold run_reactions. destruct (_exitPromise w); [exact H|].
  assert (Hfold : bound_to t c base (fold_left (fun acc t' => clearTimeout t' acc) (exitReactions w) w)).
  { generalize (exitReactions w). intros l. revert w H.
    induction l as [|t' l IH]; intros w H; [exact H|].
    cbn [fold_left]. apply IH. apply bound_clearTimeout. exact H. }
  destruct (fold_left _ _ w). exact Hfold.
Qed.

Lemma bound_tick (w : Worker) : bound_to t c base w -> bound_to t c base (tick w).
Proof.
  intros H. destruct w. unfold bound_to, tick in *. cbn in *.
  destruct H as [H1 [H2 [H3 [added [H4 [H5 H6]]]]]].
  repeat apply conj; try assumption.
  - apply Forall_filter_keeps. exact H3.
  - eexists. subst. rewrite app_assoc. repeat apply conj; [reflexivity | |];
      intros c' Hin; apply in_app_or in Hin; destruct Hin as [Hin | Hin]; auto.
    + apply in_map_iff in Hin. destruct Hin as [tm [Heq Hin]].
      injection Heq as Hid <-. apply filter_In in Hin. destruct Hin as [Hin _].
      rewrite Forall_forall in H3. apply (H3 tm Hin). exact Hid.
    + apply in_map_iff in Hin. destruct Hin as [tm [Heq _]]. discriminate Heq.
Qed.

Lemma bound_disconnect (c' : nat) (w : Worker) : bound_to t c base w -> bound_to t c base (disconnect c' w).
Proof.
  intros H. destruct w. unfold bound_to, disconnect in *.
  cbn [set_procs procs timers nextTimer trace] in *.
  destruct H as [H1 [H2 [H3 H4]]].
  repeat apply conj; try assumption.
  rewrite replaced_length. exact H2.
Qed.

(** The assignments that touch neither the timers nor the handles nor the
    trace. *)
Ltac bound_atom :=
  first
    [ apply bound_log; intros; discriminate
    | apply bound_fork
    | apply bound_setTimeout
    | apply bound_new_promise
    | apply preserves_write; first
        [ exact bound_tick
        | apply bound_disconnect
        | let w := fresh "w" in
          let H := fresh "H" in
          intros w H; destruct w; exact H ] ].

Lemma bound_handle (ev : Event) : preserves (bound_to t c base) (handle ev).
Proof.
  destruct ev; frame_with bound_atom.
Qed.

Lemma bound_run (evs : list Event) : preserves (bound_to t c base) (run evs).
Proof.
  apply preserves_run. intros ev.
  apply preserves_step; [apply bound_handle | exact bound_run_reactions].
Qed.

End BoundTo.

(** ** Well-formed workers *)

Section WellFormed.

Lemma wf_fork : preserves well_formed fork.
Proof.
  intros w H. destruct w. unfold well_formed, timers_fresh in *. cbn in *.
  destruct H as [H1 [H2 H3]]. repeat apply conj; try assumption.
  intros c' Hc. injection Hc as <-. rewrite length_app. cbn. lia.
Qed.

Lemma wf_setTimeout (c' delay : nat) : preserves well_formed (setTimeout c' delay).
Proof.
  intros w H. destruct w. unfold well_formed, timers_fresh in *. cbn in *.
  destruct H as [H1 [H2 H3]]. repeat apply conj; try assumption.
  apply Forall_app. split.
  - eapply Forall_impl; [|exact H1]. cbn. intros tm Hlt. lia.
  - constructor; [|constructor]. cbn. lia.
Qed.

Lemma wf_new_promise : preserves well_formed new_promise.
Proof. intros w H. destruct w. exact H. Qed.

Lemma wf_clearTimeout (t' : nat) (w : Worker) :
  well_formed w -> well_formed (clearTimeout t' w).
Proof.
  intros H. destruct w. unfold well_formed, timers_fresh, clearTimeout in *. cbn in *.
  destruct H as [H1 [H2 H3]]. repeat apply conj; try assumption.
  apply Forall_filter_keeps. exact H1.
Qed.

Lemma wf_run_reactions (w : Worker) : well_formed w -> well_formed (run_reactions w).
Proof.
  intros H. unfold run_reactions. destruct (_exitPromise w); [exact H|].
  assert (Hfold :
            well_formed (fold_left (fun acc t' => clearTimeout t' acc) (exitReactions w) w)).
  { generalize (exitReactions w). intros l. revert w H.
    induction l as [|t' l IH]; intros w H; [exact H|].
    cbn [fold_left]. apply IH. apply wf_clearTimeout. exact H. }
  destruct (fold_left _ _ w). exact Hfold.
Qed.

Lemma wf_tick (w : Worker) : well_formed w -> well_formed (tick w).
Proof.
  intros H. destruct w. unfold well_formed, timers_fresh, tick in *. cbn in *.
  destruct H as [H1 [H2 H3]]. repeat apply conj; try assumption.
  apply Forall_filter_keeps. exact H1.
Qed.

Lemma wf_disconnect (c' : nat) (w : Worker) : well_formed w -> well_formed (disconnect c' w).
Proof.
  intros H. destruct w. unfold well_formed, timers_fresh, disconnect in *.
  cbn [set_procs procs timers nextTimer _child _request _onProcessEnd _retries] in *.
  destruct H as [H1 [H2 H3]]. repeat apply conj; try assumption.
  intros c0 Hc0. rewrite replaced_length. apply H2. exact Hc0.
Qed.

Lemma wf_clear_request : preserves well_formed (write (set_request None)).
Proof.
  intros w H. destruct w. unfold well_formed in *. cbn in *.
  destruct H as [H1 [H2 H3]]. repeat apply conj; try assumption.
  intros F. contradiction F. reflexivity.
Qed.

Lemma wf_increment :
  preserves well_formed (write (fun w => set_retries (increment (_retries w)) w)).
Proof.
  intros w H. destruct w. unfold well_formed in *. cbn in *.
  destruct H as [H1 [H2 H3]]. repeat apply conj; try assumption.
  intros Hr. destruct (H3 Hr) as [Ha Hb]. split; [exact Ha|].
  destruct _retries0; [discriminate | contradiction Hb; reflexivity].
Qed.

Lemma wf_send (request : Message) (onProcessStart onProcessEnd onCustomMessage : nat) :
  preserves well_formed (send request onProcessStart onProcessEnd onCustomMessage).
Proof.
  intros w H. destruct w. unfold well_formed in *.
  destruct _child0; cbn in *; destruct H as [H1 [H2 H3]];
    (repeat apply conj; [exact H1 | exact H2 | intros _; split; discriminate]).
Qed.

Ltac wf_atom :=
  first
    [ apply wf_send
    | apply wf_fork
    | apply wf_setTimeout
    | apply wf_new_promise
    | apply wf_clear_request
    | apply wf_increment
    | apply preserves_write; first
        [ exact wf_tick
        | apply wf_disconnect
        | let w := fresh "w" in
          let H := fresh "H" in
          intros w H; destruct w; exact H ] ].

Lemma wf_handle (ev : Event) : preserves well_formed (handle ev).
Proof.
  destruct ev; cbn [handle]; frame_with wf_atom.
Qed.

Lemma wf_initialize : preserves well_formed initialize.
Proof.
  exact (wf_handle CallInitialize).
Qed.

(** Every worker the constructor and the events can produce is
    well-formed. *)
Lemma reachable_well_formed
  (options : WorkerOptions) (total : Z) (globals : Globals) (evs : list Event) :
  well_formed (snd (run evs (worker_of (constructor options total globals)))).
Proof.
  apply preserves_run.
  - intros ev. apply preserves_step; [apply wf_handle | exact wf_run_reactions].
  - unfold worker_of, constructor. apply wf_initialize.
    unfold well_formed, timers_fresh. cbn.
    repeat apply conj; [constructor | discriminate | intros F; contradiction F; reflexivity].
Qed.

End WellFormed.

(** ** Counting effects *)

Lemma count_app (p : Effect -> bool) (l1 l2 : list Effect) :
  count p (l1 ++ l2) = (count p l1 + count p l2)%nat.
Proof.
  unfold count. rewrite filter_app, length_app. reflexivity.
Qed.

Lemma count_fired (t : nat) (f : Timer -> bool) (ts : list Timer) :
  count (is_timer_fired t) (map (fun tm => TimerFired (timer_id tm) (childToKill tm)) (filter f ts))
  = List.length (filter (fun tm => Nat.eqb (timer_id tm) t && f tm) ts).
Proof.
  unfold count. induction ts as [|tm ts IH]; [reflexivity|].
  cbn [filter]. destruct (f tm); cbn [map filter is_timer_fired];
    destruct (Nat.eqb (timer_id tm) t); cbn [andb List.length]; rewrite IH; reflexivity.
Qed.

(** ** The forceful signal *)

(** C10: the timer [killChild()] creates remembers the handle that was
    current at the call.  Whatever happens afterwards, respawns included,
    that timer aims at that handle for as long as it is pending, every time
    it has fired it called [kill] on that handle, and no child forked since
    is that handle. *)
Theorem delayed_sigkill_keeps_its_handle (w : Worker) (c : nat) (evs : list Event) :
  _child w = Some c ->
  (c < List.length (procs w))%nat ->
  timers_fresh w ->
  let t := nextTimer w in
  exists w1,
    killChild w = (Returned t, w1)
    /\ In {| timer_id := t; due := clock w + SIGKILL_DELAY; childToKill := c |} (timers w1)
    /\ let w2 := snd (run evs w1) in
       (forall tm, In tm (timers w2) -> timer_id tm = t -> childToKill tm = c)
       /\ exists added,
            trace w2 = trace w1 ++ added
            /\ (forall c', In (TimerFired t c') added -> c' = c)
            /\ (forall c', In (Fork c') added -> c' <> c).
Proof.
  intros Hc Hrange Hfresh t. subst t.
  destruct (killChild w) as [o w1] eqn:E. expose w. data.
  run_in E. injection E as <- <-.
  eexists. split; [reflexivity|]. data.
  split; [apply in_or_app; right; left; reflexivity|].
  match goal with
  | |- context [snd (run evs ?w1)] =>
      pose proof (bound_run nextTimer0 c (trace w1) evs w1) as Hinv;
      set (w2 := snd (run evs w1)) in *
  end.
  cbn [trace] in Hinv |- *.
  destruct Hinv as [_ [_ [Htimers Htrace]]].
  - unfold bound_to. cbn [nextTimer procs timers trace].
    repeat apply conj; [lia | exact Hrange | |].
    + apply Forall_app. split.
      * unfold timers_fresh in Hfresh. cbn [timers nextTimer] in Hfresh.
        eapply Forall_impl; [|exact Hfresh]. cbn. intros tm Hlt. split; lia.
      * constructor; [|constructor]. cbn. split; [lia | reflexivity].
    + exists []. rewrite app_nil_r. repeat apply conj; [reflexivity | |]; intros c' [].
  - split; [|exact Htrace].
    intros tm Hin Hid. rewrite Forall_forall in Htimers.
    apply (Htimers tm Hin). exact Hid.
Qed.

Lemma delayed_sigkill_keeps_its_handle_witness :
  exists w1,
    killChild Examples.idle = (Returned 0%nat, w1)
    /\ In {| timer_id := 0; due := 500; childToKill := 0 |} (timers w1)
    /\ let w2 := snd (run (ChildExit (Some 1) :: repeat Tick 500) w1) in
       (forall tm, In tm (timers w2) -> timer_id tm = 0%nat -> childToKill tm = 0%nat)
       /\ exists added,
            trace w2 = trace w1 ++ added
            /\ (forall c', In (TimerFired 0 c') added -> c' = 0%nat)
            /\ (forall c', In (Fork c') added -> c' <> 0%nat).
Proof.
  assert (Hrange : (0 < List.length (procs Examples.idle))%nat) by (vm_compute; lia).
  assert (Hfresh : timers_fresh Examples.idle) by apply Forall_nil.
  exact (delayed_sigkill_keeps_its_handle Examples.idle 0
           (ChildExit (Some 1) :: repeat Tick 500) eq_refl Hrange Hfresh).
Defined.

Lemma exit_while_shutting_down (w : Worker) (exitCode : option Z) :
  state w = SHUTTING_DOWN ->
  _onExit exitCode w
  = (Returned tt,
     set_exitPromise ExitResolved
       (set_trace (trace w ++ [Shutdown]) (set_resolveWorkerReady false w))).
Proof.
  intros H. destruct (_onExit exitCode w) as [o w'] eqn:E. expose w.
  run_in E; injection E as <- <-; reflexivity.
Qed.

Lemma cleared_timers (ts : list nat) (w : Worker) :
  timers (fold_left (fun acc t => clearTimeout t acc) ts w)
  = filter (fun tm => negb (existsb (Nat.eqb (timer_id tm)) ts)) (timers w).
Proof.
  revert w. induction ts as [|t ts IH]; intros w.
  - cbn. induction (timers w) as [|tm l IHl]; [reflexivity|].
    cbn. rewrite <- IHl. reflexivity.
  - cbn [fold_left]. rewrite IH. destruct w. unfold clearTimeout.
    cbn [set_timers timers]. clear IH.
    induction timers0 as [|tm l IHl]; [reflexivity|].
    cbn [filter existsb]. destruct (Nat.eqb (timer_id tm) t); cbn [negb orb].
    + exact IHl.
    + cbn [filter]. destruct (negb (existsb (Nat.eqb (timer_id tm)) ts)); rewrite IHl; reflexivity.
Qed.

(** * Further properties of the worker *)

(** ** The reactions to the exit promise touch the timers only *)

Lemma clearTimeouts_only_timers (ts : list nat) (w : Worker) :
  fold_left (fun acc t => clearTimeout t acc) ts w
  = set_timers (timers (fold_left (fun acc t => clearTimeout t acc) ts w)) w.
Proof.
  revert w. induction ts as [|t ts IH]; intros w.
  - destruct w. reflexivity.
  - cbn [fold_left]. rewrite IH. destruct w. reflexivity.
Qed.

Lemma run_reactions_form (w : Worker) :
  exists ts rs, run_reactions w = set_exitReactions rs (set_timers ts w).
Proof.
  unfold run_reactions. destruct (_exitPromise w).
  - exists (timers w), (exitReactions w). destruct w. reflexivity.
  - rewrite clearTimeouts_only_timers. eexists. eexists. reflexivity.
Qed.

Lemma run_reactions_pending (w : Worker) :
  _exitPromise w = ExitPending -> run_reactions w = w.
Proof.
  intros H. unfold run_reactions. rewrite H. reflexivity.
Qed.

Lemma run_app (evs1 evs2 : list Event) (w : Worker) :
  run (evs1 ++ evs2) w
  = match run evs1 w with
    | (Returned _, w') => run evs2 w'
    | (Thrown e, w') => (Thrown e, w')
    end.
Proof.
  revert w. induction evs1 as [|ev evs1 IH]; intros w; [reflexivity|].
  cbn [app run]. unfold bind. destruct (step ev w) as [[[]|e] w']; [apply IH | reflexivity].
Qed.

Lemma no_signature_in_empty_buffer : has_oom_signature [] = false.
Proof. reflexivity. Qed.

(** ** Before the first request *)

Lemma unsent_crash (w : Worker) (exitCode : option Z) :
  unsent w ->
  abnormal exitCode ->
  exists w',
    _onExit exitCode w = (Returned tt, w')
    /\ unsent w'
    /\ count is_fork (trace w') = S (count is_fork (trace w))
    /\ count is_on_end (trace w') = count is_on_end (trace w).
Proof.
  intros [Hreq [Hret [Hst [Hbuf [Hexit [c Hc]]]]]] Hab.
  destruct (abnormal_codes exitCode Hab) as [H0 [Hn [Ht Hk]]]. clear Hab.
  pose proof no_signature_in_empty_buffer as Hsig.
  pose proof (eq_refl : exceeds None (maxRetries (_options w)) = false) as Hex.
  destruct (_onExit exitCode w) as [o w'] eqn:E. expose w.
  run_in E; injection E as <- <-;
    (eexists; split; [reflexivity|]; unfold unsent; data;
     repeat apply conj; try reflexivity; try (eexists; reflexivity); count_trace).
Qed.

Lemma unsent_constructed (options : WorkerOptions) (total : Z) (globals : Globals) :
  exists w,
    constructor options total globals = (Returned tt, w)
    /\ unsent w
    /\ count is_fork (trace w) = 1%nat
    /\ count is_on_end (trace w) = 0%nat.
Proof.
  unfold constructor.
  pose proof (eq_refl : exceeds None (maxRetries options) = false) as Hex.
  match goal with
  | |- exists w, initialize ?w0 = _ /\ _ => destruct (initialize w0) as [o w] eqn:E
  end.
  run_in E; injection E as <- <-;
    (eexists; split; [reflexivity|]; unfold unsent; data;
     repeat apply conj; try reflexivity; eexists; reflexivity).
Qed.

(** X1: a worker that was never sent a request respawns without bound.
    Its Retry Counter is not a number, so the retry limit is never seen as
    exceeded: whatever the options, after [n] abnormal exits in a row the
    worker has forked [n] + 1 children in all, has never called a completion
    callback, has thrown nothing and is ready again. *)
Theorem unsent_worker_respawns_without_bound
  (options : WorkerOptions) (total : Z) (globals : Globals)
  (exitCode : option Z) (n : nat) :
  abnormal exitCode ->
  exists w,
    run (crashes n exitCode) (worker_of (constructor options total globals))
    = (Returned tt, w)
    /\ count is_fork (trace w) = S n
    /\ count is_on_end (trace w) = 0%nat
    /\ _retries w = None
    /\ state w = OK.
Proof.
  intros Hab.
  destruct (unsent_constructed options total globals) as [w0 [E0 [Hu [Hf He]]]].
  unfold worker_of. rewrite E0. cbn [snd].
  assert (Hgen : forall k w,
             unsent w ->
             exists w',
               run (crashes k exitCode) w = (Returned tt, w')
               /\ unsent w'
               /\ count is_fork (trace w') = (count is_fork (trace w) + k)%nat
               /\ count is_on_end (trace w') = count is_on_end (trace w)).
  { induction k as [|k IH]; intros w Hw.
    - exists w. cbn. rewrite Nat.add_0_r. auto.
    - destruct (unsent_crash w exitCode Hw Hab) as [w1 [E1 [Hu1 [Hf1 He1]]]].
      destruct (IH w1 Hu1) as [w2 [E2 [Hu2 [Hf2 He2]]]].
      exists w2. cbn [crashes repeat run]. unfold bind, step. cbn [handle].
      rewrite E1. rewrite run_reactions_pending by apply Hu1.
      refine (conj E2 (conj Hu2 (conj _ _))); [lia | congruence]. }
  destruct (Hgen n w0 Hu) as [w [E [Hw [Hfw Hew]]]].
  exists w. repeat apply conj; [exact E | lia | congruence | apply Hw | apply Hw].
Qed.

Lemma unsent_worker_respawns_without_bound_witness :
  exists w,
    run (crashes 10 (Some 1))
      (worker_of (constructor Examples.options 1000000000 Examples.globals))
    = (Returned tt, w)
    /\ count is_fork (trace w) = 11%nat
    /\ count is_on_end (trace w) = 0%nat
    /\ _retries w = None
    /\ state w = OK.
Proof.
  assert (Hab : abnormal (Some 1)).
  { exists 1. repeat apply conj; [reflexivity | discriminate | discriminate | discriminate]. }
  exact (unsent_worker_respawns_without_bound Examples.options 1000000000 Examples.globals
           (Some 1) 10 Hab).
Defined.


(** ** The retry limit *)

Lemma exceeds_iff (r m : Z) : exceeds (Some r) m = true <-> r > m.
Proof.
  unfold exceeds. rewrite Z.gtb_ltb, Z.ltb_lt. lia.
Qed.

Lemma within_limit (r m : Z) : r <= m -> exceeds (Some r) m = false.
Proof.
  intros H. destruct (exceeds (Some r) m) eqn:E; [|reflexivity].
  apply exceeds_iff in E. lia.
Qed.

Lemma beyond_limit (r m : Z) : r > m -> exceeds (Some r) m = true.
Proof.
  intros H. apply exceeds_iff. exact H.
Qed.

Lemma retrying_crash_resends
  (R : Message) (cb : nat) (m r : Z) (w : Worker) (exitCode : option Z) :
  retrying R cb m r w ->
  abnormal exitCode ->
  r + 1 <= m ->
  exists w',
    _onExit exitCode w = (Returned tt, w')
    /\ retrying R cb m (r + 1) w'
    /\ count is_fork (trace w') = S (count is_fork (trace w))
    /\ count is_on_end (trace w') = count is_on_end (trace w)
    /\ count is_success (trace w') = count is_success (trace w)
    /\ last (trace w') Shutdown = Send (List.length (procs w)) R.
Proof.
  intros [Hreq [Hret [Hcb [Hm [Hst [Hbuf [Hexit [c Hc]]]]]]]] Hab Hr.
  destruct (abnormal_codes exitCode Hab) as [H0 [Hn [Ht Hk]]]. clear Hab.
  pose proof no_signature_in_empty_buffer as Hsig.
  pose proof (within_limit (r + 1) (maxRetries (_options w))) as Hex.
  rewrite Hm in Hex. specialize (Hex Hr). rewrite <- Hm in Hex.
  destruct (_onExit exitCode w) as [o w'] eqn:E. expose w.
  run_in E; injection E as <- <-;
    (eexists; split; [reflexivity|]; unfold retrying; data;
     repeat apply conj; try reflexivity; try (eexists; reflexivity);
     try apply last_last; count_trace).
Qed.

Lemma retrying_crash_fails
  (R : Message) (cb : nat) (m r : Z) (w : Worker) (exitCode : option Z) :
  retrying R cb m r w ->
  abnormal exitCode ->
  r + 1 > m ->
  exists w' props,
    _onExit exitCode w = (Returned tt, w')
    /\ _request w' = None
    /\ count is_fork (trace w') = S (count is_fork (trace w))
    /\ count is_on_end (trace w') = S (count is_on_end (trace w))
    /\ count is_success (trace w') = count is_success (trace w)
    /\ last (trace w') Shutdown = OnEnd cb None (JSErrorObject "Error" props) JSNull
    /\ get_prop "type" props = JSString "WorkerError".
Proof.
  intros [Hreq [Hret [Hcb [Hm [Hst [Hbuf [Hexit [c Hc]]]]]]]] Hab Hr.
  destruct (abnormal_codes exitCode Hab) as [H0 [Hn [Ht Hk]]]. clear Hab.
  pose proof no_signature_in_empty_buffer as Hsig.
  pose proof (beyond_limit (r + 1) (maxRetries (_options w))) as Hex.
  rewrite Hm in Hex. specialize (Hex Hr). rewrite <- Hm in Hex.
  destruct (retry_limit_error_type (globalFunctions w) (Some (r + 1)))
    as [props [Herr Htype]].
  destruct (_onExit exitCode w) as [o w'] eqn:E. expose w.
  run_in E; injection E as <- <-;
    (eexists; exists props; split; [reflexivity|]; data;
     repeat apply conj; try reflexivity; try assumption;
     try apply last_last; count_trace).
Qed.

Lemma retrying_crashes
  (R : Message) (cb : nat) (m : Z) (exitCode : option Z) (n : nat) :
  abnormal exitCode ->
  forall (r : Z) (w : Worker),
    retrying R cb m r w ->
    (n <> 0%nat -> r + Z.of_nat n <= m) ->
    exists w',
      run (crashes n exitCode) w = (Returned tt, w')
      /\ retrying R cb m (r + Z.of_nat n) w'
      /\ count is_fork (trace w') = (count is_fork (trace w) + n)%nat
      /\ count is_on_end (trace w') = count is_on_end (trace w)
      /\ count is_success (trace w') = count is_success (trace w).
Proof.
  intros Hab. induction n as [|n IH]; intros r w Hw Hr.
  - exists w. cbn [crashes repeat run]. rewrite Z.add_0_r, Nat.add_0_r.
    refine (conj eq_refl (conj Hw _)). auto.
  - destruct (retrying_crash_resends R cb m r w exitCode Hw Hab ltac:(lia))
      as [w1 [E1 [Hw1 [Hf1 [He1 [Hs1 _]]]]]].
    destruct (IH (r + 1) w1 Hw1 ltac:(lia)) as [w2 [E2 [Hw2 [Hf2 [He2 Hs2]]]]].
    exists w2. cbn [crashes repeat run]. unfold bind, step. cbn [handle].
    rewrite E1. rewrite run_reactions_pending by apply Hw1.
    replace (r + Z.of_nat (S n)) with (r + 1 + Z.of_nat n) by lia.
    refine (conj E2 (conj Hw2 (conj _ (conj _ _)))); [lia | congruence | congruence].
Qed.

Lemma sent_is_retrying
  (w0 : Worker) (R : Message) (onProcessStart cb onCustomMessage c : nat) :
  state w0 = OK ->
  _exitPromise w0 = ExitPending ->
  _child w0 = Some c ->
  exists w,
    step (CallSend R onProcessStart cb onCustomMessage) w0 = (Returned tt, w)
    /\ retrying R cb (maxRetries (_options w0)) 0 w
    /\ count is_fork (trace w) = count is_fork (trace w0)
    /\ count is_on_end (trace w) = count is_on_end (trace w0)
    /\ count is_success (trace w) = count is_success (trace w0).
Proof.
  intros Hst Hexit Hc. unfold step. cbn [handle].
  destruct (send R onProcessStart cb onCustomMessage w0) as [o w] eqn:E. expose w0.
  run_in E. injection E as <- <-.
  rewrite run_reactions_pending by reflexivity.
  eexists. split; [reflexivity|]. unfold retrying. data.
  repeat apply conj; try reflexivity; try (eexists; reflexivity); count_trace.
Qed.

(** X2: the retry storm is bounded by the maximum of retries, whatever
    that maximum is.  After a request is sent to a ready worker, each of the
    first [maxRetries] abnormal exits in a row forks one child, sends the
    request again and completes nothing; the next one forks a child and
    delivers, once, a client error of type ['WorkerError'], never a success,
    and empties the slot. *)
Theorem retry_storm_is_bounded
  (w0 : Worker) (R : Message) (onProcessStart cb onCustomMessage c : nat)
  (exitCode : option Z) :
  state w0 = OK ->
  _exitPromise w0 = ExitPending ->
  _child w0 = Some c ->
  abnormal exitCode ->
  let m := maxRetries (_options w0) in
  let sent := CallSend R onProcessStart cb onCustomMessage in
  (forall n,
      Z.of_nat n <= m ->
      exists w,
        run (sent :: crashes n exitCode) w0 = (Returned tt, w)
        /\ _request w = Some R
        /\ _retries w = Some (Z.of_nat n)
        /\ count is_fork (trace w) = (count is_fork (trace w0) + n)%nat
        /\ count is_on_end (trace w) = count is_on_end (trace w0))
  /\ exists w props,
       run (sent :: crashes (S (Z.to_nat m)) exitCode) w0 = (Returned tt, w)
       /\ _request w = None
       /\ count is_fork (trace w) = (count is_fork (trace w0) + S (Z.to_nat m))%nat
       /\ count is_on_end (trace w) = S (count is_on_end (trace w0))
       /\ count is_success (trace w) = count is_success (trace w0)
       /\ last (trace w) Shutdown = OnEnd cb None (JSErrorObject "Error" props) JSNull
       /\ get_prop "type" props = JSString "WorkerError".
Proof.
  intros Hst Hexit Hc Hab m sent. subst sent.
  destruct (sent_is_retrying w0 R onProcessStart cb onCustomMessage c Hst Hexit Hc)
    as [ws [Es [Hws [Hfs [Hes Hss]]]]].
  fold m in Hws.
  split.
  - intros n Hn.
    destruct (retrying_crashes R cb m exitCode n Hab 0 ws Hws ltac:(lia))
      as [w [E [Hw [Hf [He Hs]]]]].
    exists w. cbn [run]. unfold bind. rewrite Es.
    split; [exact E|]. destruct Hw as [Hreq [Hret _]].
    repeat apply conj; [exact Hreq | exact Hret | lia | congruence].
  - destruct (retrying_crashes R cb m exitCode (Z.to_nat m) Hab 0 ws Hws ltac:(lia))
      as [w [E [Hw [Hf [He Hs]]]]].
    destruct (retrying_crash_fails R cb m (0 + Z.of_nat (Z.to_nat m)) w exitCode
                Hw Hab ltac:(lia))
      as [w' [props [E' [Hreq [Hf' [He' [Hs' [Hlast Htype]]]]]]]].
    exists (run_reactions w'), props.
    destruct (run_reactions_form w') as [ts [rs Hform]].
    assert (Htrace : trace (run_reactions w') = trace w'
                     /\ _request (run_reactions w') = _request w').
    { rewrite Hform. destruct w'. split; reflexivity. }
    destruct Htrace as [Htrace Hrequest]. rewrite Htrace, Hrequest.
    repeat apply conj; try assumption; try lia; try congruence.
    cbn [run]. unfold bind. rewrite Es.
    unfold crashes. cbn [repeat]. rewrite repeat_cons. rewrite run_app.
    fold (crashes (Z.to_nat m) exitCode). rewrite E.
    cbn [run]. unfold bind, step. cbn [handle]. rewrite E'. reflexivity.
Qed.

Lemma retry_storm_is_bounded_witness :
  (exists w,
      run (CallSend Examples.request_x 1 2 3 :: crashes 3 (Some 1)) Examples.idle
      = (Returned tt, w)
      /\ _request w = Some Examples.request_x
      /\ _retries w = Some 3)
  /\ exists w props,
       run (CallSend Examples.request_x 1 2 3 :: crashes 4 (Some 1)) Examples.idle
       = (Returned tt, w)
       /\ _request w = None
       /\ last (trace w) Shutdown = OnEnd 2 None (JSErrorObject "Error" props) JSNull.
Proof.
  assert (Hab : abnormal (Some 1)).
  { exists 1. repeat apply conj; [reflexivity | discriminate | discriminate | discriminate]. }
  destruct (retry_storm_is_bounded Examples.idle Examples.request_x 1 2 3 0 (Some 1)
              eq_refl eq_refl eq_refl Hab) as [Hfirst Hlast].
  split.
  - destruct (Hfirst 3%nat) as [w [E [Hreq [Hret _]]]]; [vm_compute; discriminate|].
    exists w. auto.
  - destruct Hlast as [w [props [E [Hreq [_ [_ [_ [Hl _]]]]]]]].
    exists w, props. auto.
Defined.


(** X3: the completion callback can be called again for a request that
    was already failed.  Once the Retry Counter has passed the maximum it
    keeps counting: every further respawn, by an abnormal exit or by a
    restart the worker asked for, calls the installed completion callback
    once more with a new client error, although no request is pending, and
    so until the next [send] resets the counter. *)
Theorem completion_repeats_after_limit
  (w : Worker) (exitCode : option Z) (cb c : nat) (r : Z) :
  (abnormal exitCode /\ state w <> SHUTTING_DOWN /\ oom_flagged w = false)
  \/ state w = RESTARTING ->
  _request w = None ->
  _child w = Some c ->
  _retries w = Some r ->
  r + 1 > maxRetries (_options w) ->
  _onProcessEnd w = Some cb ->
  exists w' props,
    _onExit exitCode w = (Returned tt, w')
    /\ _retries w' = Some (r + 1)
    /\ _request w' = None
    /\ count is_fork (trace w') = S (count is_fork (trace w))
    /\ count is_on_end (trace w') = S (count is_on_end (trace w))
    /\ last (trace w') Shutdown = OnEnd cb None (JSErrorObject "Error" props) JSNull
    /\ get_prop "type" props = JSString "WorkerError".
Proof.
  intros Hwhy Hreq Hc Hret Hr Hcb.
  pose proof (beyond_limit (r + 1) (maxRetries (_options w)) Hr) as Hex.
  destruct (retry_limit_error_type (globalFunctions w) (Some (r + 1)))
    as [props [Herr Htype]].
  destruct (_onExit exitCode w) as [o w'] eqn:E.
  destruct Hwhy as [[Hab [Hstate Hoom]] | Hstate].
  - destruct (abnormal_codes exitCode Hab) as [H0 [Hn [Ht Hk]]]. clear Hab.
    unfold oom_flagged, _detectOutOfMemoryCrash, bind, read, when, write in Hoom.
    expose w. data. data_at Hoom.
    destruct (has_oom_signature _) eqn:Hsig in Hoom;
      match goal with
      | s : WorkerStates |- _ => destruct s
      end; try discriminate Hoom; try congruence;
      (run_in E; injection E as <- <-;
       (eexists; exists props; split; [reflexivity|]; data;
        repeat apply conj; try reflexivity; try assumption;
        try apply last_last; count_trace)).
  - expose w.
    run_in E; injection E as <- <-;
      (eexists; exists props; split; [reflexivity|]; data;
       repeat apply conj; try reflexivity; try assumption;
       try apply last_last; count_trace).
Qed.

Lemma completion_repeats_after_limit_witness :
  count is_on_end (trace Examples.exhausted) = 1%nat
  /\ exists w' props,
       _onExit (Some 1) Examples.exhausted = (Returned tt, w')
       /\ count is_on_end (trace w') = 2%nat
       /\ last (trace w') Shutdown = OnEnd 2 None (JSErrorObject "Error" props) JSNull.
Proof.
  split; [reflexivity|].
  assert (Hab : abnormal (Some 1)).
  { exists 1. repeat apply conj; [reflexivity | discriminate | discriminate | discriminate]. }
  assert (Hst : state Examples.exhausted <> SHUTTING_DOWN) by discriminate.
  assert (Hr : 4 + 1 > maxRetries (_options Examples.exhausted)) by reflexivity.
  destruct (completion_repeats_after_limit Examples.exhausted (Some 1) 2 4 4
              (or_introl (conj Hab (conj Hst eq_refl))) eq_refl eq_refl eq_refl Hr eq_refl)
    as [w' [props [E [_ [_ [_ [He [Hl _]]]]]]]].
  exists w', props. repeat apply conj; [exact E | exact He | exact Hl].
Defined.


(** ** The error output *)

Lemma prefix_append (needle hay tail : string) :
  String.prefix needle hay = true -> String.prefix needle (hay ++ tail) = true.
Proof.
  revert hay. induction needle as [|a needle IH]; intros hay H;
    [destruct (hay ++ tail)%string; reflexivity|].
  destruct hay as [|b hay]; [discriminate H|].
  cbn in *. destruct (Ascii.ascii_dec a b); [apply IH; exact H | discriminate H].
Qed.

Lemma includes_append (needle hay tail : string) :
  includes needle hay = true -> includes needle (hay ++ tail) = true.
Proof.
  induction hay as [|b hay IH]; intros H.
  - destruct needle; [|discriminate H]. destruct tail; reflexivity.
  - cbn [includes] in H. cbn [String.append includes].
    destruct (String.prefix needle (String b hay)) eqn:E.
    + apply (prefix_append _ _ tail) in E. cbn [String.append] in E. rewrite E. reflexivity.
    + destruct (String.prefix needle (String b (hay ++ tail))); [reflexivity|].
      apply IH. exact H.
Qed.

Lemma includes_prepend (needle head hay : string) :
  includes needle hay = true -> includes needle (head ++ hay) = true.
Proof.
  intros H. induction head as [|b head IH]; [exact H|].
  cbn [String.append includes].
  destruct (String.prefix needle (String b (head ++ hay))); [reflexivity | exact IH].
Qed.

Lemma append_empty (s : string) : (s ++ "")%string = s.
Proof.
  induction s as [|a s IH]; [reflexivity|]. cbn. rewrite IH. reflexivity.
Qed.

Lemma append_associative (s1 s2 s3 : string) :
  ((s1 ++ s2) ++ s3)%string = (s1 ++ s2 ++ s3)%string.
Proof.
  induction s1 as [|a s1 IH]; [reflexivity|]. cbn. rewrite IH. reflexivity.
Qed.

Lemma concat_app (l1 l2 : list string) :
  String.concat "" (l1 ++ l2) = (String.concat "" l1 ++ String.concat "" l2)%string.
Proof.
  induction l1 as [|x l1 IH]; [reflexivity|].
  destruct l1 as [|y l1].
  - destruct l2 as [|z l2]; [cbn; rewrite append_empty |]; reflexivity.
  - change (String.concat "" ((x :: y :: l1) ++ l2))
      with (x ++ String.concat "" ((y :: l1) ++ l2))%string.
    rewrite IH.
    change (String.concat "" (x :: y :: l1))
      with (x ++ String.concat "" (y :: l1))%string.
    rewrite append_associative. reflexivity.
Qed.

Lemma includes_either (needle s1 s2 : string) :
  includes needle s1 || includes needle s2 = true ->
  includes needle (s1 ++ s2) = true.
Proof.
  intros H. apply orb_true_iff in H. destruct H as [H | H];
    [apply includes_append | apply includes_prepend]; exact H.
Qed.

(** X4: the detector looks at everything buffered since the last reset.
    A buffer that holds a signature still holds it after any further chunks,
    and chunks that hold one are seen whatever was buffered before them. *)
Theorem signature_persists (earlier later : list string) :
  has_oom_signature earlier = true \/ has_oom_signature later = true ->
  has_oom_signature (earlier ++ later) = true.
Proof.
  unfold has_oom_signature. rewrite concat_app.
  generalize (String.concat "" earlier) (String.concat "" later).
  intros s1 s2 H.
  pose proof (includes_either "heap out of memory" s1 s2) as H1.
  pose proof (includes_either "allocation failure;" s1 s2) as H2.
  pose proof (includes_either "Last few GCs" s1 s2) as H3.
  cbv zeta in *.
  destruct (includes "heap out of memory" s1), (includes "heap out of memory" s2),
    (includes "allocation failure;" s1), (includes "allocation failure;" s2),
    (includes "Last few GCs" s1), (includes "Last few GCs" s2);
    cbn in *;
    try rewrite H1 by reflexivity; try rewrite H2 by reflexivity;
    try rewrite H3 by reflexivity;
    rewrite ?orb_true_r; try reflexivity;
    destruct H as [H | H]; discriminate H.
Qed.

Lemma signature_persists_witness :
  has_oom_signature (["FATAL ERROR: heap out of memory"] ++ ["more"; "output"]) = true.
Proof.
  apply signature_persists. left. reflexivity.
Defined.

(** X5: what one chunk of the child's error output does.  A chunk that is
    not empty is appended to the buffer.  The worker is then retired when
    it is in OUT_OF_MEMORY already, or when it is in OK or STARTING and the
    buffer holds a signature: it ends in OUT_OF_MEMORY, SIGTERM goes to the
    current child, a SIGKILL timer is created for it and the final shutdown
    runs.  The pending request is neither failed nor cleared by this
    handler, and the completion callback is not called.  In every other
    case the buffer is all that changes. *)
Theorem stderr_chunk (w : Worker) (chunk : string) (c : nat) :
  _child w = Some c ->
  let buffer :=
    if String.eqb chunk "" then _stderrBuffer w else _stderrBuffer w ++ [chunk] in
  let retired :=
    WorkerStates_eqb (state w) OUT_OF_MEMORY
    || has_oom_signature buffer
       && (WorkerStates_eqb (state w) OK || WorkerStates_eqb (state w) STARTING) in
  exists w',
    stderrDataHandler chunk w = (Returned tt, w')
    /\ if retired then
         state w' = OUT_OF_MEMORY
         /\ _stderrBuffer w' = buffer
         /\ trace w' = trace w ++ [Kill c SIGTERM; Shutdown]
         /\ timers w'
            = timers w ++ [{| timer_id := nextTimer w; due := clock w + SIGKILL_DELAY;
                              childToKill := c |}]
         /\ _exitPromise w' = ExitResolved
         /\ exitReactions w' = exitReactions w
         /\ _request w' = _request w
         /\ _retries w' = _retries w
         /\ _child w' = Some c
         /\ procs w' = procs w
       else w' = set_stderrBuffer buffer w.
Proof.
  intros Hc buffer retired. subst buffer retired.
  destruct (stderrDataHandler chunk w) as [o w'] eqn:E.
  destruct (String.eqb chunk "") eqn:Hchunk; expose w;
    run_in E; injection E as <- <-;
    (eexists; split; [reflexivity|]; data;
     repeat match goal with
            | H : has_oom_signature _ = _ |- _ => rewrite H
            end;
     cbn [andb orb];
     repeat apply conj; try reflexivity; close_trace).
Qed.

Lemma stderr_chunk_witness :
  exists w',
    stderrDataHandler "FATAL ERROR: JavaScript heap out of memory" Examples.busy
    = (Returned tt, w')
    /\ state w' = OUT_OF_MEMORY
    /\ trace w' = trace Examples.busy ++ [Kill 0 SIGTERM; Shutdown]
    /\ _request w' = Some Examples.request_x.
Proof.
  destruct (stderr_chunk Examples.busy "FATAL ERROR: JavaScript heap out of memory" 0
              eq_refl) as [w' [E H]].
  exists w'. split; [exact E|].
  change (state w' = OUT_OF_MEMORY
          /\ _stderrBuffer w' = ["FATAL ERROR: JavaScript heap out of memory"]
          /\ trace w' = trace Examples.busy ++ [Kill 0 SIGTERM; Shutdown]
          /\ timers w' = timers Examples.busy
                           ++ [{| timer_id := nextTimer Examples.busy;
                                  due := clock Examples.busy + SIGKILL_DELAY;
                                  childToKill := 0 |}]
          /\ _exitPromise w' = ExitResolved
          /\ exitReactions w' = exitReactions Examples.busy
          /\ _request w' = _request Examples.busy
          /\ _retries w' = _retries Examples.busy
          /\ _child w' = Some 0%nat
          /\ procs w' = procs Examples.busy) in H.
  destruct H as [H1 [_ [H2 [_ [_ [_ [H3 _]]]]]]].
  repeat apply conj; [exact H1 | exact H2 | exact H3].
Defined.

(** X6: what the disconnection of the child does.  The detector runs on
    the error output buffered so far; the worker is retired, as on a chunk
    of error output, when it is in OUT_OF_MEMORY already, or in OK or
    STARTING with a signature in the buffer.  Otherwise nothing changes
    but the readiness resolver: a disconnection alone neither fails the
    pending request nor respawns nor shuts down. *)
Theorem disconnection (w : Worker) (c : nat) :
  _child w = Some c ->
  let retired :=
    WorkerStates_eqb (state w) OUT_OF_MEMORY
    || has_oom_signature (_stderrBuffer w)
       && (WorkerStates_eqb (state w) OK || WorkerStates_eqb (state w) STARTING) in
  exists w',
    _onDisconnect w = (Returned tt, w')
    /\ if retired then
         state w' = OUT_OF_MEMORY
         /\ trace w' = trace w ++ [Kill c SIGTERM; Shutdown]
         /\ timers w'
            = timers w ++ [{| timer_id := nextTimer w; due := clock w + SIGKILL_DELAY;
                              childToKill := c |}]
         /\ _exitPromise w' = ExitResolved
         /\ exitReactions w' = exitReactions w
         /\ _request w' = _request w
         /\ _retries w' = _retries w
         /\ _child w' = Some c
         /\ procs w' = procs w
       else w' = set_resolveWorkerReady false w.
Proof.
  intros Hc retired. subst retired.
  destruct (_onDisconnect w) as [o w'] eqn:E.
  expose w;
    run_in E; injection E as <- <-;
    (eexists; split; [reflexivity|]; data;
     repeat match goal with
            | H : has_oom_signature _ = _ |- _ => rewrite H
            end;
     cbn [andb orb];
     repeat apply conj; try reflexivity; close_trace).
Qed.

Lemma disconnection_witness :
  exists w',
    _onDisconnect Examples.busy = (Returned tt, w')
    /\ w' = set_resolveWorkerReady false Examples.busy
    /\ _request w' = Some Examples.request_x
    /\ trace w' = trace Examples.busy.
Proof.
  destruct (disconnection Examples.busy 0 eq_refl) as [w' [E H]].
  change (w' = set_resolveWorkerReady false Examples.busy) in H.
  exists w'. repeat apply conj; [exact E | exact H | rewrite H; reflexivity
                                | rewrite H; reflexivity].
Defined.

(** ** What the handlers never do *)

Lemma run_keeps (P : Worker -> Prop) (allowed : Event -> bool) :
  (forall ev, allowed ev = true -> preserves P (step ev)) ->
  forall evs, forallb allowed evs = true -> preserves P (run evs).
Proof.
  intros Hs evs. induction evs as [|ev evs IH]; intros Hall.
  - apply preserves_ret.
  - cbn [forallb] in Hall. apply andb_true_iff in Hall. destruct Hall as [Hev Hall].
    cbn [run]. apply preserves_bind; [apply Hs; exact Hev | intros _; apply IH; exact Hall].
Qed.

Lemma trace_run_reactions (w : Worker) : trace (run_reactions w) = trace w.
Proof.
  destruct (run_reactions_form w) as [ts [rs ->]]. destruct w. reflexivity.
Qed.

Lemma procs_run_reactions (w : Worker) : procs (run_reactions w) = procs w.
Proof.
  destruct (run_reactions_form w) as [ts [rs ->]]. destruct w. reflexivity.
Qed.

Lemma child_run_reactions (w : Worker) : _child (run_reactions w) = _child w.
Proof.
  destruct (run_reactions_form w) as [ts [rs ->]]. destruct w. reflexivity.
Qed.

Lemma count_fired_none (p : Effect -> bool) (ts : list Timer) :
  (forall t c, p (TimerFired t c) = false) ->
  count p (map (fun tm => TimerFired (timer_id tm) (childToKill tm)) ts) = 0%nat.
Proof.
  intros Hp. unfold count. induction ts as [|tm ts IH]; [reflexivity|].
  cbn [map filter]. rewrite Hp. exact IH.
Qed.

Lemma same_children_tick (w0 w : Worker) : same_children w0 w -> same_children w0 (tick w).
Proof.
  intros H. unfold same_children, tick in *. expose w. data.
  rewrite count_app, count_fired_none by reflexivity.
  rewrite Nat.add_0_r. exact H.
Qed.

Lemma same_completions_tick (w0 w : Worker) :
  same_completions w0 w -> same_completions w0 (tick w).
Proof.
  intros H. unfold same_completions, tick in *. expose w. data.
  rewrite count_app, count_fired_none by reflexivity.
  rewrite Nat.add_0_r. exact H.
Qed.

Lemma same_children_disconnect (w0 w : Worker) (c : nat) :
  same_children w0 w -> same_children w0 (disconnect c w).
Proof.
  intros H. unfold same_children, disconnect in *. expose w. data.
  rewrite replaced_length. exact H.
Qed.

(** An assignment, or one effect that is not the one counted. *)
Ltac quiet_write :=
  let w := fresh "w" in
  let H := fresh "H" in
  apply preserves_write; intros w H; destruct w;
  unfold same_children, same_completions in *;
  cbn [set_state set_child set_request set_retries set_onProcessEnd
       set_onCustomMessage set_stderrBuffer set_memoryUsagePromise
       set_resolveMemoryUsage set_childIdleMemoryUsage set_memoryUsageCheck
       set_resolveWorkerReady set_exitPromise set_exitReactions set_procs
       set_promises set_timers set_nextTimer set_clock set_trace
       trace procs _child] in *;
  rewrite ?count_app;
  cbn [count filter is_fork is_on_end List.length];
  rewrite ?Nat.add_0_r; exact H.

Ltac quiet_atom :=
  first
    [ apply preserves_write; first
        [ exact (same_children_tick _)
        | exact (same_completions_tick _)
        | let w := fresh "w" in
          let H := fresh "H" in
          intros w H; apply same_children_disconnect; exact H ]
    | match goal with
      | |- preserves _ (setTimeout _ _) =>
          let w := fresh "w" in
          let H := fresh "H" in
          intros w H; destruct w; exact H
      | |- preserves _ new_promise =>
          let w := fresh "w" in
          let H := fresh "H" in
          intros w H; destruct w; exact H
      | |- preserves _ (write _) => quiet_write
      end ].

Lemma handlers_that_do_not_fork (w0 : Worker) (ev : Event) :
  negb (may_fork ev) = true -> preserves (same_children w0) (step ev).
Proof.
  intros Hev. apply preserves_step.
  - destruct ev; try discriminate Hev; cbn [handle]; frame_with quiet_atom.
  - intros w H. unfold same_children in *.
    rewrite trace_run_reactions, procs_run_reactions, child_run_reactions. exact H.
Qed.

Lemma handlers_that_do_not_complete (w0 : Worker) (ev : Event) :
  negb (may_complete ev) = true -> preserves (same_completions w0) (step ev).
Proof.
  intros Hev. apply preserves_step.
  - destruct ev; try discriminate Hev; cbn [handle]; frame_with quiet_atom.
  - intros w H. unfold same_completions in *.
    rewrite trace_run_reactions. exact H.
Qed.

(** X7: children are forked by [initialize] and by the exit handler, and
    by nothing else.  Whatever the calls of [send], [killChild],
    [forceExit], [getMemoryUsage] and [checkMemoryUsage], the messages, the
    error output, the disconnections and the timers, and also when one of
    them throws: no child is forked, the table of handles keeps its length
    and the current child stays the same. *)
Theorem forks_only_on_initialize_and_exit (evs : list Event) (w : Worker) :
  forallb (fun ev => negb (may_fork ev)) evs = true ->
  same_children w (worker_of (run evs w)).
Proof.
  intros Hall. unfold worker_of.
  apply (run_keeps (same_children w) (fun ev => negb (may_fork ev))).
  - intros ev Hev. apply handlers_that_do_not_fork. exact Hev.
  - exact Hall.
  - repeat split.
Qed.

Lemma forks_only_on_initialize_and_exit_witness :
  same_children Examples.busy
    (worker_of
       (run [ChildStderr "FATAL ERROR: heap out of memory"; CallKillChild;
             ChildMessage [JSNumber 99]; ChildDisconnect 0; Tick]
          Examples.busy)).
Proof.
  apply forks_only_on_initialize_and_exit. reflexivity.
Defined.

(** X8: the completion callback is called from the message handler, from
    the exit handler and from [initialize], and from nowhere else: no call
    of [send], [killChild], [forceExit], [getMemoryUsage] or
    [checkMemoryUsage], no error output, disconnection or timer calls it,
    so a request pending before them is still to be completed after
    them. *)
Theorem completion_only_on_message_exit_initialize (evs : list Event) (w : Worker) :
  forallb (fun ev => negb (may_complete ev)) evs = true ->
  same_completions w (worker_of (run evs w)).
Proof.
  intros Hall. unfold worker_of.
  apply (run_keeps (same_completions w) (fun ev => negb (may_complete ev))).
  - intros ev Hev. apply handlers_that_do_not_complete. exact Hev.
  - exact Hall.
  - reflexivity.
Qed.

Lemma completion_only_on_message_exit_initialize_witness :
  same_completions Examples.busy
    (worker_of
       (run [ChildStderr "FATAL ERROR: heap out of memory"; ChildDisconnect 0;
             CallForceExit; CallGetMemoryUsage; Tick]
          Examples.busy)).
Proof.
  apply completion_only_on_message_exit_initialize. reflexivity.
Defined.

(** ** Without an idle-memory limit *)

Lemma without_limit_run_reactions (w : Worker) :
  without_limit w -> without_limit (run_reactions w).
Proof.
  destruct (run_reactions_form w) as [ts [rs ->]]. intros H. destruct w. exact H.
Qed.

(** Where a method reads the limit, it reads [null]. *)
Lemma without_limit_read_limit {A : Type} (k : option Q -> Action A) :
  preserves without_limit (k None) ->
  preserves without_limit (bind (read _childIdleMemoryUsageLimit) k).
Proof.
  intros Hk w H. unfold bind, read. destruct H as [Hl Hc].
  rewrite Hl. apply Hk. split; assumption.
Qed.

Ltac limit_atom :=
  let w := fresh "w" in
  let H := fresh "H" in
  match goal with
  | |- preserves _ (write tick) => intros w H; destruct w; exact H
  | |- preserves _ (write (disconnect _)) => intros w H; destruct w; exact H
  | |- preserves _ (write _) =>
      apply preserves_write; intros w H; destruct w;
      first [ exact H
            | destruct H as [? ?]; split; [assumption | reflexivity] ]
  | |- preserves _ fork => intros w H; destruct w; exact H
  | |- preserves _ (setTimeout _ _) => intros w H; destruct w; exact H
  | |- preserves _ new_promise => intros w H; destruct w; exact H
  end.

Ltac limit_frame :=
  repeat first
    [ apply without_limit_read_limit; cbv beta; cbn [truthyQ]
    | match goal with
      | |- preserves _ (bind _ _) => apply preserves_bind; [| intros ?]
      | |- preserves _ (ret _) => apply preserves_ret
      | |- preserves _ (throw _) => apply preserves_throw
      | |- preserves _ (read _) => apply preserves_read
      | |- preserves _ (this_child _) => apply preserves_this_child
      | |- preserves _ (if ?b then _ else _) => destruct b
      | |- preserves _ (match ?x with Some _ => _ | None => _ end) => destruct x
      | |- preserves _ (match ?x with Built _ => _ | Threw _ => _ end) => destruct x
      | |- preserves _ _ => limit_atom
      | |- preserves _ _ => progress autounfold with methods
      end ].

Lemma without_limit_handle (ev : Event) : preserves without_limit (handle ev).
Proof.
  destruct ev; cbn [handle]; limit_frame.
Qed.

Lemma without_limit_constructed (options : WorkerOptions) (total : Z) (globals : Globals) :
  truthyQ (idleMemoryLimit options) = false ->
  without_limit (worker_of (constructor options total globals)).
Proof.
  intros H. unfold worker_of, constructor.
  apply (without_limit_handle CallInitialize).
  unfold without_limit, or_null. rewrite H. split; reflexivity.
Qed.

(** X9: a worker constructed without an idle-memory limit ([undefined] or
    0 in the options) never restarts its child for memory.  Whatever
    happens to it, the limit stays [null] and no check is ever pending; a
    usage report, whatever the usage, is recorded and changes neither the
    state nor the timers nor the trace, so no signal is sent; and
    [checkMemoryUsage()] only prints its warning and asks the child
    nothing. *)
Theorem no_limit_no_memory_restart
  (options : WorkerOptions) (total : Z) (globals : Globals) (evs : list Event) :
  truthyQ (idleMemoryLimit options) = false ->
  let w := worker_of (run evs (worker_of (constructor options total globals))) in
  without_limit w
  /\ (forall usage, exists w',
         _onMessage [JSNumber PARENT_MESSAGE_MEM_USAGE; usage] w = (Returned tt, w')
         /\ _childIdleMemoryUsage w' = usage
         /\ state w' = state w
         /\ timers w' = timers w
         /\ trace w' = trace w)
  /\ exists w',
       checkMemoryUsage w = (Returned tt, w')
       /\ without_limit w'
       /\ trace w'
          = trace w
              ++ [ConsoleWarn "Memory usage of workers can only be checked if a limit is set"].
Proof.
  intros Hopt w.
  assert (Hw : without_limit w).
  { subst w. unfold worker_of at 1. apply preserves_run.
    - intros ev. apply preserves_step;
        [apply without_limit_handle | exact without_limit_run_reactions].
    - apply without_limit_constructed. exact Hopt. }
  clearbody w. split; [exact Hw|].
  destruct Hw as [Hl Hc]. split.
  - intros usage.
    destruct (_onMessage [JSNumber PARENT_MESSAGE_MEM_USAGE; usage] w) as [o w'] eqn:E.
    expose w. run_in E; injection E as <- <-;
      (eexists; repeat apply conj; reflexivity).
  - destruct (checkMemoryUsage w) as [o w'] eqn:E.
    pose proof (eq_refl : truthyQ None = false) as Hq.
    expose w. run_in E; injection E as <- <-.
    eexists. repeat apply conj; reflexivity.
Qed.

Lemma no_limit_no_memory_restart_witness :
  without_limit Examples.unlimited
  /\ exists w',
       _onMessage [JSNumber PARENT_MESSAGE_MEM_USAGE; JSNumber 999999999999]
         Examples.unlimited = (Returned tt, w')
       /\ state w' = state Examples.unlimited
       /\ trace w' = trace Examples.unlimited.
Proof.
  destruct (no_limit_no_memory_restart Examples.unlimited_options 1000000000 Examples.globals
              [CallSend Examples.request_x 1 2 3;
               ChildMessage [JSNumber PARENT_MESSAGE_OK; JSString "done"]]
              eq_refl) as [Hw [Hm _]].
  split; [exact Hw|].
  destruct (Hm (JSNumber 999999999999)) as [w' [E [_ [Hs [_ Ht]]]]].
  exists w'. repeat apply conj; [exact E | exact Hs | exact Ht].
Defined.

(** ** The error rebuilt from a client-error message *)















(** ** A usage request the child could not be sent *)

Lemma nth_error_before_last {A : Type} (l : list A) (x y : A) :
  nth_error ((l ++ [x]) ++ [y]) (List.length l) = Some x.
Proof.
  rewrite nth_error_app1 by (rewrite length_app; cbn [List.length]; lia).
  apply nth_error_snoc.
Qed.

Lemma nth_error_after_snoc {A : Type} (l : list A) (x y : A) :
  nth_error ((l ++ [x]) ++ [y]) (S (List.length l)) = Some y.
Proof.
  replace (S (List.length l)) with (List.length (l ++ [x]))
    by (rewrite length_app; cbn [List.length]; lia).
  apply nth_error_snoc.
Qed.

(** X11: when the request for the memory usage could not be sent, its
    callback rejects the future with the send error and forgets it, so
    that the next [getMemoryUsage()] makes a new future and asks the child
    again; a callback without an error changes nothing. *)
Theorem failed_usage_request_is_forgotten (w : Worker) (c : nat) (err : JSValue) :
  _memoryUsagePromise w = None ->
  _child w = Some c ->
  child_connected w c = true ->
  let p := List.length (promises w) in
  exists w1 w2 w3,
    getMemoryUsage w = (Returned p, w1)
    /\ memoryUsageSendFailed p err w1 = (Returned tt, w2)
    /\ getMemoryUsage w2 = (Returned (if truthy err then S p else p), w3)
    /\ if truthy err then
         promise_state w2 p = Some (Rejected err)
         /\ _memoryUsagePromise w2 = None
         /\ _resolveMemoryUsage w2 = None
         /\ promise_state w3 p = Some (Rejected err)
         /\ promise_state w3 (S p) = Some Pending
         /\ _resolveMemoryUsage w3 = Some (S p)
         /\ trace w3
            = trace w ++ [Send c [JSNumber CHILD_MESSAGE_MEM_USAGE];
                          Send c [JSNumber CHILD_MESSAGE_MEM_USAGE]]
       else
         w2 = w1 /\ w3 = w1
         /\ promise_state w1 p = Some Pending
         /\ trace w1 = trace w ++ [Send c [JSNumber CHILD_MESSAGE_MEM_USAGE]].
Proof.
  intros Hp Hc Hconn p. subst p.
  destruct (getMemoryUsage w) as [o1 w1] eqn:E1.
  expose w. data_at Hconn.
  run_in E1. injection E1 as <- <-.
  match goal with
  | |- exists w1 _ _, (_, ?W) = _ /\ _ => exists W
  end.
  match goal with
  | |- exists w2 _, _ /\ ?t = _ /\ _ => destruct t as [o2 w2] eqn:E2
  end.
  run_in E2; injection E2 as <- <-;
    match goal with
    | |- exists w2 _, _ /\ (_, ?W) = _ /\ _ => exists W
    end;
    match goal with
    | |- exists w3, _ /\ _ /\ ?t = _ /\ _ => destruct t as [o3 w3] eqn:E3
    end.
  - rewrite settle_promise_snoc in *.
    run_in E3. rewrite length_app, Nat.add_1_r in E3. injection E3 as <- <-.
    eexists. repeat apply conj; try reflexivity; data.
    + apply nth_error_snoc.
    + apply nth_error_before_last.
    + apply nth_error_after_snoc.
    + close_trace.
  - run_in E3. injection E3 as <- <-.
    eexists. repeat apply conj; try reflexivity; data.
    apply nth_error_snoc.
Qed.

Lemma failed_usage_request_is_forgotten_witness :
  exists w1 w2 w3,
    getMemoryUsage Examples.idle = (Returned 0%nat, w1)
    /\ memoryUsageSendFailed 0 (new_Error "write EPIPE") w1 = (Returned tt, w2)
    /\ getMemoryUsage w2 = (Returned 1%nat, w3)
    /\ promise_state w3 0 = Some (Rejected (new_Error "write EPIPE"))
    /\ promise_state w3 1 = Some Pending.
Proof.
  destruct (failed_usage_request_is_forgotten Examples.idle 0 (new_Error "write EPIPE")
              eq_refl eq_refl eq_refl) as [w1 [w2 [w3 [E1 [E2 [E3 H]]]]]].
  exists w1, w2, w3.
  change (truthy (new_Error "write EPIPE")) with true in H.
  destruct H as [_ [_ [_ [H1 [H2 _]]]]].
  repeat apply conj; [exact E1 | exact E2 | exact E3 | exact H1 | exact H2].
Defined.

(** ** Exits that end the worker *)

Ltac known_code code :=
  let b0 := eval vm_compute in (code_is code 0) in
  let bn := eval vm_compute in (is_null code) in
  let bt := eval vm_compute in (code_is code SIGTERM_EXIT_CODE) in
  let bk := eval vm_compute in (code_is code SIGKILL_EXIT_CODE) in
  pose proof (eq_refl : code_is code 0 = b0);
  pose proof (eq_refl : is_null code = bn);
  pose proof (eq_refl : code_is code SIGTERM_EXIT_CODE = bt);
  pose proof (eq_refl : code_is code SIGKILL_EXIT_CODE = bk).

(** X12: the exits that end the worker without a word to the caller.  In
    SHUTTING_DOWN, whatever the exit code, and outside RESTARTING for the
    exit codes 0, [null] and those of SIGTERM and SIGKILL, unless the
    detector flags an exit whose code is not 0, the exit handler only runs
    the final shutdown: no child is forked, and a pending request stays in
    its slot without its completion callback being called. *)
Theorem exit_that_only_shuts_down (w : Worker) (exitCode : option Z) :
  state w = SHUTTING_DOWN
  \/ (clean_or_self_inflicted exitCode
      /\ state w <> RESTARTING
      /\ (exitCode = Some 0 \/ oom_flagged w = false)) ->
  exists w',
    _onExit exitCode w = (Returned tt, w')
    /\ trace w' = trace w ++ [Shutdown]
    /\ _exitPromise w' = ExitResolved
    /\ _request w' = _request w
    /\ _retries w' = _retries w
    /\ _child w' = _child w
    /\ procs w' = procs w
    /\ timers w' = timers w
    /\ (state w' = state w \/ (exitCode = Some 0 /\ state w' = OUT_OF_MEMORY)).
Proof.
  intros [Hs | [Hclean [Hnr Hwhy]]].
  - rewrite (exit_while_shutting_down w exitCode Hs).
    eexists. split; [reflexivity|]. expose w. data.
    repeat apply conj; try reflexivity. left. reflexivity.
  - destruct (_onExit exitCode w) as [o w'] eqn:E.
    unfold oom_flagged, _detectOutOfMemoryCrash, bind, read, when, write in Hwhy.
    destruct Hclean as [-> | [-> | [-> | ->]]];
      match type of E with
      | _onExit ?code _ = _ => known_code code
      end;
      expose w; data_at Hwhy;
      (destruct (has_oom_signature _) eqn:Hsig in Hwhy;
       match goal with
       | s : WorkerStates |- _ => destruct s
       end;
       try congruence;
       try (destruct Hwhy as [Hwhy | Hwhy]; discriminate Hwhy);
       (run_in E; injection E as <- <-;
        (eexists; split; [reflexivity|]; data;
         repeat apply conj; try reflexivity;
         first [left; reflexivity | right; split; reflexivity]))).
Qed.

Lemma exit_that_only_shuts_down_witness :
  exists w',
    _onExit (Some SIGKILL_EXIT_CODE) Examples.busy = (Returned tt, w')
    /\ trace w' = trace Examples.busy ++ [Shutdown]
    /\ _request w' = Some Examples.request_x.
Proof.
  assert (Hnr : state Examples.busy <> RESTARTING) by discriminate.
  destruct (exit_that_only_shuts_down Examples.busy (Some SIGKILL_EXIT_CODE)
              (or_intror
                 (conj (or_intror (or_intror (or_intror eq_refl)))
                    (conj Hnr (or_intror eq_refl)))))
    as [w' [E [Ht [_ [Hr _]]]]].
  exists w'. repeat apply conj; [exact E | exact Ht | exact Hr].
Defined.

(** ** What never throws *)

Lemma installed_send (request : Message) (onProcessStart onProcessEnd onCustomMessage : nat) :
  preserves installed (send request onProcessStart onProcessEnd onCustomMessage).
Proof.
  intros w [[c Hc] H]. destruct (send request onProcessStart onProcessEnd onCustomMessage w)
    as [o w'] eqn:E.
  unfold installed. expose w. run_in E. injection E as <- <-. data.
  split; [eexists; reflexivity | discriminate].
Qed.

Lemma installed_fork : preserves installed fork.
Proof.
  intros w [_ H]. unfold installed, fork in *. expose w. data.
  split; [eexists; reflexivity | exact H].
Qed.

Lemma installed_increment :
  preserves installed (write (fun w => set_retries (increment (_retries w)) w)).
Proof.
  intros w [Hc H]. unfold installed, write in *. expose w. data.
  split; [exact Hc|]. intros Hr. apply H. intros ->. apply Hr. reflexivity.
Qed.

Lemma installed_run_reactions (w : Worker) : installed w -> installed (run_reactions w).
Proof.
  destruct (run_reactions_form w) as [ts [rs ->]]. intros H. destruct w. exact H.
Qed.

Ltac installed_atom :=
  let w := fresh "w" in
  let H := fresh "H" in
  first
    [ apply installed_send
    | apply installed_fork
    | apply installed_increment
    | match goal with
      | |- preserves _ (write _) => intros w H; destruct w; exact H
      | |- preserves _ (setTimeout _ _) => intros w H; destruct w; exact H
      | |- preserves _ new_promise => intros w H; destruct w; exact H
      end ].

Lemma installed_handle (ev : Event) : preserves installed (handle ev).
Proof.
  destruct ev; cbn [handle]; frame_with installed_atom.
Qed.

Lemma installed_reachable
  (options : WorkerOptions) (total : Z) (globals : Globals) (evs : list Event) :
  installed (worker_of (run evs (worker_of (constructor options total globals)))).
Proof.
  unfold worker_of at 1. apply preserves_run.
  - intros ev. apply preserves_step; [apply installed_handle | exact installed_run_reactions].
  - destruct (unsent_constructed options total globals) as [w [E [Hu _]]].
    unfold worker_of. rewrite E. cbn [snd].
    destruct Hu as [_ [Hr [_ [_ [_ Hc]]]]].
    split; [exact Hc|]. intros H. contradiction.
Qed.

(** X13: on a worker the constructor made, whatever happened to it since,
    no call of [send], [initialize], [killChild], [forceExit],
    [getMemoryUsage] or [checkMemoryUsage] throws, and neither do the
    handlers of the error output, of a disconnection and of a failed send,
    nor a timer: each returns.  Only the handlers of a message and of an
    exit can throw. *)
Theorem only_messages_and_exits_throw
  (options : WorkerOptions) (total : Z) (globals : Globals)
  (evs : list Event) (ev : Event) :
  may_throw ev = false ->
  exists w',
    step ev (worker_of (run evs (worker_of (constructor options total globals))))
    = (Returned tt, w').
Proof.
  intros Hev.
  pose proof (installed_reachable options total globals evs) as Hw.
  generalize dependent (worker_of (run evs (worker_of (constructor options total globals)))).
  intros w [[c Hc] Hcb].
  pose proof (eq_refl : exceeds None (maxRetries (_options w)) = false) as Hex.
  unfold step.
  destruct (handle ev w) as [o w1] eqn:E.
  destruct (_retries w) as [r|] eqn:Hr.
  - destruct (_onProcessEnd w) as [cb|] eqn:Hp;
      [|exfalso; apply Hcb; [discriminate | reflexivity]].
    clear Hcb Hex.
    destruct ev; try discriminate Hev; cbn [handle] in E; unfold disconnect, tick in E; expose w;
      run_in E; injection E as <- <-; eexists; reflexivity.
  - clear Hcb.
    destruct ev; try discriminate Hev; cbn [handle] in E; unfold disconnect, tick in E; expose w;
      run_in E; injection E as <- <-; eexists; reflexivity.
Qed.

Lemma only_messages_and_exits_throw_witness :
  exists w',
    step CallInitialize Examples.exhausted = (Returned tt, w').
Proof.
  exact (only_messages_and_exits_throw Examples.options 1000000000 Examples.globals
           (CallSend Examples.request_x 1 2 3 :: repeat (ChildExit (Some 1)) 4)
           CallInitialize eq_refl).
Defined.

(** X14: an out-of-memory exit before the first request.  No completion
    callback is installed before the first [send]; when the detector flags
    the exit of such a worker and the exit code is not 0, the exit handler
    throws a [TypeError] where it would fail the request, before its final
    shutdown: the worker is left in OUT_OF_MEMORY, with nothing added to
    the trace and the exit promise as it was. *)
Theorem out_of_memory_before_first_request (w : Worker) (exitCode : option Z) :
  _onProcessEnd w = None ->
  oom_flagged w = true ->
  exitCode <> Some 0 ->
  exists w',
    _onExit exitCode w = (Thrown (TypeError "this._onProcessEnd is not a function"), w')
    /\ state w' = OUT_OF_MEMORY
    /\ trace w' = trace w
    /\ _exitPromise w' = _exitPromise w
    /\ _request w' = _request w
    /\ procs w' = procs w.
Proof.
  intros Hcb Hoom Hcode.
  apply code_is_not_zero in Hcode.
  destruct (_onExit exitCode w) as [o w'] eqn:E.
  unfold oom_flagged, _detectOutOfMemoryCrash, bind, read, when, write in Hoom.
  expose w. data_at Hoom.
  destruct (has_oom_signature _) eqn:Hsig in Hoom;
    match goal with
    | s : WorkerStates |- _ => destruct s
    end; try discriminate Hoom;
    (run_in E; injection E as <- <-;
     (eexists; repeat apply conj; reflexivity)).
Qed.

Lemma out_of_memory_before_first_request_witness :
  let w := worker_of (run [ChildStderr "FATAL ERROR: heap out of memory"] Examples.idle) in
  exists w',
    run [ChildExit (Some 134)] w
    = (Thrown (TypeError "this._onProcessEnd is not a function"), w')
    /\ count is_on_end (trace w') = 0%nat.
Proof.
  intros w.
  assert (Hcode : Some 134 <> Some 0) by discriminate.
  destruct (out_of_memory_before_first_request w (Some 134) eq_refl eq_refl Hcode)
    as [w' [E [_ [Ht _]]]].
  exists w'. cbn [run]. unfold bind, step. cbn [handle]. rewrite E.
  split; [reflexivity|]. rewrite Ht. reflexivity.
Defined.

(** ** The state between two events *)

Lemma state_after_handler (ev : Event) (w : Worker) :
  installed w -> state w <> STARTING -> state (snd (handle ev w)) <> STARTING.
Proof.
  intros [[c Hc] Hcb] Hs.
  pose proof (eq_refl : exceeds None (maxRetries (_options w)) = false) as Hex.
  destruct (handle ev w) as [o w1] eqn:E. cbn [snd].
  destruct (_retries w) as [r|] eqn:Hr.
  - destruct (_onProcessEnd w) as [cb|] eqn:Hp;
      [|exfalso; apply Hcb; [discriminate | reflexivity]].
    clear Hcb Hex.
    destruct ev; cbn [handle] in E; unfold disconnect, tick in E; expose w;
      run_in E; injection E as <- <-; data; congruence.
  - clear Hcb.
    destruct ev; cbn [handle] in E; unfold disconnect, tick in E; expose w;
      run_in E; injection E as <- <-; data; congruence.
Qed.

Lemma settled_step (ev : Event) :
  preserves (fun w => installed w /\ state w <> STARTING) (step ev).
Proof.
  apply preserves_step.
  - intros w [Hi Hs]. split; [apply installed_handle; exact Hi|].
    apply state_after_handler; assumption.
  - intros w [Hi Hs]. split; [apply installed_run_reactions; exact Hi|].
    rewrite state_run_reactions. exact Hs.
Qed.

(** X15: STARTING is never the state between two events.  The constructor
    leaves the worker in OK, and whatever is called and whatever the child
    does afterwards, also when a handler throws, every handler leaves a
    state other than STARTING: [initialize] sets it and replaces it by OK
    before it returns, and nothing on its way throws on such a worker.  So
    the detector, run from a handler, never finds the state STARTING. *)
Theorem never_starting_between_events
  (options : WorkerOptions) (total : Z) (globals : Globals) (evs : list Event) :
  state (worker_of (run evs (worker_of (constructor options total globals)))) <> STARTING.
Proof.
  assert (H : (fun w => installed w /\ state w <> STARTING)
                (snd (run evs (worker_of (constructor options total globals))))).
  { apply preserves_run; [exact settled_step|].
    destruct (unsent_constructed options total globals) as [w [E [Hu _]]].
    unfold worker_of. rewrite E. cbn [snd].
    destruct Hu as [_ [Hr [Hs [_ [_ Hc]]]]].
    split; [split; [exact Hc | intros H; contradiction] | rewrite Hs; discriminate]. }
  exact (proj2 H).
Qed.

(** ** A forceful signal nothing cancels *)

Section Course.

Variables (t d n0 : nat).

Lemma pending_snoc (l : list Timer) (tm : Timer) :
  pending t (l ++ [tm])
  = (pending t l + if Nat.eqb (timer_id tm) t then 1 else 0)%nat.
Proof.
  unfold pending. rewrite filter_app, length_app. cbn [filter].
  destruct (Nat.eqb (timer_id tm) t); reflexivity.
Qed.

Lemma course_log (e : Effect) :
  is_timer_fired t e = false -> preserves (on_course t d n0) (log e).
Proof.
  intros He w H. unfold on_course, log, write in *. cbn [snd]. expose w. data.
  destruct H as [H1 [H2 [H3 [H4 H5]]]]. repeat apply conj; try assumption.
  rewrite count_app. unfold count at 2. cbn [filter]. rewrite He. cbn [List.length].
  rewrite Nat.add_0_r. exact H4.
Qed.

Lemma course_fork : preserves (on_course t d n0) fork.
Proof.
  intros w H. unfold on_course, fork in *. cbn [snd]. expose w. data.
  destruct H as [H1 [H2 [H3 [H4 H5]]]]. repeat apply conj; try assumption.
  rewrite count_app. unfold count at 2. cbn [filter is_timer_fired List.length].
  rewrite Nat.add_0_r. exact H4.
Qed.

Lemma course_setTimeout (c' delay : nat) :
  preserves (on_course t d n0) (setTimeout c' delay).
Proof.
  intros w H. unfold on_course, setTimeout in *. cbn [snd].
  destruct H as [H1 [H2 [H3 [H4 H5]]]].
  assert (Hne : Nat.eqb (nextTimer w) t = false) by (apply Nat.eqb_neq; lia).
  expose w. data.
  rewrite pending_snoc. cbn [timer_id]. rewrite Hne, Nat.add_0_r.
  repeat apply conj; try assumption; [lia|].
  apply Forall_app. split; [exact H3|].
  constructor; [|constructor]. cbn [timer_id]. intros F.
  apply Nat.eqb_neq in Hne. contradiction.
Qed.

Lemma course_new_promise : preserves (on_course t d n0) new_promise.
Proof. intros w H. destruct w. exact H. Qed.

Lemma course_forceExit : preserves (on_course t d n0) forceExit.
Proof.
  intros w H. destruct (forceExit w) as [o w'] eqn:E. cbn [snd].
  unfold on_course in *. destruct H as [H1 [H2 [H3 [H4 H5]]]].
  assert (Hne : Nat.eqb (nextTimer w) t = false) by (apply Nat.eqb_neq; lia).
  expose w.
  run_in E; injection E as <- <-; data.
  - rewrite pending_snoc. cbn [timer_id]. rewrite Hne, Nat.add_0_r.
    rewrite count_app. unfold count at 2. cbn [filter is_timer_fired List.length].
    rewrite Nat.add_0_r.
    repeat apply conj; try assumption; [lia | |].
    + intros Hin. apply in_app_or in Hin. destruct Hin as [Hin | [Hin | []]];
        [contradiction | lia].
    + apply Forall_app. split; [exact H3|].
      constructor; [|constructor]. cbn [timer_id]. intros F.
      apply Nat.eqb_neq in Hne. contradiction.
  - repeat apply conj; assumption.
Qed.

Lemma pending_filter (f : Timer -> bool) (l : list Timer) :
  (forall tm, In tm l -> timer_id tm = t -> f tm = true) ->
  pending t (filter f l) = pending t l.
Proof.
  unfold pending. induction l as [|tm l IH]; intros Hf; [reflexivity|].
  cbn [filter].
  assert (IH' := IH (fun tm' Hin => Hf tm' (or_intror Hin))).
  destruct (Nat.eqb (timer_id tm) t) eqn:E.
  - rewrite (Hf tm (or_introl eq_refl)) by (apply Nat.eqb_eq; exact E).
    cbn [filter]. rewrite E. cbn [List.length]. rewrite IH'. reflexivity.
  - destruct (f tm); cbn [filter]; rewrite ?E; exact IH'.
Qed.

Lemma pending_filtered_out (f : Timer -> bool) (l : list Timer) :
  (forall tm, In tm l -> timer_id tm = t -> f tm = false) ->
  pending t (filter f l) = 0%nat.
Proof.
  unfold pending. induction l as [|tm l IH]; intros Hf; [reflexivity|].
  cbn [filter].
  assert (IH' := IH (fun tm' Hin => Hf tm' (or_intror Hin))).
  destruct (f tm) eqn:Ef; [|exact IH'].
  cbn [filter]. destruct (Nat.eqb (timer_id tm) t) eqn:E; [|exact IH'].
  apply Nat.eqb_eq in E. rewrite (Hf tm (or_introl eq_refl) E) in Ef. discriminate Ef.
Qed.

Lemma pending_both (f : Timer -> bool) (l : list Timer) :
  List.length (filter (fun tm => Nat.eqb (timer_id tm) t && f tm) l)
  = pending t (filter f l).
Proof.
  unfold pending. induction l as [|tm l IH]; [reflexivity|].
  cbn [filter]. destruct (Nat.eqb (timer_id tm) t) eqn:E; destruct (f tm);
    cbn [andb filter List.length]; rewrite ?E; cbn [List.length]; rewrite IH; reflexivity.
Qed.

Lemma course_clearTimeout (t' : nat) (w : Worker) :
  t' <> t -> on_course t d n0 w -> on_course t d n0 (clearTimeout t' w).
Proof.
  intros Hne H. unfold on_course, clearTimeout in *. expose w. data.
  destruct H as [H1 [H2 [H3 [H4 H5]]]].
  rewrite pending_filter.
  - repeat apply conj; try assumption. apply Forall_filter_keeps. exact H3.
  - intros tm _ Hid. rewrite Hid. apply negb_true_iff. apply Nat.eqb_neq.
    intros F. apply Hne. symmetry. exact F.
Qed.

Lemma course_clearTimeouts (ts : list nat) (w : Worker) :
  ~ In t ts -> on_course t d n0 w ->
  on_course t d n0 (fold_left (fun acc t' => clearTimeout t' acc) ts w)
  /\ exitReactions (fold_left (fun acc t' => clearTimeout t' acc) ts w) = exitReactions w.
Proof.
  revert w. induction ts as [|t' ts IH]; intros w Hnot H; [split; [exact H | reflexivity]|].
  cbn [fold_left].
  destruct (IH (clearTimeout t' w)) as [Ha Hb].
  - intros Hin. apply Hnot. right. exact Hin.
  - apply course_clearTimeout; [|exact H]. intros ->. apply Hnot. left. reflexivity.
  - split; [exact Ha|]. rewrite Hb. destruct w. reflexivity.
Qed.

Lemma course_unregistered (w : Worker) :
  on_course t d n0 w -> on_course t d n0 (set_exitReactions [] w).
Proof.
  intros H. unfold on_course in *. expose w. data.
  destruct H as [H1 [_ [H3 [H4 H5]]]].
  repeat apply conj; try assumption. intros [].
Qed.

Lemma course_run_reactions (w : Worker) :
  on_course t d n0 w -> on_course t d n0 (run_reactions w).
Proof.
  intros H. unfold run_reactions. destruct (_exitPromise w); [exact H|].
  assert (Hnot : ~ In t (exitReactions w)) by (destruct H as [_ [H2 _]]; exact H2).
  apply course_unregistered.
  apply (course_clearTimeouts (exitReactions w) w Hnot H).
Qed.

Lemma course_tick (w : Worker) : on_course t d n0 w -> on_course t d n0 (tick w).
Proof.
  intros H. unfold on_course, tick in *.
  destruct H as [H1 [H2 [H3 [H4 H5]]]].
  rewrite Forall_forall in H3.
  assert (Hdue : forall tm, In tm (timers w) -> timer_id tm = t ->
                            Nat.leb (due tm) (S (clock w)) = Nat.leb d (S (clock w))).
  { intros tm Hin Hid. rewrite (H3 tm Hin Hid). reflexivity. }
  assert (Hbefore : Nat.leb d (S (clock w)) = false -> Nat.leb d (clock w) = false).
  { intros Enow. apply Nat.leb_gt. apply Nat.leb_gt in Enow. lia. }
  expose w. data.
  rewrite count_app, count_fired, pending_both.
  match goal with
  | |- context [Nat.leb d (S ?k)] => destruct (Nat.leb d (S k)) eqn:Enow
  end.
  - rewrite pending_filter by (intros tm Hin Hid; rewrite (Hdue tm Hin Hid); reflexivity).
    rewrite pending_filtered_out
      by (intros tm Hin Hid; rewrite (Hdue tm Hin Hid); reflexivity).
    repeat apply conj; try assumption; [|lia|reflexivity].
    apply Forall_filter_keeps. apply Forall_forall. exact H3.
  - rewrite pending_filtered_out by (intros tm Hin Hid; exact (Hdue tm Hin Hid)).
    rewrite pending_filter
      by (intros tm Hin Hid; rewrite (Hdue tm Hin Hid); reflexivity).
    rewrite (Hbefore eq_refl) in H5.
    repeat apply conj; try assumption; [|lia].
    apply Forall_filter_keeps. apply Forall_forall. exact H3.
Qed.

Lemma course_disconnect (c' : nat) (w : Worker) :
  on_course t d n0 w -> on_course t d n0 (disconnect c' w).
Proof.
  intros H. destruct w. exact H.
Qed.

End Course.

Ltac course_atom :=
  first
    [ apply course_forceExit
    | apply course_log; reflexivity
    | apply course_fork
    | apply course_setTimeout
    | apply course_new_promise
    | apply preserves_write; first
        [ exact (course_tick _ _ _)
        | exact (course_disconnect _ _ _ _)
        | let w := fresh "w" in
          let H := fresh "H" in
          intros w H; destruct w; exact H ] ].

Lemma course_handle (t d n0 : nat) (ev : Event) :
  preserves (on_course t d n0) (handle ev).
Proof.
  destruct ev; cbn [handle]; frame_with course_atom.
Qed.

Lemma pending_fresh (t : nat) (l : list Timer) :
  Forall (fun tm => (timer_id tm < t)%nat) l -> pending t l = 0%nat.
Proof.
  unfold pending. induction l as [|tm l IH]; intros H; [reflexivity|].
  inversion H as [|? ? Hlt Hl]. subst. cbn [filter].
  replace (Nat.eqb (timer_id tm) t) with false by (symmetry; apply Nat.eqb_neq; lia).
  apply IH. exact Hl.
Qed.

Lemma course_after_killChild (w : Worker) (c : nat) :
  _child w = Some c ->
  timers_fresh w ->
  Forall (fun r => (r < nextTimer w)%nat) (exitReactions w) ->
  exists w1,
    killChild w = (Returned (nextTimer w), w1)
    /\ clock w1 = clock w
    /\ on_course (nextTimer w) (clock w + SIGKILL_DELAY)
         (count (is_timer_fired (nextTimer w)) (trace w)) w1.
Proof.
  intros Hc Hfresh Hreg.
  pose proof (pending_fresh (nextTimer w) (timers w) Hfresh) as Hnone.
  assert (Hnot : ~ In (nextTimer w) (exitReactions w)).
  { intros Hin. rewrite Forall_forall in Hreg. specialize (Hreg _ Hin). lia. }
  assert (Hold : Forall (fun tm => timer_id tm = nextTimer w -> due tm = clock w + SIGKILL_DELAY)%nat
                   (timers w)).
  { eapply Forall_impl; [|exact Hfresh]. cbn. intros tm Hlt Hid. lia. }
  assert (Hdue : Nat.leb (clock w + SIGKILL_DELAY) (clock w) = false).
  { apply Nat.leb_gt. unfold SIGKILL_DELAY. lia. }
  destruct (killChild w) as [o w1] eqn:E. unfold on_course. expose w.
  run_in E. injection E as <- <-. data.
  eexists. split; [reflexivity|]. split; [reflexivity|]. data.
  rewrite pending_snoc. cbn [timer_id]. rewrite Nat.eqb_refl, Hnone, Hdue.
  rewrite count_app. unfold count at 2. cbn [filter is_timer_fired List.length].
  repeat apply conj; [lia | exact Hnot | | lia | reflexivity].
  apply Forall_app. split; [exact Hold|].
  constructor; [|constructor]. intros _. reflexivity.
Qed.

Lemma clock_run_reactions (w : Worker) : clock (run_reactions w) = clock w.
Proof.
  destruct (run_reactions_form w) as [ts [rs ->]]. destruct w. reflexivity.
Qed.

(** X16: the forceful signal that [killChild()] schedules is never
    cancelled.  Only [forceExit()] registers the cancellation of the timer
    it creates; the timer of a [killChild()] called from anywhere else
    (the caller, the error output, a disconnection, the memory restart)
    stays pending whatever happens afterwards, the exit of the child
    included, and its callback runs exactly once, when the clock reaches
    500 units after the call. *)
Theorem sigkill_of_killChild_is_never_cancelled
  (w : Worker) (c : nat) (evs : list Event) :
  _child w = Some c ->
  timers_fresh w ->
  Forall (fun r => (r < nextTimer w)%nat) (exitReactions w) ->
  exists w1,
    killChild w = (Returned (nextTimer w), w1)
    /\ let w' := worker_of (run evs w1) in
       count (is_timer_fired (nextTimer w)) (trace w')
       = (count (is_timer_fired (nextTimer w)) (trace w)
          + if Nat.leb (clock w + SIGKILL_DELAY) (clock w') then 1 else 0)%nat.
Proof.
  intros Hc Hfresh Hreg.
  destruct (course_after_killChild w c Hc Hfresh Hreg) as [w1 [E [_ Hcourse]]].
  exists w1. split; [exact E|]. intros w'.
  assert (H : on_course (nextTimer w) (clock w + SIGKILL_DELAY)
                (count (is_timer_fired (nextTimer w)) (trace w)) w').
  { subst w'. unfold worker_of. apply preserves_run; [|exact Hcourse].
    intros ev. apply preserves_step; [apply course_handle | apply course_run_reactions]. }
  destruct H as [_ [_ [_ [H4 H5]]]]. rewrite H5 in H4.
  destruct (Nat.leb (clock w + SIGKILL_DELAY) (clock w')); lia.
Qed.

Lemma sigkill_of_killChild_is_never_cancelled_witness :
  exists w1,
    killChild Examples.busy = (Returned 0%nat, w1)
    /\ count (is_timer_fired 0)
         (trace (worker_of
                   (run (repeat Tick 100 ++ [ChildExit (Some SIGTERM_EXIT_CODE)]
                           ++ repeat Tick 400) w1))) = 1%nat.
Proof.
  assert (Hfresh : timers_fresh Examples.busy) by apply Forall_nil.
  assert (Hreg : Forall (fun r => (r < nextTimer Examples.busy)%nat)
                   (exitReactions Examples.busy)) by apply Forall_nil.
  destruct (sigkill_of_killChild_is_never_cancelled Examples.busy 0
              (repeat Tick 100 ++ [ChildExit (Some SIGTERM_EXIT_CODE)] ++ repeat Tick 400)
              eq_refl Hfresh Hreg) as [w1 [E H]].
  exists w1. split; [exact E|].
  refine (eq_trans H _).
  vm_compute in E. injection E as <-.
  vm_compute. reflexivity.
Defined.

(** ** Usage reports nobody asked to act on *)

(** X17: a usage report restarts the child only when a check was
    requested.  With no check pending, as when the report answers
    [getMemoryUsage()], whatever the limit and the usage: the usage is
    recorded, the outstanding future if any is resolved with it and
    forgotten, and the state, the trace and the timers stay as they were,
    so no signal is sent. *)
Theorem report_without_check_never_restarts (w : Worker) (usage : JSValue) :
  _memoryUsageCheck w = false ->
  exists w',
    _onMessage [JSNumber PARENT_MESSAGE_MEM_USAGE; usage] w = (Returned tt, w')
    /\ _childIdleMemoryUsage w' = usage
    /\ _memoryUsagePromise w' = match _resolveMemoryUsage w with
                                | Some _ => None
                                | None => _memoryUsagePromise w
                                end
    /\ _resolveMemoryUsage w' = None
    /\ (forall p, _resolveMemoryUsage w = Some p ->
                  promises w' = settle_promise p (Resolved usage) (promises w))
    /\ (_resolveMemoryUsage w = None -> promises w' = promises w)
    /\ state w' = state w
    /\ trace w' = trace w
    /\ timers w' = timers w
    /\ _memoryUsageCheck w' = false.
Proof.
  intros Hcheck.
  destruct (_onMessage [JSNumber PARENT_MESSAGE_MEM_USAGE; usage] w) as [o w'] eqn:E.
  expose w. run_in E; injection E as <- <-;
    (eexists; repeat apply conj; try reflexivity;
     try discriminate; intros p Hp; injection Hp as <-; reflexivity).
Qed.

Lemma report_without_check_never_restarts_witness :
  let w := worker_of (run [CallGetMemoryUsage] Examples.idle) in
  exists w',
    _onMessage [JSNumber PARENT_MESSAGE_MEM_USAGE; JSNumber 999999999] w = (Returned tt, w')
    /\ promise_state w' 0 = Some (Resolved (JSNumber 999999999))
    /\ state w' = OK
    /\ trace w' = trace w.
Proof.
  intros w.
  destruct (report_without_check_never_restarts w (JSNumber 999999999) eq_refl)
    as [w' [E [_ [_ [_ [Hp [_ [Hs [Ht _]]]]]]]]].
  exists w'. repeat apply conj; [exact E | | rewrite Hs; reflexivity | exact Ht].
  unfold promise_state. rewrite (Hp 0%nat eq_refl). reflexivity.
Defined.

(** * The escalation of killChild and forceExit *)

(** ** The cancellations registered on the exit promise *)

Lemma fresh_grows (w w' : Worker) :
  (nextTimer w <= nextTimer w')%nat ->
  exitReactions w' = exitReactions w ->
  reactions_fresh w -> reactions_fresh w'.
Proof.
  unfold reactions_fresh. intros Hle -> H.
  eapply Forall_impl; [|exact H]. cbn. intros r Hr. lia.
Qed.

Lemma fresh_forceExit : preserves reactions_fresh forceExit.
Proof.
  intros w H. destruct (forceExit w) as [o w'] eqn:E. cbn [snd].
  unfold reactions_fresh in *. unfold_worker w.
  run_in E; injection E as <- <-; data.
  - apply Forall_app. split.
    + eapply Forall_impl; [|exact H]. cbn. intros r Hr. lia.
    + constructor; [lia | constructor].
  - exact H.
Qed.

Ltac fresh_atom :=
  let w := fresh "w" in
  let H := fresh "H" in
  first
    [ apply preserves_write
    | idtac ];
  intros w H; apply (fresh_grows w); [| |exact H];
  first [ unfold log, write | unfold fork | unfold setTimeout | unfold new_promise ];
  destruct w; cbn; first [reflexivity | lia].

Lemma fresh_handle (ev : Event) : preserves reactions_fresh (handle ev).
Proof.
  destruct ev; cbn [handle]; first [exact fresh_forceExit | frame_with fresh_atom].
Qed.

Lemma fresh_run_reactions (w : Worker) : reactions_fresh w -> reactions_fresh (run_reactions w).
Proof.
  intros H. unfold run_reactions. destruct (_exitPromise w); [exact H|].
  unfold reactions_fresh. destruct (fold_left _ _ w). apply Forall_nil.
Qed.

(** Every worker the constructor and the events can produce meets what
    [killChild_escalation] asks of the timers. *)
Lemma reachable_reactions_fresh
  (options : WorkerOptions) (total : Z) (globals : Globals) (evs : list Event) :
  let w := worker_of (run evs (worker_of (constructor options total globals))) in
  timers_fresh w /\ reactions_fresh w.
Proof.
  intros w. split.
  - exact (proj1 (reachable_well_formed options total globals evs)).
  - subst w. unfold worker_of at 1. apply preserves_run.
    + intros ev. apply preserves_step; [apply fresh_handle | exact fresh_run_reactions].
    + unfold worker_of, constructor. apply (fresh_handle CallInitialize).
      apply Forall_nil.
Qed.

(** ** The timer of forceExit *)

Section Escalation.

Variables (t d n0 : nat).

Lemma escalating_same (w w' : Worker) :
  nextTimer w' = nextTimer w ->
  timers w' = timers w ->
  exitReactions w' = exitReactions w ->
  clock w' = clock w ->
  _exitPromise w' = _exitPromise w ->
  count (is_timer_fired t) (trace w') = count (is_timer_fired t) (trace w) ->
  escalating t d n0 w -> escalating t d n0 w'.
Proof.
  unfold escalating, registered, fired_once, cancelled.
  intros -> -> -> -> -> ->. tauto.
Qed.

Lemma spent_same (n : nat) (w w' : Worker) :
  nextTimer w' = nextTimer w ->
  timers w' = timers w ->
  count (is_timer_fired t) (trace w') = count (is_timer_fired t) (trace w) ->
  spent t n w -> spent t n w'.
Proof.
  unfold spent. intros -> -> ->. tauto.
Qed.

Lemma count_snoc_other (l : list Effect) (e : Effect) :
  is_timer_fired t e = false ->
  count (is_timer_fired t) (l ++ [e]) = count (is_timer_fired t) l.
Proof.
  intros He. rewrite count_app. unfold count at 2. cbn [filter]. rewrite He.
  cbn [List.length]. apply Nat.add_0_r.
Qed.

Lemma escalating_log (e : Effect) :
  is_timer_fired t e = false -> preserves (escalating t d n0) (log e).
Proof.
  intros He w H. apply (escalating_same w); [..|exact H];
    unfold log, write; cbn [snd]; destruct w; try reflexivity.
  data. apply count_snoc_other. exact He.
Qed.

Lemma spent_log (n : nat) (e : Effect) :
  is_timer_fired t e = false -> preserves (spent t n) (log e).
Proof.
  intros He w H. apply (spent_same n w); [..|exact H];
    unfold log, write; cbn [snd]; destruct w; try reflexivity.
  data. apply count_snoc_other. exact He.
Qed.

Lemma escalating_fork : preserves (escalating t d n0) fork.
Proof.
  intros w H. apply (escalating_same w); [..|exact H];
    unfold fork; cbn [snd]; destruct w; try reflexivity.
  data. apply count_snoc_other. reflexivity.
Qed.

Lemma spent_fork (n : nat) : preserves (spent t n) fork.
Proof.
  intros w H. apply (spent_same n w); [..|exact H];
    unfold fork; cbn [snd]; destruct w; try reflexivity.
  data. apply count_snoc_other. reflexivity.
Qed.

Lemma pending_snoc_fresh (l : list Timer) (tm : Timer) :
  timer_id tm <> t -> pending t (l ++ [tm]) = pending t l.
Proof.
  intros Hne. rewrite pending_snoc.
  replace (Nat.eqb (timer_id tm) t) with false
    by (symmetry; apply Nat.eqb_neq; exact Hne).
  apply Nat.add_0_r.
Qed.

Lemma escalating_setTimeout (c' delay : nat) :
  preserves (escalating t d n0) (setTimeout c' delay).
Proof.
  intros w H. unfold escalating, registered, fired_once, cancelled, setTimeout in *.
  cbn [snd]. destruct H as [H1 [H2 H3]].
  assert (Hne : nextTimer w <> t) by lia.
  unfold_worker w. data. rewrite pending_snoc_fresh by exact Hne.
  repeat apply conj; [lia | | exact H3].
  apply Forall_app. split; [exact H2|].
  constructor; [|constructor]. cbn [timer_id]. intros F. contradiction.
Qed.

Lemma spent_setTimeout (n : nat) (c' delay : nat) :
  preserves (spent t n) (setTimeout c' delay).
Proof.
  intros w H. unfold spent, setTimeout in *. cbn [snd]. destruct H as [H1 [H2 H3]].
  assert (Hne : nextTimer w <> t) by lia.
  unfold_worker w. data. rewrite pending_snoc_fresh by exact Hne.
  repeat apply conj; [lia | exact H2 | exact H3].
Qed.

Lemma escalating_new_promise : preserves (escalating t d n0) new_promise.
Proof. intros w H. destruct w. exact H. Qed.

Lemma spent_new_promise (n : nat) : preserves (spent t n) new_promise.
Proof. intros w H. destruct w. exact H. Qed.

Lemma escalating_registers (r : nat) :
  preserves (escalating t d n0)
    (write (fun w => set_exitReactions (exitReactions w ++ [r]) w)).
Proof.
  intros w H. unfold escalating, registered, fired_once, cancelled, write in *.
  cbn [snd]. unfold_worker w. data.
  destruct H as [H1 [H2 H3]]. split; [exact H1|]. split; [exact H2|].
  destruct H3 as [[Ha Hb] | H3].
  - left. split; [apply in_or_app; left; exact Ha | exact Hb].
  - right. exact H3.
Qed.

Lemma escalating_resolved :
  preserves (escalating t d n0) (write (set_exitPromise ExitResolved)).
Proof.
  intros w H. unfold escalating, registered, fired_once, cancelled, write in *.
  cbn [snd]. unfold_worker w. data.
  destruct H as [H1 [H2 H3]]. split; [exact H1|]. split; [exact H2|].
  destruct H3 as [H3 | [H3 | [Ha [Hb _]]]].
  - left. exact H3.
  - right. left. exact H3.
  - right. right. repeat apply conj; [exact Ha | exact Hb | reflexivity].
Qed.

Lemma pending_filter_none (f : Timer -> bool) (l : list Timer) :
  pending t l = 0%nat -> pending t (filter f l) = 0%nat.
Proof.
  unfold pending. induction l as [|tm l IH]; intros H; [reflexivity|].
  cbn [filter] in *. destruct (Nat.eqb (timer_id tm) t) eqn:E; [discriminate H|].
  destruct (f tm); cbn [filter]; rewrite ?E; apply IH; exact H.
Qed.

Lemma pending_split (now : nat) (l : list Timer) :
  Forall (fun tm => timer_id tm = t -> due tm = d) l ->
  pending t (filter (fun tm => Nat.leb (due tm) now) l)
  = (if Nat.leb d now then pending t l else 0%nat)
  /\ pending t (filter (fun tm => negb (Nat.leb (due tm) now)) l)
     = (if Nat.leb d now then 0%nat else pending t l).
Proof.
  intros H. rewrite Forall_forall in H.
  destruct (Nat.leb d now) eqn:E; split.
  - apply pending_filter. intros tm Hin Hid. rewrite (H tm Hin Hid). exact E.
  - apply pending_filtered_out. intros tm Hin Hid. rewrite (H tm Hin Hid), E. reflexivity.
  - apply pending_filtered_out. intros tm Hin Hid. rewrite (H tm Hin Hid). exact E.
  - apply pending_filter. intros tm Hin Hid. rewrite (H tm Hin Hid), E. reflexivity.
Qed.

Lemma escalating_tick (w : Worker) : escalating t d n0 w -> escalating t d n0 (tick w).
Proof.
  intros H. unfold escalating, registered, fired_once, cancelled, tick in *.
  destruct H as [H1 [H2 H3]].
  destruct (pending_split (S (clock w)) (timers w) H2) as [Pf Pw].
  unfold_worker w. data. rewrite count_app, count_fired, pending_both, Pf, Pw.
  split; [exact H1|]. split; [apply Forall_filter_keeps; exact H2|].
  match goal with
  | |- context [Nat.leb d ?now] => destruct (Nat.leb d now) eqn:Enow
  end;
    [apply Nat.leb_le in Enow | apply Nat.leb_gt in Enow];
    destruct H3 as [[Ha [Hb [Hc Hd]]] | [[Ha [Hb Hc]] | [Ha [Hb Hc]]]].
  - right. left. repeat apply conj; [reflexivity | lia | exact Enow].
  - right. left. repeat apply conj; [reflexivity | lia | lia].
  - right. right. repeat apply conj; [reflexivity | lia | exact Hc].
  - left. repeat apply conj; [exact Ha | exact Hb | lia | lia].
  - right. left. repeat apply conj; [exact Ha | lia | lia].
  - right. right. repeat apply conj; [exact Ha | lia | exact Hc].
Qed.

Lemma spent_tick (n : nat) (w : Worker) : spent t n w -> spent t n (tick w).
Proof.
  intros H. unfold spent, tick in *. destruct H as [H1 [H2 H3]].
  unfold_worker w. data. rewrite count_app, count_fired, pending_both.
  rewrite !pending_filter_none by exact H2.
  repeat apply conj; [exact H1 | reflexivity | lia].
Qed.

Lemma escalating_run_reactions (w : Worker) :
  escalating t d n0 w -> escalating t d n0 (run_reactions w).
Proof.
  intros H. unfold run_reactions. destruct (_exitPromise w) eqn:Hres; [exact H|].
  rewrite clearTimeouts_only_timers, cleared_timers.
  unfold escalating, registered, fired_once, cancelled in *.
  destruct H as [H1 [H2 H3]].
  assert (Hgone : In t (exitReactions w) ->
            pending t (filter (fun tm => negb (existsb (Nat.eqb (timer_id tm)) (exitReactions w)))
                         (timers w))
            = 0%nat).
  { intros Hin. apply pending_filtered_out. intros tm _ Hid.
    apply negb_false_iff. apply existsb_exists. exists t. split; [exact Hin|].
    apply Nat.eqb_eq. exact Hid. }
  unfold_worker w. data.
  split; [exact H1|]. split; [apply Forall_filter_keeps; exact H2|].
  destruct H3 as [[Ha [Hb [Hc Hd]]] | [[Ha [Hb Hc]] | [Ha [Hb Hc]]]].
  - right. right. repeat apply conj; [exact (Hgone Ha) | exact Hd | exact Hres].
  - right. left. repeat apply conj; [apply pending_filter_none; exact Ha | exact Hb | exact Hc].
  - right. right. repeat apply conj; [apply pending_filter_none; exact Ha | exact Hb | exact Hres].
Qed.

(** After the reactions, a resolved exit promise has no timer
    registered. *)
Lemma unregistered_run_reactions (w : Worker) :
  _exitPromise (run_reactions w) = ExitResolved -> ~ registered t d n0 (run_reactions w).
Proof.
  unfold run_reactions, registered. destruct (_exitPromise w) eqn:E.
  - intros F. congruence.
  - intros _ [Hin _]. destruct (fold_left _ _ w). exact Hin.
Qed.

Lemma spent_run_reactions (n : nat) (w : Worker) : spent t n w -> spent t n (run_reactions w).
Proof.
  intros H. unfold run_reactions. destruct (_exitPromise w); [exact H|].
  rewrite clearTimeouts_only_timers, cleared_timers.
  unfold spent in *. destruct H as [H1 [H2 H3]]. unfold_worker w. data.
  repeat apply conj; [exact H1 | apply pending_filter_none; exact H2 | exact H3].
Qed.

End Escalation.

Ltac escalating_atom :=
  let w := fresh "w" in
  let H := fresh "H" in
  first
    [ apply escalating_log; reflexivity
    | apply escalating_fork
    | apply escalating_setTimeout
    | apply escalating_new_promise
    | apply escalating_registers
    | apply escalating_resolved
    | apply preserves_write; first
        [ exact (escalating_tick _ _ _)
        | intros w H; apply (escalating_same _ _ _ w); [..|exact H];
          destruct w; reflexivity ] ].

Lemma escalating_handle (t d n0 : nat) (ev : Event) :
  preserves (escalating t d n0) (handle ev).
Proof.
  destruct ev; cbn [handle]; frame_with escalating_atom.
Qed.

Ltac spent_atom :=
  let w := fresh "w" in
  let H := fresh "H" in
  first
    [ apply spent_log; reflexivity
    | apply spent_fork
    | apply spent_setTimeout
    | apply spent_new_promise
    | apply preserves_write; first
        [ exact (spent_tick _ _)
        | intros w H; apply (spent_same _ _ w); [..|exact H];
          destruct w; reflexivity ] ].

Lemma spent_handle (t n : nat) (ev : Event) : preserves (spent t n) (handle ev).
Proof.
  destruct ev; cbn [handle]; frame_with spent_atom.
Qed.

Lemma escalating_run (t d n0 : nat) (evs : list Event) :
  preserves (escalating t d n0) (run evs).
Proof.
  apply preserves_run. intros ev.
  apply preserves_step; [apply escalating_handle | apply escalating_run_reactions].
Qed.

Lemma spent_run (t n : nat) (evs : list Event) : preserves (spent t n) (run evs).
Proof.
  apply preserves_run. intros ev.
  apply preserves_step; [apply spent_handle | apply spent_run_reactions].
Qed.

(** A run that returns has run the reactions to its last event. *)
Lemma unregistered_run (t d n0 : nat) (evs : list Event) (w w' : Worker) :
  run evs w = (Returned tt, w') ->
  (_exitPromise w = ExitResolved -> ~ registered t d n0 w) ->
  _exitPromise w' = ExitResolved -> ~ registered t d n0 w'.
Proof.
  revert w. induction evs as [|ev evs IH]; intros w E H.
  - injection E as <-. exact H.
  - cbn [run] in E. unfold bind, step in E.
    destruct (handle ev w) as [[[]|e] wa]; [|discriminate E].
    apply (IH _ E). apply unregistered_run_reactions.
Qed.

Lemma promise_run_reactions (w : Worker) :
  _exitPromise (run_reactions w) = _exitPromise w.
Proof.
  destruct (run_reactions_form w) as [ts [rs ->]]. destruct w. reflexivity.
Qed.

Lemma ticks_return (k : nat) (w : Worker) :
  exists w',
    run (repeat Tick k) w = (Returned tt, w')
    /\ state w' = state w
    /\ clock w' = (clock w + k)%nat.
Proof.
  revert w. induction k as [|k IH]; intros w.
  - exists w. repeat apply conj; [reflexivity | reflexivity | lia].
  - destruct (IH (run_reactions (tick w))) as [w' [E [Hs Hc]]].
    exists w'. cbn [repeat run]. unfold bind, step. cbn [handle]. unfold write.
    rewrite E, Hs, Hc, state_run_reactions, clock_run_reactions.
    unfold tick. destruct w. data. repeat apply conj; [reflexivity | reflexivity | lia].
Qed.

Lemma killChild_effect (w : Worker) (c : nat) :
  _child w = Some c ->
  killChild w
  = (Returned (nextTimer w),
     set_nextTimer (S (nextTimer w))
       (set_timers
          (timers w ++ [{| timer_id := nextTimer w; due := clock w + SIGKILL_DELAY;
                           childToKill := c |}])
          (set_trace (trace w ++ [Kill c SIGTERM]) w))).
Proof.
  intros Hc. destruct (killChild w) as [o w1] eqn:E. expose w.
  run_in E. injection E as <- <-. reflexivity.
Qed.

Lemma course_run (t d n0 : nat) (evs : list Event) :
  preserves (on_course t d n0) (run evs).
Proof.
  apply preserves_run. intros ev.
  apply preserves_step; [apply course_handle | apply course_run_reactions].
Qed.

Lemma escalating_after_forceExit (w : Worker) (c : nat) :
  _child w = Some c ->
  timers_fresh w ->
  exists w2,
    forceExit w = (Returned tt, w2)
    /\ state w2 = SHUTTING_DOWN
    /\ clock w2 = clock w
    /\ trace w2 = trace w ++ [Kill c SIGTERM]
    /\ timers w2
       = timers w ++ [{| timer_id := nextTimer w; due := clock w + SIGKILL_DELAY;
                         childToKill := c |}]
    /\ exitReactions w2 = exitReactions w ++ [nextTimer w]
    /\ escalating (nextTimer w) (clock w + SIGKILL_DELAY)
         (count (is_timer_fired (nextTimer w)) (trace w)) w2.
Proof.
  intros Hc Hfresh.
  pose proof (pending_fresh (nextTimer w) (timers w) Hfresh) as Hnone.
  assert (Hold : Forall (fun tm => timer_id tm = nextTimer w -> due tm = clock w + SIGKILL_DELAY)%nat
                   (timers w)).
  { eapply Forall_impl; [|exact Hfresh]. cbn. intros tm Hlt Hid. lia. }
  destruct (forceExit w) as [o w2] eqn:E.
  unfold escalating, registered, fired_once, cancelled. expose w.
  run_in E. injection E as <- <-. data.
  eexists. split; [reflexivity|]. data.
  repeat apply conj; try reflexivity; [lia | |].
  - apply Forall_app. split; [exact Hold|].
    constructor; [|constructor]. intros _. reflexivity.
  - left. rewrite pending_snoc. cbn [timer_id]. rewrite Nat.eqb_refl, Hnone.
    rewrite count_app. unfold count at 2. cbn [filter is_timer_fired List.length].
    repeat apply conj; [apply in_or_app; right; left; reflexivity | reflexivity
                       | unfold SIGKILL_DELAY; lia | lia].
Qed.

(** C6, as the code has it.  [killChild()] sends SIGTERM to the current
    child at once and creates a timer for that child, due 500 units later,
    which it returns; nothing is registered to cancel it, and whatever
    events follow, the exit of the child among them, its callback has run
    exactly once from the moment the clock reaches the 500th unit and not
    before.  [forceExit()] does the same in state SHUTTING_DOWN and
    registers the cancellation of the timer on the exit promise.  From
    then on the callback runs at most once and never before the 500th
    unit; while the exit promise is pending it runs exactly when the 500th
    unit is reached, whether or not the child has exited; once it has run
    nothing runs it again; once the exit promise is resolved before the
    500th unit it never runs.  The last is the case when the exit is
    handled before the 500th unit with nothing but time in between. *)
Theorem killChild_escalation (w : Worker) (c : nat) :
  _child w = Some c ->
  timers_fresh w ->
  Forall (fun r => (r < nextTimer w)%nat) (exitReactions w) ->
  let t := nextTimer w in
  let d := (clock w + SIGKILL_DELAY)%nat in
  let n0 := count (is_timer_fired t) (trace w) in
  let forceful := {| timer_id := t; due := d; childToKill := c |} in
  let fired := fun w' : Worker => count (is_timer_fired t) (trace w') in
  exists w1 w2,
    killChild w = (Returned t, w1)
    /\ trace w1 = trace w ++ [Kill c SIGTERM]
    /\ timers w1 = timers w ++ [forceful]
    /\ exitReactions w1 = exitReactions w
    /\ (forall evs,
           let w' := worker_of (run evs w1) in
           fired w' = (n0 + if Nat.leb d (clock w') then 1 else 0)%nat)
    /\ forceExit w = (Returned tt, w2)
    /\ step CallForceExit w = (Returned tt, run_reactions w2)
    /\ state w2 = SHUTTING_DOWN
    /\ trace w2 = trace w ++ [Kill c SIGTERM]
    /\ timers w2 = timers w ++ [forceful]
    /\ exitReactions w2 = exitReactions w ++ [t]
    /\ (forall evs,
           let w' := worker_of (run evs (run_reactions w2)) in
           (fired w' = n0 \/ fired w' = S n0)
           /\ ((clock w' < d)%nat -> fired w' = n0)
           /\ (_exitPromise w' = ExitPending ->
               fired w' = (n0 + if Nat.leb d (clock w') then 1 else 0)%nat)
           /\ (fired w' = S n0 -> forall evs', fired (worker_of (run evs' w')) = S n0))
    /\ (forall evs1 evs2 w3,
           run evs1 (run_reactions w2) = (Returned tt, w3) ->
           _exitPromise w3 = ExitResolved ->
           (clock w3 < d)%nat ->
           fired (worker_of (run evs2 w3)) = n0)
    /\ (forall k exitCode evs,
           (k < SIGKILL_DELAY)%nat ->
           fired (worker_of (run (repeat Tick k ++ ChildExit exitCode :: evs)
                               (run_reactions w2))) = n0).
Proof.
  intros Hc Hfresh Hreg t d n0 forceful fired.
  destruct (course_after_killChild w c Hc Hfresh Hreg) as [w1 [E1 [_ Hcourse]]].
  destruct (escalating_after_forceExit w c Hc Hfresh)
    as [w2 [E2 [Hst [Hcl [Htr [Htm [Hre Hesc]]]]]]].
  fold t d n0 in Hcourse, Hesc, E1.
  assert (Hstart := escalating_run_reactions t d n0 w2 Hesc).
  assert (Hcancel : forall evs1 evs2 w3,
             run evs1 (run_reactions w2) = (Returned tt, w3) ->
             _exitPromise w3 = ExitResolved ->
             (clock w3 < d)%nat ->
             fired (worker_of (run evs2 w3)) = n0).
  { intros evs1 evs2 w3 E Hres Hearly.
    assert (H3 : escalating t d n0 w3).
    { pose proof (escalating_run t d n0 evs1 _ Hstart) as H. rewrite E in H. exact H. }
    assert (Hun : ~ registered t d n0 w3).
    { apply (unregistered_run t d n0 evs1 _ _ E); [|exact Hres].
      apply unregistered_run_reactions. }
    assert (Hsp : spent t n0 w3).
    { destruct H3 as [Ha [_ [Hr | [[_ [_ Hf]] | [Hp [Hn _]]]]]];
        [contradiction | lia | exact (conj Ha (conj Hp Hn))]. }
    exact (proj2 (proj2 (spent_run t n0 evs2 w3 Hsp))). }
  assert (Hspent : forall w', escalating t d n0 w' -> fired w' = S n0 -> spent t (S n0) w').
  { intros w' [Ha [_ [[_ [_ [_ Hn]]] | [[Hp [Hn _]] | [_ [Hn _]]]]]] Hf; unfold fired in Hf;
      [lia | exact (conj Ha (conj Hp Hn)) | lia]. }
  exists w1, w2.
  pose proof (killChild_effect w c Hc) as K. rewrite E1 in K. injection K as K.
  repeat apply conj.
  - exact E1.
  - rewrite K. destruct w. reflexivity.
  - rewrite K. destruct w. reflexivity.
  - rewrite K. destruct w. reflexivity.
  - intros evs w'.
    destruct (course_run t d n0 evs w1 Hcourse) as [_ [_ [_ [H4 H5]]]].
    fold (worker_of (run evs w1)) in H4, H5. fold w' in H4, H5. unfold fired.
    rewrite H5 in H4. destruct (Nat.leb d (clock w')); lia.
  - exact E2.
  - unfold step. cbn [handle]. rewrite E2. reflexivity.
  - exact Hst.
  - exact Htr.
  - exact Htm.
  - exact Hre.
  - intros evs w'.
    assert (H : escalating t d n0 w') by (apply escalating_run; exact Hstart).
    repeat apply conj.
    + destruct H as [_ [_ [[_ [_ [_ Hn]]] | [[_ [Hn _]] | [_ [Hn _]]]]]];
        [left | right | left]; exact Hn.
    + intros Hearly.
      destruct H as [_ [_ [[_ [_ [_ Hn]]] | [[_ [_ Hn]] | [_ [Hn _]]]]]];
        [exact Hn | lia | exact Hn].
    + intros Hpending.
      destruct H as [_ [_ [[_ [_ [Hlt Hn]]] | [[_ [Hn Hle]] | [_ [_ Hres]]]]]].
      * replace (Nat.leb d (clock w')) with false by (symmetry; apply Nat.leb_gt; exact Hlt).
        unfold fired. lia.
      * replace (Nat.leb d (clock w')) with true by (symmetry; apply Nat.leb_le; exact Hle).
        unfold fired. lia.
      * congruence.
    + intros Hf evs'.
      exact (proj2 (proj2 (spent_run t (S n0) evs' w' (Hspent w' H Hf)))).
  - exact Hcancel.
  - intros k exitCode evs Hk.
    destruct (ticks_return k (run_reactions w2)) as [wk [Ek [Hsk Hck]]].
    rewrite state_run_reactions, Hst in Hsk.
    rewrite clock_run_reactions, Hcl in Hck.
    set (w3 := run_reactions
                 (set_exitPromise ExitResolved
                    (set_trace (trace wk ++ [Shutdown]) (set_resolveWorkerReady false wk)))).
    assert (E3 : run (repeat Tick k ++ [ChildExit exitCode]) (run_reactions w2)
                 = (Returned tt, w3)).
    { rewrite run_app, Ek. cbn [run]. unfold bind, step. cbn [handle].
      rewrite (exit_while_shutting_down wk exitCode Hsk). reflexivity. }
    replace (repeat Tick k ++ ChildExit exitCode :: evs)
      with ((repeat Tick k ++ [ChildExit exitCode]) ++ evs)
      by (rewrite <- app_assoc; reflexivity).
    rewrite run_app, E3.
    apply (Hcancel _ evs w3 E3).
    + subst w3. rewrite promise_run_reactions. destruct wk. reflexivity.
    + subst w3. rewrite clock_run_reactions. destruct wk. cbn in Hck |- *. subst d. lia.
Qed.

Lemma killChild_escalation_witness :
  exists w1 w2,
    killChild Examples.idle = (Returned 0%nat, w1)
    /\ trace w1 = trace Examples.idle ++ [Kill 0 SIGTERM]
    /\ count (is_timer_fired 0)
         (trace (worker_of
                   (run (repeat Tick 100 ++ ChildExit (Some SIGTERM_EXIT_CODE)
                           :: repeat Tick 399) w1))) = 0%nat
    /\ count (is_timer_fired 0)
         (trace (worker_of
                   (run (repeat Tick 100 ++ ChildExit (Some SIGTERM_EXIT_CODE)
                           :: repeat Tick 400) w1))) = 1%nat
    /\ forceExit Examples.idle = (Returned tt, w2)
    /\ count (is_timer_fired 0)
         (trace (worker_of
                   (run (repeat Tick 100 ++ ChildExit (Some SIGTERM_EXIT_CODE)
                           :: repeat Tick 400) (run_reactions w2)))) = 0%nat.
Proof.
  assert (Hfresh : timers_fresh Examples.idle) by apply Forall_nil.
  assert (Hreg : Forall (fun r => (r < nextTimer Examples.idle)%nat)
                   (exitReactions Examples.idle)) by apply Forall_nil.
  assert (Hearly : (100 < SIGKILL_DELAY)%nat) by (unfold SIGKILL_DELAY; lia).
  destruct (killChild_escalation Examples.idle 0 eq_refl Hfresh Hreg)
    as [w1 [w2 [E1 [T1 [_ [_ [H1 [E2 [_ [_ [_ [_ [_ [_ [_ H2]]]]]]]]]]]]]]].
  exists w1, w2. repeat apply conj.
  - exact E1.
  - exact T1.
  - refine (eq_trans
              (H1 (repeat Tick 100 ++ ChildExit (Some SIGTERM_EXIT_CODE) :: repeat Tick 399)) _).
    vm_compute in E1. injection E1 as <-. vm_compute. reflexivity.
  - refine (eq_trans
              (H1 (repeat Tick 100 ++ ChildExit (Some SIGTERM_EXIT_CODE) :: repeat Tick 400)) _).
    vm_compute in E1. injection E1 as <-. vm_compute. reflexivity.
  - exact E2.
  - exact (H2 100%nat (Some SIGTERM_EXIT_CODE) (repeat Tick 400) Hearly).
Defined.

(** C6 as the specification words it does not hold.  [killChild()] is
    called; the child exits 100 units later with the code of SIGTERM and the
    exit is handled; nothing cancels the timer, and when the 500th unit has
    passed its callback calls [kill('SIGKILL')] on the handle all the
    same.  Nor does every exit after [forceExit()] cancel: a usage report
    above the limit that arrives after [forceExit()] while a check is
    pending sets the state to RESTARTING, the exit handled 100 units later
    forks the next child and leaves the exit promise pending, and the timer
    of [forceExit()] fires when the 500th unit has passed. *)
Lemma forceful_call_after_exit :
  let exited :=
    worker_of
      (run (CallKillChild :: repeat Tick 100 ++ [ChildExit (Some SIGTERM_EXIT_CODE)])
         Examples.idle) in
  let later := worker_of (run (repeat Tick 400) exited) in
  let respawned :=
    worker_of
      (run (CallForceExit
              :: ChildMessage [JSNumber PARENT_MESSAGE_MEM_USAGE; JSNumber 600000000]
              :: repeat Tick 100 ++ [ChildExit (Some SIGTERM_EXIT_CODE)])
         Examples.answered) in
  let afterwards := worker_of (run (repeat Tick 400) respawned) in
  (In Shutdown (trace exited)
   /\ clock exited = 100%nat
   /\ count (is_timer_fired 0) (trace exited) = 0%nat
   /\ clock later = 500%nat
   /\ count (is_timer_fired 0) (trace later) = 1%nat
   /\ last (trace later) Shutdown = TimerFired 0 0)
  /\ (_memoryUsageCheck Examples.answered = true
      /\ nextTimer Examples.answered = 0%nat
      /\ exitReactions respawned = [0%nat]
      /\ _exitPromise respawned = ExitPending
      /\ _child respawned = Some 1%nat
      /\ clock respawned = 100%nat
      /\ count (is_timer_fired 0) (trace respawned) = 0%nat
      /\ clock afterwards = 500%nat
      /\ count (is_timer_fired 0) (trace afterwards) = 1%nat
      /\ In (TimerFired 0 0) (trace afterwards)).
Proof.
  vm_compute. repeat apply conj; try reflexivity; intuition.
Qed.
